(** * URL shortener: short-code resolution and click recording

    A shallow embedding of the backend's resolution pipeline:
    - [config/redis.js]                 (module [Redis])
    - [database/connection.js]          (module [Db])
    - [services/urlService.js]          (module [UrlService])
    - [services/analyticsService.js]    (module [Analytics])
    - [middleware/rateLimiter.js]       (module [RateLimiter])
    - [controllers/redirectController.js] (module [RedirectController])
    - the same handler on a clock, with the time each call takes
                                        (module [Timeline])
    - [routes/urls.js]                  (module [UrlRoutes])
    - [middleware/rateLimiter.js], the creation quota (module [Quota])
    - [services/authService.js], login and lockout    (module [AuthService])

    Promises are modelled by explicit state passing: an [async] function
    takes the world and returns the world together with either its value or
    the thrown error.  Time is an explicit argument, in milliseconds. *)

From Stdlib Require Import ZArith String Ascii List Bool Lia.
From stdpp Require Import base option list gmap strings pretty.

Local Open Scope string_scope.
Local Open Scope Z_scope.

(** ** JavaScript values and errors *)

Module Js.

(** What an [await] can produce: a value, or a thrown error.  [AppError]
    is the class of [middleware/errorHandler.js]; every other error
    (driver errors, [TypeError], ...) is an [OtherError]. *)
Inductive Thrown :=
| AppError (message : string) (statusCode : Z)
| OtherError (message : string).

Inductive Result (A : Type) :=
| Ok (a : A)
| Throw (e : Thrown).
Arguments Ok {A} a.
Arguments Throw {A} e.

(** [error instanceof AppError] *)
Definition isAppError (e : Thrown) : bool :=
  match e with AppError _ _ => true | OtherError _ => false end.

(** Truthiness of a string that may be [null]/[undefined]. *)
Definition truthy (s : option string) : bool :=
  match s with
  | Some EmptyString => false
  | Some _ => true
  | None => false
  end.

(** [a || b] on possibly-null strings. *)
Definition or_else (a b : option string) : option string :=
  if truthy a then a else b.

(** Strings are sequences of code units, here the ones below 256.
    [String.prototype.toLowerCase] maps the capital letters of that range
    (A-Z, and U+00C0-U+00DE except the multiplication sign) 32 units up. *)
Definition lower_ascii (c : ascii) : ascii :=
  let n := nat_of_ascii c in
  if (((65 <=? n) && (n <=? 90)) ||
      ((192 <=? n) && (n <=? 222) && negb (n =? 215)))%nat%bool
  then ascii_of_nat (n + 32) else c.

Fixpoint toLowerCase (s : string) : string :=
  match s with
  | EmptyString => EmptyString
  | String c r => String (lower_ascii c) (toLowerCase r)
  end.

Fixpoint startsWith (p s : string) : bool :=
  match p, s with
  | EmptyString, _ => true
  | String a p', String b s' => (Ascii.eqb a b && startsWith p' s')%bool
  | String _ _, EmptyString => false
  end.

(** [s.includes(p)] *)
Fixpoint includes (s p : string) : bool :=
  (startsWith p s ||
   match s with
   | EmptyString => false
   | String _ r => includes r p
   end)%bool.

Definition len (s : string) : Z := Z.of_nat (String.length s).

End Js.
Export Js.

(** ** Rows of the relational store *)

Module Db.

(** The [urls] and [url_clicks] tables, with the columns that
    [setupTestDatabase] (tests/setup.js) creates and the services'
    statements use; [short_code] is [UNIQUE NOT NULL], [custom_alias] is
    [UNIQUE], the other listed columns are nullable.  Primary keys are
    UUIDs; they are modelled as integers, so that every id given to a
    statement is one the server reads. *)
Record UrlRow := mkUrlRow {
  id : Z;
  user_id : option Z;
  original_url : string;
  short_code : string;
  custom_alias : option string;
  title : option string;
  description : option string;
  is_active : option bool;
  is_public : option bool;
  click_count : Z;
  password_hash : option string;
  expires_at : option Z;
  created_at : Z;
  updated_at : Z;
  last_accessed : option Z
}.

Record ClickRow := mkClickRow {
  click_id : Z;
  url_id : Z;
  ip_address : option string;
  user_agent : string;
  referer : string;
  country : option string;
  region : option string;
  city : option string;
  device_type : string;
  browser : string;
  os : string;
  is_bot : bool;
  clicked_at : Z
}.

(** What lies between a statement parameter and a column: node-postgres
    sends every parameter as text, and the server reads the text with the
    input function of the column's type, or refuses it.  Neither is part
    of the repository, so they are taken as they come. *)
Record Input := mkInput {
  (** the text node-postgres sends for a [Date] *)
  date_out : Z -> string;
  (** the input function of [BOOLEAN] *)
  bool_in : string -> option bool;
  (** the input function of [TIMESTAMP] *)
  timestamp_in : string -> option Z;
  (** the input function of [INET]: whether the text is an address *)
  inet_in : string -> bool;
  (** what a [VARCHAR(n)] column stores for a text, if it takes it *)
  varchar_in : Z -> string -> option string
}.

(** The database as the services see it through [query]: the two tables,
    the e-mail column of [users] (joined by [getUrlByShortCode]), whether
    the pool answers, how many statements were issued, the generator of
    fresh primary keys, and how the server reads parameters. *)
Record t := mk {
  urls : list UrlRow;
  url_clicks : list ClickRow;
  user_emails : gmap Z string;
  up : bool;
  queries : nat;
  next_id : Z;
  input : Input
}.

Definition with_urls (d : t) (l : list UrlRow) : t :=
  mk l (url_clicks d) (user_emails d) (up d) (queries d) (next_id d) (input d).

Definition with_clicks (d : t) (l : list ClickRow) : t :=
  mk (urls d) l (user_emails d) (up d) (queries d) (next_id d) (input d).

Definition bump_id (d : t) : t :=
  mk (urls d) (url_clicks d) (user_emails d) (up d) (queries d) (next_id d + 1) (input d).

(** Every call of [query] reaches the pool once. *)
Definition issued (d : t) : t :=
  mk (urls d) (url_clicks d) (user_emails d) (up d) (S (queries d)) (next_id d) (input d).

Definition driver_error : Thrown := OtherError "query failed".

(** SQL equality on nullable columns: [NULL = x] is never true. *)
Definition sql_eq_str (col : option string) (v : string) : bool :=
  match col with Some c => String.eqb c v | None => false end.

Definition sql_eq_id (col : option Z) (v : option Z) : bool :=
  match col, v with Some c, Some x => Z.eqb c x | _, _ => false end.

Definition sql_is_true (col : option bool) : bool :=
  match col with Some true => true | _ => false end.

(** [query(text, params)] for a statement that only reads: the rows, or
    the driver's error when the pool does not answer. *)
Definition query {A : Type} (d : t) (rows : t -> A) : t * Result A :=
  (issued d, if up d then Ok (rows d) else Throw driver_error).

(** [SELECT id FROM urls WHERE short_code = $1 OR custom_alias = $1] *)
Definition by_code_or_alias (a : string) (d : t) : list UrlRow :=
  List.filter (fun r => String.eqb (short_code r) a || sql_eq_str (custom_alias r) a)
              (urls d).

(** [SELECT id FROM urls WHERE short_code = $1] *)
Definition by_code (a : string) (d : t) : list UrlRow :=
  List.filter (fun r => String.eqb (short_code r) a) (urls d).

(** [... WHERE u.short_code = $1 AND u.is_active = true] *)
Definition active_by_code (a : string) (d : t) : list UrlRow :=
  List.filter (fun r => String.eqb (short_code r) a && sql_is_true (is_active r))
              (urls d).

(** [... WHERE id = $1 AND user_id = $2] *)
Definition owned (urlId : Z) (userId : option Z) (r : UrlRow) : bool :=
  Z.eqb (id r) urlId && sql_eq_id (user_id r) userId.

(** The two [UNIQUE] constraints of [urls], checked on insertion. *)
Definition violates_unique (d : t) (code : string) (alias : option string) : bool :=
  existsb (fun r => String.eqb (short_code r) code) (urls d) ||
  match alias with
  | Some a => existsb (fun r => sql_eq_str (custom_alias r) a) (urls d)
  | None => false
  end.

(** [INSERT INTO urls (...) VALUES (...) RETURNING *]: the columns not
    listed take their defaults.  Of the table's constraints the two
    [UNIQUE] ones are checked; lengths and the reference to [users] are
    taken to hold for the values passed in. *)
Definition insert_url (d : t) (now : Z) (userId : option Z) (originalUrl shortCode : string)
    (customAlias urlTitle urlDescription : option string) (isActive isPublic : option bool)
    (expiresAt : option Z) : t * Result UrlRow :=
  let d1 := issued d in
  if negb (up d) then (d1, Throw driver_error)
  else if violates_unique d shortCode customAlias
  then (d1, Throw (OtherError "duplicate key value violates unique constraint"))
  else
    let row := mkUrlRow (next_id d) userId originalUrl shortCode customAlias urlTitle
                        urlDescription isActive isPublic 0 None expiresAt now now None in
    (bump_id (with_urls d1 (urls d ++ [row])), Ok row).

(** [url_id ... REFERENCES urls(id) ON DELETE CASCADE]: the clicks that
    stay when the rows [gone] are deleted. *)
Definition cascade (gone : list UrlRow) (clicks : list ClickRow) : list ClickRow :=
  List.filter (fun c => negb (existsb (fun r => Z.eqb (id r) (url_id c)) gone)) clicks.

(** [DELETE FROM urls WHERE id = $1 AND user_id = $2 RETURNING short_code] *)
Definition delete_owned (d : t) (urlId : Z) (userId : option Z) : t * Result (list UrlRow) :=
  let d1 := issued d in
  if negb (up d) then (d1, Throw driver_error)
  else
    let gone := List.filter (owned urlId userId) (urls d) in
    (with_clicks
       (with_urls d1 (List.filter (fun r => negb (owned urlId userId r)) (urls d)))
       (cascade gone (url_clicks d)),
     Ok gone).

Definition set_title (r : UrlRow) (v : option string) : UrlRow :=
  mkUrlRow (id r) (user_id r) (original_url r) (short_code r) (custom_alias r) v
           (description r) (is_active r) (is_public r) (click_count r) (password_hash r)
           (expires_at r) (created_at r) (updated_at r) (last_accessed r).

Definition set_description (r : UrlRow) (v : option string) : UrlRow :=
  mkUrlRow (id r) (user_id r) (original_url r) (short_code r) (custom_alias r) (title r)
           v (is_active r) (is_public r) (click_count r) (password_hash r)
           (expires_at r) (created_at r) (updated_at r) (last_accessed r).

Definition set_is_active (r : UrlRow) (v : option bool) : UrlRow :=
  mkUrlRow (id r) (user_id r) (original_url r) (short_code r) (custom_alias r) (title r)
           (description r) v (is_public r) (click_count r) (password_hash r)
           (expires_at r) (created_at r) (updated_at r) (last_accessed r).

Definition set_is_public (r : UrlRow) (v : option bool) : UrlRow :=
  mkUrlRow (id r) (user_id r) (original_url r) (short_code r) (custom_alias r) (title r)
           (description r) (is_active r) v (click_count r) (password_hash r)
           (expires_at r) (created_at r) (updated_at r) (last_accessed r).

Definition set_expires_at (r : UrlRow) (v : option Z) : UrlRow :=
  mkUrlRow (id r) (user_id r) (original_url r) (short_code r) (custom_alias r) (title r)
           (description r) (is_active r) (is_public r) (click_count r) (password_hash r)
           v (created_at r) (updated_at r) (last_accessed r).

Definition set_updated_at (r : UrlRow) (v : Z) : UrlRow :=
  mkUrlRow (id r) (user_id r) (original_url r) (short_code r) (custom_alias r) (title r)
           (description r) (is_active r) (is_public r) (click_count r) (password_hash r)
           (expires_at r) (created_at r) v (last_accessed r).

(** A statement parameter: [null], a boolean, a string or a [Date]. *)
Inductive Val :=
| VNull
| VBool (b : bool)
| VStr (s : string)
| VDate (t : Z).

(** The text sent for a parameter; [null] stays [NULL]. *)
Definition sent (i : Input) (v : Val) : option string :=
  match v with
  | VNull => None
  | VBool b => Some (if b then "true" else "false")
  | VStr s => Some s
  | VDate t => Some (date_out i t)
  end.

(** What a column receives from a parameter, [None] when the server
    refuses it (invalid input syntax, value too long).  A [TEXT] column
    takes every text as it is sent; a value of the column's own type is
    taken as it is. *)
Definition title_of (i : Input) (v : Val) : option (option string) :=
  match sent i v with
  | None => Some None
  | Some s => option_map Some (varchar_in i 500 s)
  end.

Definition bool_of (i : Input) (v : Val) : option (option bool) :=
  match v with
  | VNull => Some None
  | VBool b => Some (Some b)
  | VStr s => option_map Some (bool_in i s)
  | VDate t => option_map Some (bool_in i (date_out i t))
  end.

Definition time_of (i : Input) (v : Val) : option (option Z) :=
  match v with
  | VNull => Some None
  | VDate t => Some (Some t)
  | VStr s => option_map Some (timestamp_in i s)
  | VBool b => option_map Some (timestamp_in i (if b then "true" else "false"))
  end.

(** Whether the server accepts the parameter of a [SET column = $n];
    when it does not, the statement fails whatever rows it would touch. *)
Definition fits (i : Input) (assignment : string * Val) : bool :=
  let '(column, v) := assignment in
  if String.eqb column "title"
  then match title_of i v with Some _ => true | None => false end
  else if String.eqb column "description"
  then true
  else if String.eqb column "is_active" || String.eqb column "is_public"
  then match bool_of i v with Some _ => true | None => false end
  else if String.eqb column "expires_at"
  then match time_of i v with Some _ => true | None => false end
  else false.

(** One [column = $n] of the [SET] list, for a parameter the server
    accepts. *)
Definition assign (i : Input) (r : UrlRow) (assignment : string * Val) : UrlRow :=
  let '(column, v) := assignment in
  if String.eqb column "title" then set_title r (default None (title_of i v))
  else if String.eqb column "description" then set_description r (sent i v)
  else if String.eqb column "is_active" then set_is_active r (default None (bool_of i v))
  else if String.eqb column "is_public" then set_is_public r (default None (bool_of i v))
  else if String.eqb column "expires_at" then set_expires_at r (default None (time_of i v))
  else r.

(** [UPDATE urls SET <fields>, updated_at = CURRENT_TIMESTAMP
     WHERE id = $n AND user_id = $m RETURNING *] *)
Definition update_owned (d : t) (now : Z) (fields : list (string * Val))
    (urlId : Z) (userId : option Z) : t * Result (list UrlRow) :=
  let d1 := issued d in
  if negb (up d) then (d1, Throw driver_error)
  else if negb (forallb (fits (input d)) fields)
  then (d1, Throw (OtherError "invalid input syntax"))
  else
    let updated r := set_updated_at (fold_left (assign (input d)) fields r) now in
    (with_urls d1 (map (fun r => if owned urlId userId r then updated r else r) (urls d)),
     Ok (map updated (List.filter (owned urlId userId) (urls d)))).

(** [SELECT 1 FROM urls WHERE id = $1]: the reference of [url_clicks]. *)
Definition url_exists (d : t) (urlId : Z) : bool :=
  existsb (fun r => Z.eqb (id r) urlId) (urls d).

(** [INSERT INTO url_clicks (...) VALUES (...) RETURNING id, clicked_at].
    Of the table's constraints the syntax of the [INET] address and the
    reference to [urls] are checked; lengths are taken to hold for the
    values passed in. *)
Definition insert_click (d : t) (now : Z) (urlId : Z) (ip : option string)
    (userAgent ref : string) (ctry rgn cty : option string)
    (deviceType brw opsys : string) (isBot : bool) : t * Result ClickRow :=
  let d1 := issued d in
  if negb (up d) then (d1, Throw driver_error)
  else if negb (match ip with Some address => inet_in (input d) address | None => true end)
  then (d1, Throw (OtherError "invalid input syntax for type inet"))
  else if negb (url_exists d urlId)
  then (d1, Throw (OtherError "insert violates foreign key constraint"))
  else
    let row := mkClickRow (next_id d) urlId ip userAgent ref ctry rgn cty
                          deviceType brw opsys isBot now in
    (bump_id (with_clicks d1 (url_clicks d ++ [row])), Ok row).

End Db.

(** ** The cache: config/redis.js *)

Module Redis.

Section Store.
(** [V] is the type of the JSON documents kept under the [url:] keys. *)
Context {V : Type}.

(** The Redis database behind the module-level [client]: JSON documents
    and counters, each with the instant at which the key expires, and
    whether the server answers.  Documents live under keys that start
    with [url:] and counters under keys that start with [redirect:], so
    the two families never share a key. *)
Record t := mk {
  docs : gmap string (V * option Z);
  counters : gmap string (Z * option Z);
  up : bool
}.

Definition with_docs (r : t) (m : gmap string (V * option Z)) : t :=
  mk m (counters r) (up r).

Definition with_counters (r : t) (m : gmap string (Z * option Z)) : t :=
  mk (docs r) m (up r).

Definition client_error : Thrown := OtherError "redis command failed".

(** A key is gone once its expiry instant is reached. *)
Definition live (now : Z) (expiry : option Z) : bool :=
  match expiry with Some e => now <? e | None => true end.

(** [client.get(key)] *)
Definition client_get (r : t) (now : Z) (key : string) : Result (option V) :=
  if up r then
    match docs r !! key with
    | Some (v, e) => if live now e then Ok (Some v) else Ok None
    | None => Ok None
    end
  else Throw client_error.

(** [get(key)]: a failing client is logged and answered with [null]. *)
Definition get (r : t) (now : Z) (key : string) : option V :=
  match client_get r now key with
  | Ok value => value
  | Throw _ => None
  end.

(** [set(key, value, ttl = 3600)], [ttl] in seconds: [SET] when [ttl] is
    falsy, [SETEX] otherwise, which the server refuses for a negative
    time. *)
Definition set (r : t) (now : Z) (key : string) (value : V) (ttl : Z) : t * bool :=
  if up r then
    if ttl =? 0
    then (with_docs r (<[key := (value, None)]> (docs r)), true)
    else if ttl <? 0 then (r, false)
    else (with_docs r (<[key := (value, Some (now + 1000 * ttl))]> (docs r)), true)
  else (r, false).

(** [del(key)]: [true] when a key was removed. *)
Definition del (r : t) (now : Z) (key : string) : t * bool :=
  if up r then
    match docs r !! key with
    | Some (_, e) => (with_docs r (delete key (docs r)), live now e)
    | None => (r, false)
    end
  else (r, false).

(** [incr(key, ttl = null)]: the new count, or [null] on a client
    error; [if (ttl && result === 1)] the key is given its expiry. *)
Definition incr (r : t) (now : Z) (key : string) (ttl : option Z) : t * option Z :=
  if up r then
    let '(n, e) :=
      match counters r !! key with
      | Some (n, e) => if live now e then (n, e) else (0, None)
      | None => (0, None)
      end in
    let result := n + 1 in
    let e' :=
      match ttl with
      | Some s => if negb (s =? 0) && (result =? 1) then Some (now + 1000 * s) else e
      | None => e
      end in
    (with_counters r (<[key := (result, e')]> (counters r)), Some result)
  else (r, None).

End Store.
Arguments t V : clear implicits.

End Redis.

(** ** services/urlService.js *)

Module UrlService.

(** The object built by [getUrlByShortCode] (and cached by it). *)
Record UrlData := mkUrlData {
  id : Z;
  userId : option Z;
  originalUrl : string;
  shortCode : string;
  customAlias : option string;
  title : option string;
  description : option string;
  isActive : option bool;
  isPublic : option bool;
  clickCount : Z;
  createdAt : Z;
  updatedAt : Z;
  expiresAt : option Z;
  lastAccessed : option Z;
  userEmail : option string
}.

(** The two shapes that [cacheUrl] is called with: the object above
    (from [getUrlByShortCode]) and the raw row (from [createUrl]). *)
Inductive Cached :=
| CachedData (d : UrlData)
| CachedRow (r : Db.UrlRow).

(** The state the services work on: the database, the cache, and the
    number of identifiers drawn from [nanoid] so far. *)
Record World := mkWorld {
  db : Db.t;
  redis : Redis.t Cached;
  draws : nat
}.

Definition with_db (w : World) (d : Db.t) : World := mkWorld d (redis w) (draws w).
Definition with_redis (w : World) (r : Redis.t Cached) : World := mkWorld (db w) r (draws w).
Definition drawn (w : World) : World := mkWorld (db w) (redis w) (S (draws w)).

(** Libraries and process environment the services call into. *)
Record Env := mkEnv {
  (** [nanoid(size)] at the n-th draw *)
  nanoid : nat -> Z -> string;
  (** [new URL(url)]: protocol and hostname, [None] when it throws *)
  parse_url : string -> option (string * string);
  (** [process.env.NODE_ENV === 'production'] *)
  production : bool;
  (** [bcrypt.compare(password, hash)] *)
  bcrypt_compare : string -> string -> bool
}.

(** The fields set by the constructor. *)
Record t := mk {
  shortCodeLength : Z;
  customAliasMinLength : Z;
  customAliasMaxLength : Z;
  baseUrl : string
}.

(** [new UrlService()] when the environment sets none of the variables. *)
Definition urlService : t := mk 6 3 50 "http://localhost:3000".

(** The object returned by [createUrl] and [updateUrl]. *)
Record UrlView := mkUrlView {
  v_id : Z;
  v_originalUrl : string;
  v_shortCode : string;
  v_shortUrl : string;
  v_customAlias : option string;
  v_title : option string;
  v_description : option string;
  v_isActive : option (option bool);
  v_isPublic : option bool;
  v_clickCount : Z;
  v_createdAt : Z;
  v_updatedAt : option Z;
  v_expiresAt : option Z
}.

(** The argument of [createUrl]. *)
Record CreateData := mkCreateData {
  c_originalUrl : string;
  c_customAlias : option string;
  c_userId : option Z;
  c_title : option string;
  c_description : option string;
  c_expiresAt : option Z;
  c_isPublic : option bool
}.

(** [/^[a-zA-Z0-9_-]+$/] *)
Definition alias_char (c : ascii) : bool :=
  let n := nat_of_ascii c in
  (((97 <=? n) && (n <=? 122)) || ((65 <=? n) && (n <=? 90)) ||
   ((48 <=? n) && (n <=? 57)) || (n =? 95) || (n =? 45))%nat%bool.

Fixpoint all_chars (p : ascii -> bool) (s : string) : bool :=
  match s with
  | EmptyString => true
  | String c r => (p c && all_chars p r)%bool
  end.

Definition alias_regex_test (s : string) : bool :=
  match s with
  | EmptyString => false
  | String _ _ => all_chars alias_char s
  end.

(** [catch (error) { if (error instanceof AppError) throw error;
    logger.error(...); throw new AppError(message, 500); }] *)
Definition rethrow {S A : Type} (message : string) (r : S * Result A) : S * Result A :=
  match r with
  | (s, Throw e) =>
      if isAppError e then (s, Throw e) else (s, Throw (AppError message 500))
  | ok => ok
  end.

Section Service.
Context (this : t) (env : Env).

(** The loop of [generateShortCode] that draws random codes; [None]
    when every draw was taken. *)
Fixpoint draw_code (w : World) (retries : nat) : World * Result (option string) :=
  match retries with
  | O => (w, Ok None)
  | S k =>
      let shortCode := nanoid env (draws w) (shortCodeLength this) in
      let '(d, existing) := Db.query (db w) (Db.by_code shortCode) in
      let w1 := with_db (drawn w) d in
      match existing with
      | Throw e => (w1, Throw e)
      | Ok [] => (w1, Ok (Some shortCode))
      | Ok (_ :: _) => draw_code w1 k
      end
  end.

Definition alias_length_message : string :=
  "Custom alias must be between " +:+ pretty (customAliasMinLength this) +:+
  " and " +:+ pretty (customAliasMaxLength this) +:+ " characters".

Definition generateShortCode_try (w : World) (customAlias : option string)
    (retries : nat) : World * Result string :=
  match (if truthy customAlias then customAlias else None) with
  | Some alias =>
      if (len alias <? customAliasMinLength this) || (customAliasMaxLength this <? len alias)
      then (w, Throw (AppError alias_length_message 400))
      else if negb (alias_regex_test alias)
      then (w, Throw (AppError
             "Custom alias can only contain letters, numbers, hyphens, and underscores" 400))
      else
        let '(d, existing) := Db.query (db w) (Db.by_code_or_alias alias) in
        let w1 := with_db w d in
        match existing with
        | Throw e => (w1, Throw e)
        | Ok (_ :: _) => (w1, Throw (AppError "Custom alias is already taken" 409))
        | Ok [] => (w1, Ok alias)
        end
  | None =>
      match draw_code w retries with
      | (w1, Throw e) => (w1, Throw e)
      | (w1, Ok (Some shortCode)) => (w1, Ok shortCode)
      | (w1, Ok None) =>
          (w1, Throw (AppError "Unable to generate unique short code, please try again" 500))
      end
  end.

(** [generateShortCode(customAlias = null, retries = 5)] *)
Definition generateShortCode (w : World) (customAlias : option string)
    (retries : nat) : World * Result string :=
  rethrow "Failed to generate short code" (generateShortCode_try w customAlias retries).

(** [validateUrl(url)] *)
Definition validateUrl (url : string) : Result bool :=
  match parse_url env url with
  | None => Throw (AppError "Invalid URL format" 400)
  | Some (protocol, hostname) =>
      if negb (String.eqb protocol "http:" || String.eqb protocol "https:")
      then Throw (AppError "URL must use HTTP or HTTPS protocol" 400)
      else if production env &&
              (String.eqb hostname "localhost" || String.eqb hostname "127.0.0.1")
      then Throw (AppError "Localhost URLs are not allowed in production" 400)
      else if 2048 <? len url
      then Throw (AppError "URL is too long (maximum 2048 characters)" 400)
      else Ok true
  end.

(** The key [cacheUrl] writes to: [`url:${url.shortCode}`].  A raw row
    has a [short_code] column and no [shortCode] property. *)
Definition cache_key (url : Cached) : string :=
  match url with
  | CachedData d => "url:" +:+ shortCode d
  | CachedRow _ => "url:undefined"
  end.

(** [cacheUrl(url, ttl = 3600)] *)
Definition cacheUrl (w : World) (now : Z) (url : Cached) (ttl : Z) : World :=
  with_redis w (fst (Redis.set (redis w) now (cache_key url) url ttl)).

(** [invalidateUrlCache(shortCode)] *)
Definition invalidateUrlCache (w : World) (now : Z) (code : string) : World :=
  with_redis w (fst (Redis.del (redis w) now ("url:" +:+ code))).

Definition view_of_row (url : Db.UrlRow) (withActive withUpdated : bool) : UrlView :=
  mkUrlView (Db.id url) (Db.original_url url) (Db.short_code url)
            (baseUrl this +:+ "/" +:+ Db.short_code url)
            (Db.custom_alias url) (Db.title url) (Db.description url)
            (if withActive then Some (Db.is_active url) else None)
            (Db.is_public url) (Db.click_count url) (Db.created_at url)
            (if withUpdated then Some (Db.updated_at url) else None)
            (Db.expires_at url).

Definition createUrl_try (w : World) (now : Z) (data : CreateData)
    : World * Result UrlView :=
  match validateUrl (c_originalUrl data) with
  | Throw e => (w, Throw e)
  | Ok _ =>
      match generateShortCode w (c_customAlias data) 5 with
      | (w1, Throw e) => (w1, Throw e)
      | (w1, Ok code) =>
          (* getUrlMetadata returns nulls: [x || metadata.x] is [x || null] *)
          let urlTitle := or_else (c_title data) None in
          let urlDescription := or_else (c_description data) None in
          let '(d, result) :=
            Db.insert_url (db w1) now (c_userId data) (c_originalUrl data) code
              (c_customAlias data) urlTitle urlDescription (Some true)
              (Some (default true (c_isPublic data))) (c_expiresAt data) in
          let w2 := with_db w1 d in
          match result with
          | Throw e => (w2, Throw e)
          | Ok url =>
              let w3 := cacheUrl w2 now (CachedRow url) 3600 in
              (w3, Ok (view_of_row url false false))
          end
      end
  end.

(** [createUrl(data)] *)
Definition createUrl (w : World) (now : Z) (data : CreateData) : World * Result UrlView :=
  rethrow "Failed to create short URL" (createUrl_try w now data).

Definition urlData_of_row (d : Db.t) (url : Db.UrlRow) : UrlData :=
  mkUrlData (Db.id url) (Db.user_id url) (Db.original_url url) (Db.short_code url)
            (Db.custom_alias url) (Db.title url) (Db.description url)
            (Db.is_active url) (Db.is_public url) (Db.click_count url)
            (Db.created_at url) (Db.updated_at url) (Db.expires_at url)
            (Db.last_accessed url)
            (match Db.user_id url with
             | Some u => Db.user_emails d !! u
             | None => None
             end).

(** [url.expires_at && new Date(url.expires_at) < new Date()] *)
Definition has_expired (now : Z) (url : Db.UrlRow) : bool :=
  match Db.expires_at url with
  | Some e => e <? now
  | None => false
  end.

(** [getUrlByShortCode(shortCode)]: every error of the body becomes
    [AppError('Failed to retrieve URL', 500)]. *)
Definition getUrlByShortCode (w : World) (now : Z) (code : string)
    : World * Result (option Cached) :=
  match Redis.get (redis w) now ("url:" +:+ code) with
  | Some cached => (w, Ok (Some cached))
  | None =>
      let '(d, result) := Db.query (db w) (Db.active_by_code code) in
      let w1 := with_db w d in
      match result with
      | Throw _ => (w1, Throw (AppError "Failed to retrieve URL" 500))
      | Ok [] => (w1, Ok None)
      | Ok (url :: _) =>
          if has_expired now url then (w1, Ok None)
          else
            let urlData := CachedData (urlData_of_row (db w) url) in
            (cacheUrl w1 now urlData 3600, Ok (Some urlData))
      end
  end.

Definition allowedUpdates : list string :=
  ["title"; "description"; "is_active"; "is_public"; "expires_at"].

(** The entries of [updates] whose key is on the allow-list: the
    [key = $n] fields and their parameters. *)
Definition updateFields (updates : gmap string Db.Val) : list (string * Db.Val) :=
  List.filter (fun entry => existsb (String.eqb (fst entry)) allowedUpdates)
              (map_to_list updates).

Definition updateUrl_try (w : World) (now : Z) (urlId : Z) (userId : option Z)
    (updates : gmap string Db.Val) : World * Result UrlView :=
  match updateFields updates with
  | [] => (w, Throw (AppError "No valid fields to update" 400))
  | fields =>
      let '(d, result) := Db.update_owned (db w) now fields urlId userId in
      let w1 := with_db w d in
      match result with
      | Throw e => (w1, Throw e)
      | Ok [] => (w1, Throw (AppError "URL not found or access denied" 404))
      | Ok (url :: _) =>
          let w2 := invalidateUrlCache w1 now (Db.short_code url) in
          (w2, Ok (view_of_row url true true))
      end
  end.

(** [updateUrl(urlId, userId, updates)] *)
Definition updateUrl (w : World) (now : Z) (urlId : Z) (userId : option Z)
    (updates : gmap string Db.Val) : World * Result UrlView :=
  rethrow "Failed to update URL" (updateUrl_try w now urlId userId updates).

Definition deleteUrl_try (w : World) (now : Z) (urlId : Z) (userId : option Z)
    : World * Result bool :=
  let '(d, result) := Db.delete_owned (db w) urlId userId in
  let w1 := with_db w d in
  match result with
  | Throw e => (w1, Throw e)
  | Ok [] => (w1, Throw (AppError "URL not found or access denied" 404))
  | Ok (url :: _) =>
      let w2 := invalidateUrlCache w1 now (Db.short_code url) in
      (w2, Ok true)
  end.

(** [deleteUrl(urlId, userId)] *)
Definition deleteUrl (w : World) (now : Z) (urlId : Z) (userId : option Z)
    : World * Result bool :=
  rethrow "Failed to delete URL" (deleteUrl_try w now urlId userId).

End Service.

End UrlService.

(** ** Requests and responses *)

Module Http.

(** What the handlers read from [req]. *)
Record Request := mkRequest {
  (** [req.params.shortCode] *)
  param_shortCode : string;
  (** [req.ip] *)
  ip : option string;
  (** [req.user.id], when [req.user] is set *)
  user : option Z;
  (** [req.get('User-Agent')] *)
  header_userAgent : option string;
  (** [req.get('Referer')], which is also [req.get('Referrer')] *)
  header_referer : option string;
  (** [req.headers['x-url-password']] *)
  header_urlPassword : option string;
  (** [req.query.preview] *)
  query_preview : option string;
  (** [req.query.password] *)
  query_password : option string
}.

Inductive Body :=
| Failure (message : string) (requiresPassword : bool)
| BotInfo (originalUrl : option string) (title description : option string)
| PreviewInfo (originalUrl shortCode title description : option string)
              (clickCount createdAt : option Z) (isPublic : option bool).

Inductive Response :=
| Json (status : Z) (body : Body)
| Redirect (status : Z) (location : option string).

Definition status_of (r : Response) : Z :=
  match r with Json s _ => s | Redirect s _ => s end.

(** The outcomes of a resolution, as the response signals them. *)
Inductive Outcome :=
| NotFound
| ExpiredOrInactive
| PasswordRequired
| RateLimited
| Redirected (originalUrl : option string)
| Preview
| BotMetadata
| InternalError.

Definition outcome_of (r : Response) : Outcome :=
  match r with
  | Redirect _ location => Redirected location
  | Json _ (BotInfo _ _ _) => BotMetadata
  | Json _ (PreviewInfo _ _ _ _ _ _ _) => Preview
  | Json status (Failure _ _) =>
      if status =? 404 then NotFound
      else if status =? 410 then ExpiredOrInactive
      else if status =? 401 then PasswordRequired
      else if status =? 429 then RateLimited
      else InternalError
  end.

End Http.

(** ** services/analyticsService.js *)

Module Analytics.
Import Http UrlService.

Record Geo := mkGeo { geo_country : option string;
                      geo_region : option string;
                      geo_city : option string }.

(** The libraries the service calls; either call may throw. *)
Record Env := mkEnv {
  (** [geoip.lookup(ip)] *)
  geoip_lookup : string -> Result (option Geo);
  (** [useragent.parse(ua)]: [agent.family] and [agent.os.family] *)
  useragent_parse : string -> Result (option string * option string)
}.

(** The fields set by the constructor. *)
Record t := mk {
  enableGeolocation : bool;
  enableUserAgentParsing : bool
}.

(** [detectDeviceType(userAgent)] *)
Definition detectDeviceType (userAgent : string) : string :=
  let ua := toLowerCase userAgent in
  if includes ua "mobile" || includes ua "android" || includes ua "iphone" then "mobile"
  else if includes ua "tablet" || includes ua "ipad" then "tablet"
  else if includes ua "smart-tv" || includes ua "tv" then "tv"
  else "desktop".

Definition botPatterns : list string :=
  ["bot"; "crawler"; "spider"; "scraper"; "curl"; "wget"; "python";
   "googlebot"; "bingbot"; "slurp"; "duckduckbot"; "baiduspider";
   "yandexbot"; "facebookexternalhit"; "twitterbot"; "linkedinbot"].

(** [detectBot(userAgent)] *)
Definition detectBot (userAgent : string) : bool :=
  let ua := toLowerCase userAgent in
  existsb (fun pattern => includes ua pattern) botPatterns.

Section Service.
Context (this : t) (env : Env).

Definition no_geo : Geo := mkGeo None None None.

(** The [try] block of [recordClick]. *)
Definition recordClick_try (w : World) (now : Z) (urlId : Z) (req : Request)
    : World * Result Z :=
  let ipAddress := ip req in
  let userAgent := default "" (or_else (header_userAgent req) (Some "")) in
  let ref := default "" (or_else (header_referer req) (Some "")) in
  let geo : Result Geo :=
    if enableGeolocation this && truthy ipAddress &&
       negb (String.eqb (default "" ipAddress) "127.0.0.1") &&
       negb (String.eqb (default "" ipAddress) "::1")
    then match geoip_lookup env (default "" ipAddress) with
         | Throw e => Throw e
         | Ok (Some g) => Ok g
         | Ok None => Ok no_geo
         end
    else Ok no_geo in
  match geo with
  | Throw e => (w, Throw e)
  | Ok geoData =>
      let device : Result (string * string * string * bool) :=
        if enableUserAgentParsing this && truthy (Some userAgent)
        then match useragent_parse env userAgent with
             | Throw e => Throw e
             | Ok (family, osFamily) =>
                 Ok (detectDeviceType userAgent,
                     default "" (or_else family (Some "unknown")),
                     default "" (or_else osFamily (Some "unknown")),
                     detectBot userAgent)
             end
        else Ok ("unknown", "unknown", "unknown", false) in
      match device with
      | Throw e => (w, Throw e)
      | Ok (deviceType, brw, opsys, isBot) =>
          let '(d, result) :=
            Db.insert_click (db w) now urlId ipAddress userAgent ref
              (geo_country geoData) (geo_region geoData) (geo_city geoData)
              deviceType brw opsys isBot in
          match result with
          | Throw e => (with_db w d, Throw e)
          | Ok row => (with_db w d, Ok (Db.click_id row))
          end
      end
  end.

(** [recordClick(urlId, req)]: the [catch] logs the error and returns
    [null]; the promise is never rejected. *)
Definition recordClick (w : World) (now : Z) (urlId : Z) (req : Request)
    : World * Result (option Z) :=
  match recordClick_try w now urlId req with
  | (w1, Ok clickId) => (w1, Ok (Some clickId))
  | (w1, Throw _) => (w1, Ok None)
  end.

End Service.

End Analytics.

(** ** middleware/rateLimiter.js *)

Module RateLimiter.
Import Http UrlService.

Definition too_many (message : string) : Response :=
  Json 429 (Failure message false).

(** [count > limit], where [count] is [null] after a client error. *)
Definition exceeds (count : option Z) (limit : Z) : bool :=
  match count with Some n => limit <? n | None => false end.

(** [redirectLimiter(req, res, next)]: [Some response] when the limiter
    answered itself and did not call [next]. *)
Definition redirectLimiter (w : World) (now : Z) (req : Request) : World * option Response :=
  let shortCode := param_shortCode req in
  let ipText := default "undefined" (ip req) in
  let clientKey :=
    match user req with
    | Some uid => "redirect:user:" +:+ pretty uid
    | None => "redirect:ip:" +:+ ipText
    end in
  let urlKey := "redirect:url:" +:+ shortCode +:+ ":" +:+ ipText in
  let '(r1, clientCount) := Redis.incr (redis w) now clientKey (Some 3600) in
  if exceeds clientCount 1000
  then (with_redis w r1, Some (too_many "Too many redirects, please try again later."))
  else
    let '(r2, urlCount) := Redis.incr r1 now urlKey (Some 60) in
    if exceeds urlCount 10
    then (with_redis w r2,
          Some (too_many "Too many redirects for this URL, please wait a moment."))
    else (with_redis w r2, None).

End RateLimiter.

(** ** controllers/redirectController.js *)

Module RedirectController.
Import Http UrlService.

(** The properties of [urlData] that [handleRedirect] reads; a missing
    property reads as [undefined]. *)
Record Props := mkProps {
  p_id : Z;
  p_isActive : option bool;
  p_originalUrl : option string;
  p_shortCode : option string;
  p_title : option string;
  p_description : option string;
  p_clickCount : option Z;
  p_createdAt : option Z;
  p_isPublic : option bool;
  p_passwordHash : option string
}.

(** [getUrlByShortCode] returns what the cache holds or the object it
    builds.  Neither has a [passwordHash] property: the built object does
    not copy the column, and a raw row names its columns in snake case. *)
Definition props (urlData : Cached) : Props :=
  match urlData with
  | CachedData d =>
      mkProps (id d) (isActive d) (Some (originalUrl d)) (Some (shortCode d))
              (title d) (description d) (Some (clickCount d)) (Some (createdAt d))
              (isPublic d) None
  | CachedRow r =>
      mkProps (Db.id r) None None None (Db.title r) (Db.description r) None None None None
  end.

(** A call whose promise the handler does not await. *)
Inductive Task :=
| RecordClick (urlId : Z) (req : Request).

Record Handled := mkHandled {
  world : World;
  response : Response;
  detached : list Task
}.

Definition not_found : Response :=
  Json 404 (Failure "URL not found or has expired" false).
Definition deactivated : Response :=
  Json 410 (Failure "This URL has been deactivated" false).
Definition password_required : Response :=
  Json 401 (Failure "Password required" true).
Definition invalid_password : Response :=
  Json 401 (Failure "Invalid password" false).
Definition generic_error : Response :=
  Json 500 (Failure "An error occurred while processing your request" false).

(** The [catch] of [handleRedirect]: [error.status === 429] never holds
    for the errors the body can throw ([AppError] sets [status] to the
    string ['fail'] or ['error']). *)
Definition on_error (e : Thrown) : Response := generic_error.

Section Controller.
Context (env : UrlService.Env).

(** The part of [handleRedirect] after the click was dispatched. *)
Definition respond (p : Props) (req : Request) : Response :=
  let userAgent := default "" (or_else (header_userAgent req) (Some "")) in
  if Analytics.detectBot userAgent
  then Json 200 (BotInfo (p_originalUrl p) (p_title p) (p_description p))
  else if match query_preview req with
          | Some q => String.eqb q "true"
          | None => false
          end
  then Json 200 (PreviewInfo (p_originalUrl p) (p_shortCode p) (p_title p)
                             (p_description p) (p_clickCount p) (p_createdAt p)
                             (p_isPublic p))
  else
    match (if truthy (p_passwordHash p) then p_passwordHash p else None) with
    | Some hash =>
        match (let provided := or_else (query_password req) (header_urlPassword req) in
               if truthy provided then provided else None) with
        | None => password_required
        | Some providedPassword =>
            if negb (bcrypt_compare env providedPassword hash)
            then invalid_password
            else Redirect 301 (p_originalUrl p)
        end
    | None => Redirect 301 (p_originalUrl p)
    end.

(** [handleRedirect(req, res)], up to the response.  When the limiter
    answers, [next] is never called and the handler does not go on. *)
Definition handleRedirect (w : World) (now : Z) (req : Request) : Handled :=
  let code := param_shortCode req in
  match RateLimiter.redirectLimiter w now req with
  | (w1, Some limited) => mkHandled w1 limited []
  | (w1, None) =>
      match getUrlByShortCode w1 now code with
      | (w2, Throw e) => mkHandled w2 (on_error e) []
      | (w2, Ok None) => mkHandled w2 not_found []
      | (w2, Ok (Some urlData)) =>
          let p := props urlData in
          if negb (default false (p_isActive p))
          then mkHandled w2 deactivated []
          else mkHandled w2 (respond p req) [RecordClick (p_id p) req]
      end
  end.

(** An implementation of [analyticsService.recordClick]: the world
    after the call settles, and how its promise settles. *)
Definition Recorder : Type := World -> Z -> Z -> Request -> World * Result (option Z).

(** The detached promise settles at [later]; [.catch] logs a rejection,
    so nothing of the settlement reaches the handler. *)
Definition settle (recorder : Recorder) (later : Z) (w : World) (task : Task) : World :=
  match task with
  | RecordClick urlId req => fst (recorder w later urlId req)
  end.

(** A whole resolution: the response, and the world once the detached
    work has settled. *)
Definition resolve (recorder : Recorder) (w : World) (now later : Z) (req : Request)
    : World * Response :=
  let h := handleRedirect w now req in
  (fold_left (settle recorder later) (detached h) (world h), response h).

(** The other interleaving: the detached promise settles at once, before
    the handler goes on to the bot, preview and password checks. *)
Definition resolve_eager (recorder : Recorder) (w : World) (now : Z) (req : Request)
    : World * Response :=
  let code := param_shortCode req in
  match RateLimiter.redirectLimiter w now req with
  | (w1, Some limited) => (w1, limited)
  | (w1, None) =>
      match getUrlByShortCode w1 now code with
      | (w2, Throw e) => (w2, on_error e)
      | (w2, Ok None) => (w2, not_found)
      | (w2, Ok (Some urlData)) =>
          let p := props urlData in
          if negb (default false (p_isActive p))
          then (w2, deactivated)
          else
            let w3 := fst (recorder w2 now (p_id p) req) in
            (w3, respond p req)
      end
  end.

End Controller.

End RedirectController.

(** ** The time on a resolution's path

    [handleRedirect] awaits the limiter and the lookup, and calls
    [recordClick] without awaiting its promise.  An [async] function runs
    in its caller's turn up to its first [await]; in [recordClick] that is
    the [await query(...)] of the INSERT, so the geolocation lookup and the
    user-agent parsing are done when the call hands its promise back. *)

Module Timeline.
Import Http UrlService RedirectController.

(** How long the operations take, in milliseconds.  The source fixes none
    of them. *)
Record Latency := mkLatency {
  (** the awaited [redirectLimiter] *)
  of_limiter : Z;
  (** the awaited [getUrlByShortCode] *)
  of_lookup : Z;
  (** the call of [geoip.lookup] *)
  of_geoip : Z;
  (** the call of [useragent.parse] *)
  of_useragent : Z;
  (** the awaited INSERT of [recordClick] *)
  of_insert : Z
}.

(** The parameters of the INSERT of [recordClick]. *)
Record Insertion := mkInsertion {
  i_ip : option string;
  i_userAgent : string;
  i_referer : string;
  i_geo : Analytics.Geo;
  i_deviceType : string;
  i_browser : string;
  i_os : string;
  i_isBot : bool
}.

Section Recorder.
Context (this : Analytics.t) (aenv : Analytics.Env) (lat : Latency).

(** [recordClick(urlId, req)] from the call to its first [await]: the
    time that has passed when the promise is handed back, and the
    statement the promise then waits for, or the error that the [catch] has
    already turned into [null]. *)
Definition recordClick_called (req : Request) : Z * Result Insertion :=
  let ipAddress := ip req in
  let userAgent := default "" (or_else (header_userAgent req) (Some "")) in
  let ref := default "" (or_else (header_referer req) (Some "")) in
  let located :=
    Analytics.enableGeolocation this && truthy ipAddress &&
    negb (String.eqb (default "" ipAddress) "127.0.0.1") &&
    negb (String.eqb (default "" ipAddress) "::1") in
  let t1 := if located then of_geoip lat else 0 in
  let geo : Result Analytics.Geo :=
    if located
    then match Analytics.geoip_lookup aenv (default "" ipAddress) with
         | Throw e => Throw e
         | Ok (Some g) => Ok g
         | Ok None => Ok Analytics.no_geo
         end
    else Ok Analytics.no_geo in
  match geo with
  | Throw e => (t1, Throw e)
  | Ok geoData =>
      let parsed := Analytics.enableUserAgentParsing this && truthy (Some userAgent) in
      let t2 := t1 + (if parsed then of_useragent lat else 0) in
      let device : Result (string * string * string * bool) :=
        if parsed
        then match Analytics.useragent_parse aenv userAgent with
             | Throw e => Throw e
             | Ok (family, osFamily) =>
                 Ok (Analytics.detectDeviceType userAgent,
                     default "" (or_else family (Some "unknown")),
                     default "" (or_else osFamily (Some "unknown")),
                     Analytics.detectBot userAgent)
             end
        else Ok ("unknown", "unknown", "unknown", false) in
      match device with
      | Throw e => (t2, Throw e)
      | Ok (deviceType, brw, opsys, isBot) =>
          (t2, Ok (mkInsertion ipAddress userAgent ref geoData deviceType brw opsys isBot))
      end
  end.

(** The rest of the [try] block, run when the statement has settled. *)
Definition recordClick_resumed (w : World) (now : Z) (urlId : Z) (statement : Insertion)
    : World * Result Z :=
  let '(d, result) :=
    Db.insert_click (db w) now urlId (i_ip statement) (i_userAgent statement)
      (i_referer statement) (Analytics.geo_country (i_geo statement))
      (Analytics.geo_region (i_geo statement)) (Analytics.geo_city (i_geo statement))
      (i_deviceType statement) (i_browser statement) (i_os statement) (i_isBot statement) in
  match result with
  | Throw e => (with_db w d, Throw e)
  | Ok row => (with_db w d, Ok (Db.click_id row))
  end.

End Recorder.

(** The response of [handleRedirect], the instant it is sent, and the
    instants at which the statements still pending then will settle. *)
Record Sent := mkSent {
  sent_at : Z;
  sent : Response;
  pending : list (Z * Insertion)
}.

Section Handler.
Context (env : UrlService.Env) (this : Analytics.t) (aenv : Analytics.Env) (lat : Latency).

(** [handleRedirect(req, res)] entered at [now]. *)
Definition handleRedirect_timed (w : World) (now : Z) (req : Request) : Sent :=
  let code := param_shortCode req in
  let t1 := now + of_limiter lat in
  match RateLimiter.redirectLimiter w now req with
  | (_, Some limited) => mkSent t1 limited []
  | (w1, None) =>
      let t2 := t1 + of_lookup lat in
      match getUrlByShortCode w1 now code with
      | (_, Throw e) => mkSent t2 (on_error e) []
      | (_, Ok None) => mkSent t2 not_found []
      | (_, Ok (Some urlData)) =>
          let p := props urlData in
          if negb (default false (p_isActive p))
          then mkSent t2 deactivated []
          else
            (* recordClick(urlData.id, req).catch(...), not awaited *)
            let '(spent, started) := recordClick_called this aenv lat req in
            let t3 := t2 + spent in
            mkSent t3 (respond env p req)
                   match started with
                   | Ok statement => [(t3 + of_insert lat, statement)]
                   | Throw _ => []
                   end
      end
  end.

End Handler.

End Timeline.

(** ** routes/urls.js *)

Module UrlRoutes.
Import Http UrlService.

(** [Joi.string().alphanum()] *)
Definition alphanum_char (c : ascii) : bool :=
  let n := nat_of_ascii c in
  (((97 <=? n) && (n <=? 122)) || ((65 <=? n) && (n <=? 90)) ||
   ((48 <=? n) && (n <=? 57)))%nat%bool.

(** [customAlias: Joi.string().alphanum().min(3).max(50).optional()] *)
Definition createUrlSchema_customAlias (customAlias : option string) : bool :=
  match customAlias with
  | None => true
  | Some a => all_chars alphanum_char a && (3 <=? len a) && (len a <=? 50)
  end.

(** Joi's conversions, which [validate] applies by default: the boolean
    that a string given for a [Joi.boolean()] key is converted to, and the
    time that a string given for a [Joi.date()] key is converted to, if
    any.  Joi is a library the routes call into. *)
Record Joi := mkJoi {
  boolean_of : string -> option bool;
  date_of : string -> option Z }.

(** One key of [updateUrlSchema]: the value the validation returns for
    it, or [None] for a validation error. *)
Definition updateUrlSchema_field (joi : Joi) (now : Z) (entry : string * Db.Val)
    : option Db.Val :=
  let '(key, v) := entry in
  if String.eqb key "title"
  then match v with
       | Db.VStr s => if (1 <=? len s) && (len s <=? 500) then Some v else None
       | _ => None
       end
  else if String.eqb key "description"
  then match v with
       | Db.VStr s => if (1 <=? len s) && (len s <=? 1000) then Some v else None
       | _ => None
       end
  else if String.eqb key "isActive" || String.eqb key "isPublic"
  then match v with
       | Db.VBool _ => Some v
       | Db.VStr s => option_map Db.VBool (boolean_of joi s)
       | _ => None
       end
  else if String.eqb key "expiresAt"
  then match v with
       | Db.VNull => Some v
       | Db.VDate t => if now <? t then Some v else None
       | Db.VStr s =>
           match date_of joi s with
           | Some t => if now <? t then Some (Db.VDate t) else None
           | None => None
           end
       | _ => None
       end
  else None.

(** [updateUrlSchema.validate(req.body)]: the converted value, or a
    validation error. *)
Definition updateUrlSchema (joi : Joi) (now : Z) (body : gmap string Db.Val)
    : option (gmap string Db.Val) :=
  if forallb (fun entry => bool_decide (is_Some (updateUrlSchema_field joi now entry)))
             (map_to_list body)
  then Some (map_imap (fun key v => updateUrlSchema_field joi now (key, v)) body)
  else None.

Inductive Reply :=
| Updated (url : UrlView)
| Failed (status : Z) (message : string).

(** [errorHandler(err, req, res, next)] outside development, for the
    errors the services throw. *)
Definition errorHandler (e : Thrown) : Reply :=
  match e with
  | AppError message statusCode =>
      if includes message "Redis"
      then Failed 503 "Cache service temporarily unavailable"
      else Failed statusCode message
  | OtherError _ => Failed 500 "Something went wrong!"
  end.

Section Routes.
Context (joi : Joi) (this : UrlService.t).

(** The handler of [router.put('/:id', authenticateToken, ...)] for the
    authenticated user [userId]. *)
Definition put (w : World) (now : Z) (urlId : Z) (userId : Z)
    (body : gmap string Db.Val) : World * Reply :=
  match updateUrlSchema joi now body with
  | None => (w, Failed 400 "Validation error")
  | Some value =>
      match updateUrl this w now urlId (Some userId) value with
      | (w1, Ok url) => (w1, Updated url)
      | (w1, Throw e) => (w1, errorHandler e)
      end
  end.

End Routes.

End UrlRoutes.

(** ** Vocabulary of the properties *)

Module Terms.
Import Http UrlService.

(** The status of the [AppError] a call failed with. *)
Definition error_status {A : Type} (r : Result A) : option Z :=
  match r with
  | Throw (AppError _ statusCode) => Some statusCode
  | _ => None
  end.

(** An alias of 3 to 50 characters over letters, digits, [_] and [-]. *)
Definition well_formed_alias (alias : string) : bool :=
  (3 <=? len alias) && (len alias <=? 50) && all_chars alias_char alias.

(** Some link has the string as its short code or as its custom alias. *)
Definition occupied (d : Db.t) (s : string) : Prop :=
  exists r, In r (Db.urls d) /\ (Db.short_code r = s \/ Db.custom_alias r = Some s).

(** No link of the caller with that id: the link is someone else's, or
    there is none. *)
Definition not_owner (d : Db.t) (urlId : Z) (userId : option Z) : Prop :=
  forall r, In r (Db.urls d) -> Db.owned urlId userId r = false.

(** The same world with no link of that id in the store. *)
Definition without_link (w : World) (urlId : Z) : World :=
  with_db w (Db.with_urls (db w)
               (List.filter (fun r => negb (Z.eqb (Db.id r) urlId)) (Db.urls (db w)))).

(** The [UNIQUE] constraint on [short_code]. *)
Definition unique_codes (d : Db.t) : Prop :=
  List.NoDup (map Db.short_code (Db.urls d)).

(** What [createUrl] stores in [custom_alias]: nothing, or the alias it
    also stored as the short code (an empty alias is stored as it is). *)
Definition alias_is_code (r : Db.UrlRow) : Prop :=
  forall a, Db.custom_alias r = Some a -> a = Db.short_code r \/ a = "".

Definition consistent (d : Db.t) : Prop :=
  unique_codes d /\ Forall alias_is_code (Db.urls d).

(** A link is resolvable when it is active and not past its expiry. *)
Definition resolvable (now : Z) (r : Db.UrlRow) : bool :=
  Db.sql_is_true (Db.is_active r) && negb (has_expired now r).

(** The cache answers the key of the code with nothing: no document, an
    outdated one, or a failing client. *)
Definition cache_miss (w : World) (now : Z) (code : string) : Prop :=
  Redis.get (redis w) now ("url:" +:+ code) = None.

Definition is_redirect (r : Response) : bool :=
  match r with Redirect _ _ => true | Json _ _ => false end.

(** The contract of the code generator for a caller-supplied alias:
    a malformed alias is a validation error, an occupied one a conflict,
    any other alias is returned as the short code. *)
Definition alias_contract (env : UrlService.Env) (w : World) (alias : string) : Prop :=
  let result := snd (generateShortCode urlService env w (Some alias) 5) in
  (well_formed_alias alias = false -> error_status result = Some 400) /\
  (well_formed_alias alias = true -> occupied (db w) alias ->
   error_status result = Some 409) /\
  (well_formed_alias alias = true -> ~ occupied (db w) alias -> result = Ok alias).

(** Updating a link that is not the caller's fails with NotFound and
    leaves the rows as they are. *)
Definition update_hides_link (w : World) (now : Z) (urlId : Z) (userId : option Z)
    (updates : gmap string Db.Val) : Prop :=
  not_owner (db w) urlId userId ->
  error_status (snd (updateUrl urlService w now urlId userId updates)) = Some 404 /\
  Db.urls (db (fst (updateUrl urlService w now urlId userId updates))) = Db.urls (db w).

(** What a resolution answers, in the vocabulary of the outcomes. *)
Definition outcome (h : RedirectController.Handled) : Outcome :=
  outcome_of (RedirectController.response h).

(** The instant the response is sent does not depend on how long the
    operations of the click-recording path take. *)
Definition recording_never_delays (env : UrlService.Env) (this : Analytics.t)
    (aenv : Analytics.Env) (w : World) (now : Z) (req : Request) : Prop :=
  forall lat lat',
    Timeline.of_limiter lat = Timeline.of_limiter lat' ->
    Timeline.of_lookup lat = Timeline.of_lookup lat' ->
    Timeline.sent_at (Timeline.handleRedirect_timed env this aenv lat w now req) =
    Timeline.sent_at (Timeline.handleRedirect_timed env this aenv lat' w now req).

(** A resolution with one of the outcomes that are not Redirect persists
    no click. *)
Definition records_only_redirects (env : UrlService.Env)
    (recorder : RedirectController.Recorder) (w : World) (now later : Z) (req : Request)
    : Prop :=
  In (outcome_of (snd (RedirectController.resolve env recorder w now later req)))
     [NotFound; ExpiredOrInactive; RateLimited; PasswordRequired; Preview] ->
  Db.url_clicks (db (fst (RedirectController.resolve env recorder w now later req))) =
  Db.url_clicks (db w).

(** The first resolution of an unknown code answers NotFound and leaves a
    tombstone under the key of the code, and the second one answers
    NotFound without a statement reaching the store. *)
Definition tombstones_unknown_code (env : UrlService.Env) (w : World) (now : Z)
    (req : Request) : Prop :=
  let h1 := RedirectController.handleRedirect env w now req in
  let h2 := RedirectController.handleRedirect env (RedirectController.world h1) now req in
  outcome h1 = NotFound /\
  ~ cache_miss (RedirectController.world h1) now (param_shortCode req) /\
  outcome h2 = NotFound /\
  Db.queries (db (RedirectController.world h2)) =
  Db.queries (db (RedirectController.world h1)).

(** A link that is not resolvable is answered with the outcome of its
    own, ExpiredOrInactive. *)
Definition dead_link_has_own_outcome (env : UrlService.Env) (w : World) (now : Z)
    (req : Request) (r : Db.UrlRow) : Prop :=
  In r (Db.urls (db w)) -> Db.short_code r = param_shortCode req ->
  resolvable now r = false ->
  outcome (RedirectController.handleRedirect env w now req) = ExpiredOrInactive.

End Terms.

(** ** Fixtures: a small deployment used by the examples *)

Module Fixtures.
Import Http UrlService.

Definition env : UrlService.Env :=
  UrlService.mkEnv (fun n _ => "Ab3_x" +:+ pretty (Z.of_nat n))
                   (fun url => if startsWith "https://" url
                               then Some ("https:", "example.com") else None)
                   false
                   (fun password hash => String.eqb ("bcrypt:" +:+ password) hash).

Definition analytics : Analytics.t := Analytics.mk true true.

Definition analyticsEnv : Analytics.Env :=
  Analytics.mkEnv (fun _ => Ok None) (fun _ => Ok (Some "Chrome", Some "Linux")).

Definition emptyRedis : Redis.t Cached := Redis.mk ∅ ∅ true.

Definition link (urlId : Z) (owner : option Z) (code : string) (active : bool)
    (hash : option string) (expires : option Z) : Db.UrlRow :=
  Db.mkUrlRow urlId owner "https://example.com/page" code None (Some "Valid URL") None
              (Some active) (Some true) 0 hash expires 1000 1000 None.

(** A server that reads the texts the examples send: the two spellings
    of a boolean, no timestamp given as text, and the example addresses. *)
Definition input : Db.Input :=
  Db.mkInput (fun t => "date:" +:+ pretty t)
             (fun s => if String.eqb (toLowerCase s) "true" then Some true
                       else if String.eqb (toLowerCase s) "false" then Some false
                       else None)
             (fun _ => None)
             (fun s => String.eqb s "203.0.113.7" || String.eqb s "127.0.0.1")
             (fun n s => if len s <=? n then Some s else None).

Definition store (rows : list Db.UrlRow) : World :=
  mkWorld (Db.mk rows [] ∅ true 0 100 input) emptyRedis 0.

(** Joi reading the two spellings of a boolean and no date given as text. *)
Definition joi : UrlRoutes.Joi :=
  UrlRoutes.mkJoi (Db.bool_in input) (fun _ => None).

Definition browser : string := "Mozilla/5.0 (X11; Linux x86_64)".

Definition visit (code : string) : Request :=
  mkRequest code (Some "203.0.113.7") None (Some browser) None None None None.

Definition preview (code : string) : Request :=
  mkRequest code (Some "203.0.113.7") None (Some browser) None None (Some "true") None.

Definition recorder : RedirectController.Recorder :=
  Analytics.recordClick analytics analyticsEnv.

End Fixtures.

(** ** middleware/rateLimiter.js: the creation quota *)

Module Quota.

(** [req.user] as the authentication middleware sets it. *)
Record User := mkUser {
  user_id : Z;
  role : string
}.

(** A value of the [quotas] table, or what a lookup in it yields. *)
Inductive Limit :=
| Finite (n : Z)
| Infinity
| NotANumber.

(** The property names every object inherits: [quotas[role]] is truthy
    for them and is not a number. *)
Definition inherited : list string :=
  ["constructor"; "__proto__"; "hasOwnProperty"; "isPrototypeOf";
   "propertyIsEnumerable"; "toLocaleString"; "toString"; "valueOf";
   "__defineGetter__"; "__defineSetter__"; "__lookupGetter__"; "__lookupSetter__"].

(** [quotas[req.user.role] || quotas.user] *)
Definition userQuota (role : string) : Limit :=
  if String.eqb role "user" then Finite 100
  else if String.eqb role "premium" then Finite 10000
  else if String.eqb role "admin" then Infinity
  else if existsb (String.eqb role) inherited then NotANumber
  else Finite 100.

(** [req.quota] *)
Record Info := mkInfo {
  current : Z;
  limit : Limit;
  remaining : Limit
}.

Inductive Decision :=
| Next (quota : option Info)
| Exceeded (status : Z) (message : string) (quota current : Z).

(** [SELECT COUNT( * ) FROM urls WHERE user_id = $1 AND is_active = true] *)
Definition active_count (userId : Z) (d : Db.t) : Z :=
  Z.of_nat (length (List.filter
    (fun r => Db.sql_eq_id (Db.user_id r) (Some userId) && Db.sql_is_true (Db.is_active r))
    (Db.urls d))).

(** [urlQuotaCheck(req, res, next)]: a failing query is logged and the
    request goes on. *)
Definition urlQuotaCheck (d : Db.t) (user : option User) : Db.t * Decision :=
  match user with
  | None => (d, Next None)
  | Some u =>
      match Db.query d (active_count (user_id u)) with
      | (d1, Throw _) => (d1, Next None)
      | (d1, Ok currentCount) =>
          match userQuota (role u) with
          | Finite q =>
              if q <=? currentCount
              then (d1, Exceeded 403
                     "URL creation quota exceeded. Please upgrade your account or delete some URLs."
                     q currentCount)
              else (d1, Next (Some (mkInfo currentCount (Finite q) (Finite (q - currentCount)))))
          | Infinity => (d1, Next (Some (mkInfo currentCount Infinity Infinity)))
          | NotANumber => (d1, Next (Some (mkInfo currentCount NotANumber NotANumber)))
          end
      end
  end.

End Quota.

(** ** services/authService.js: login and the account lockout *)

Module AuthService.

(** The document kept under a [lockout:] key. *)
Record LockoutData := mkLockout {
  attempts : Z;
  lastAttempt : option Z;
  lockedUntil : option Z
}.

(** The columns of [users] and [user_sessions] that [login] reads and
    writes (tests/setup.js). *)
Record UserRow := mkUserRow {
  user_id : Z;
  email : string;
  password_hash : string;
  first_name : option string;
  last_name : option string;
  role : string;
  is_verified : bool;
  is_active : option bool;
  last_login : option Z
}.

Record SessionRow := mkSessionRow {
  session_user_id : Z;
  refresh_token_hash : string;
  session_ip : option string;
  session_user_agent : option string;
  session_is_active : bool;
  session_expires_at : Z
}.

(** The database and the cache as the service sees them; [ip_address] of
    [user_sessions] is an [INET] column, read by the server's input
    function. *)
Record World := mkWorld {
  users : list UserRow;
  sessions : list SessionRow;
  up : bool;
  queries : nat;
  input : Db.Input;
  lockouts : Redis.t LockoutData
}.

Definition issued (w : World) : World :=
  mkWorld (users w) (sessions w) (up w) (S (queries w)) (input w) (lockouts w).

Definition with_lockouts (w : World) (r : Redis.t LockoutData) : World :=
  mkWorld (users w) (sessions w) (up w) (queries w) (input w) r.

Definition with_sessions (w : World) (l : list SessionRow) : World :=
  mkWorld (users w) l (up w) (queries w) (input w) (lockouts w).

Definition with_users (w : World) (l : list UserRow) : World :=
  mkWorld l (sessions w) (up w) (queries w) (input w) (lockouts w).

(** Whether the server takes [ipAddress] for the [INET] column; [null]
    is stored as [NULL]. *)
Definition address_accepted (w : World) (ipAddress : option string) : bool :=
  match ipAddress with
  | Some address => Db.inet_in (input w) address
  | None => true
  end.

(** The libraries the service calls. *)
Record Env := mkEnv {
  (** [bcrypt.compare(password, hash)] *)
  bcrypt_compare : string -> string -> bool;
  (** [generateTokens(userId)] at an instant: the access and the refresh token *)
  generateTokens : Z -> Z -> string * string;
  (** [crypto.createHash('sha256').update(token).digest('hex')] *)
  sha256 : string -> string
}.

(** The fields set by the constructor. *)
Record t := mk {
  bcryptRounds : Z;
  maxLoginAttempts : Z;
  lockoutDuration : Z
}.

(** [new AuthService()] when the environment does not set the rounds. *)
Definition authService : t := mk 12 5 900.

(** [Math.ceil(x / y)] for integers and a positive [y]. *)
Definition ceil_div (x y : Z) : Z := - ((- x) / y).

(** [`lockout:${email}:${ipAddress}`] *)
Definition lockoutKey (email : string) (ipAddress : option string) : string :=
  "lockout:" +:+ email +:+ ":" +:+ default "undefined" ipAddress.

Record LoginResult := mkLoginResult {
  r_id : Z;
  r_email : string;
  r_firstName : option string;
  r_lastName : option string;
  r_role : string;
  r_isVerified : bool;
  r_tokens : string * string
}.

Section Service.
Context (this : t) (env : Env).

Definition locked_message (timeRemaining : Z) : string :=
  "Account temporarily locked due to too many failed login attempts. Try again in " +:+
  pretty (ceil_div timeRemaining 60) +:+ " minutes.".

(** [checkAccountLockout(email, ipAddress)]; a missing [lockedUntil] makes
    the remaining time [NaN], which is not positive. *)
Definition checkAccountLockout (r : Redis.t LockoutData) (now : Z) (email : string)
    (ipAddress : option string) : Redis.t LockoutData * Result unit :=
  let key := lockoutKey email ipAddress in
  match Redis.get r now key with
  | Some lockoutData =>
      if maxLoginAttempts this <=? attempts lockoutData
      then
        match lockedUntil lockoutData with
        | Some until =>
            let timeRemaining := ceil_div (until - now) 1000 in
            if 0 <? timeRemaining
            then (r, Throw (AppError (locked_message timeRemaining) 429))
            else (fst (Redis.del r now key), Ok tt)
        | None => (fst (Redis.del r now key), Ok tt)
        end
      else (r, Ok tt)
  | None => (r, Ok tt)
  end.

(** [recordFailedLogin(email, ipAddress)] *)
Definition recordFailedLogin (r : Redis.t LockoutData) (now : Z) (email : string)
    (ipAddress : option string) : Redis.t LockoutData :=
  let key := lockoutKey email ipAddress in
  let lockoutData := default (mkLockout 0 None None) (Redis.get r now key) in
  let count := attempts lockoutData + 1 in
  let until :=
    if maxLoginAttempts this <=? count
    then Some (now + lockoutDuration this * 1000)
    else lockedUntil lockoutData in
  fst (Redis.set r now key (mkLockout count (Some now) until) (lockoutDuration this)).

(** [clearFailedLogins(email, ipAddress)] *)
Definition clearFailedLogins (r : Redis.t LockoutData) (now : Z) (email : string)
    (ipAddress : option string) : Redis.t LockoutData :=
  fst (Redis.del r now (lockoutKey email ipAddress)).

(** [SELECT ... FROM users WHERE email = $1] *)
Definition by_email (address : string) (w : World) : list UserRow :=
  List.filter (fun u => String.eqb (email u) address) (users w).

Definition failed (w : World) (now : Z) (address : string) (ipAddress : option string)
    : World :=
  with_lockouts w (recordFailedLogin (lockouts w) now address ipAddress).

(** The [try] block of [login]. *)
Definition login_try (w : World) (now : Z) (address password : string)
    (ipAddress userAgent : option string) : World * Result LoginResult :=
  let normalizedEmail := toLowerCase address in
  match checkAccountLockout (lockouts w) now normalizedEmail ipAddress with
  | (r, Throw e) => (with_lockouts w r, Throw e)
  | (r, Ok _) =>
      let w1 := issued (with_lockouts w r) in
      if negb (up w) then (w1, Throw Db.driver_error)
      else
        match by_email normalizedEmail w with
        | [] =>
            (failed w1 now normalizedEmail ipAddress,
             Throw (AppError "Invalid email or password" 401))
        | user :: _ =>
            if negb (default false (is_active user))
            then (w1, Throw (AppError "Account is deactivated" 401))
            else if negb (bcrypt_compare env password (password_hash user))
            then (failed w1 now normalizedEmail ipAddress,
                  Throw (AppError "Invalid email or password" 401))
            else
              let w2 := with_lockouts w1
                          (clearFailedLogins (lockouts w1) now normalizedEmail ipAddress) in
              let tokens := generateTokens env (user_id user) now in
              (* storeRefreshToken, which throws what its INSERT throws *)
              if negb (address_accepted w ipAddress)
              then (issued w2, Throw (OtherError "invalid input syntax for type inet"))
              else
                let session := mkSessionRow (user_id user) (sha256 env (snd tokens))
                                 ipAddress userAgent true
                                 (now + 30 * 24 * 60 * 60 * 1000) in
                let w3 := issued (with_sessions w2 (sessions w2 ++ [session])) in
                (* the update of last_login *)
                let w4 := issued (with_users w3
                            (map (fun u => if Z.eqb (user_id u) (user_id user)
                                           then mkUserRow (user_id u) (email u)
                                                  (password_hash u) (first_name u)
                                                  (last_name u) (role u) (is_verified u)
                                                  (is_active u) (Some now)
                                           else u) (users w3))) in
                (w4, Ok (mkLoginResult (user_id user) (email user) (first_name user)
                                       (last_name user) (role user) (is_verified user)
                                       tokens))
        end
  end.

(** [login(email, password, ipAddress, userAgent)] *)
Definition login (w : World) (now : Z) (address password : string)
    (ipAddress userAgent : option string) : World * Result LoginResult :=
  UrlService.rethrow "Login failed" (login_try w now address password ipAddress userAgent).

(** Logins one after the other, each at its instant with its password. *)
Fixpoint logins (w : World) (address : string) (ipAddress userAgent : option string)
    (tries : list (Z * string)) : World * list (Result LoginResult) :=
  match tries with
  | [] => (w, [])
  | (now, password) :: rest =>
      let '(w1, result) := login w now address password ipAddress userAgent in
      let '(w2, results) := logins w1 address ipAddress userAgent rest in
      (w2, result :: results)
  end.

End Service.

End AuthService.

(** ** Measures used by the further properties *)

Module Measures.
Import UrlService.

(** The count a counter stands at: 0 when the key is absent or outdated. *)
Definition live_count {V : Type} (r : Redis.t V) (now : Z) (key : string) : Z :=
  match Redis.counters r !! key with
  | Some (n, e) => if Redis.live now e then n else 0
  | None => 0
  end.

(** [incr(key, ttl)] at each of the instants in turn. *)
Fixpoint incr_all {V : Type} (r : Redis.t V) (key : string) (ttl : option Z)
    (times : list Z) : Redis.t V * list (option Z) :=
  match times with
  | [] => (r, [])
  | now :: rest =>
      let '(r1, count) := Redis.incr r now key ttl in
      let '(r2, counts) := incr_all r1 key ttl rest in
      (r2, count :: counts)
  end.

(** The keys of [redirectLimiter]. *)
Definition clientKey (req : Http.Request) : string :=
  match Http.user req with
  | Some uid => "redirect:user:" +:+ pretty uid
  | None => "redirect:ip:" +:+ default "undefined" (Http.ip req)
  end.

Definition urlKey (req : Http.Request) : string :=
  "redirect:url:" +:+ Http.param_shortCode req +:+ ":" +:+ default "undefined" (Http.ip req).

(** The instants are in order, each less than [gap] after the one before. *)
Fixpoint paced (gap : Z) (from : Z) (times : list Z) : Prop :=
  match times with
  | [] => True
  | now :: rest => from <= now < from + gap /\ paced gap now rest
  end.

(** The user agent the handler and the recorder look at. *)
Definition userAgent_of (req : Http.Request) : string :=
  default "" (or_else (Http.header_userAgent req) (Some "")).

(** The primary key of [urls]. *)
Definition unique_ids (d : Db.t) : Prop :=
  List.NoDup (map Db.id (Db.urls d)).

(** A call of one of the service's methods, as a client of the service
    issues them one after the other. *)
Inductive Call :=
| Create (now : Z) (data : CreateData)
| Update (now : Z) (urlId : Z) (userId : option Z) (updates : gmap string Db.Val)
| Delete (now : Z) (urlId : Z) (userId : option Z)
| Lookup (now : Z) (code : string).

(** The world after the call, whether it returned or threw. *)
Definition call (this : UrlService.t) (env : UrlService.Env) (w : World) (c : Call) : World :=
  match c with
  | Create now data => fst (createUrl this env w now data)
  | Update now urlId userId updates => fst (updateUrl this w now urlId userId updates)
  | Delete now urlId userId => fst (deleteUrl w now urlId userId)
  | Lookup now code => fst (getUrlByShortCode w now code)
  end.

Definition calls (this : UrlService.t) (env : UrlService.Env) (w : World) (l : list Call)
    : World :=
  fold_left (call this env) l w.

(** The [i]-th code the generator draws from [nanoid], counted from the
    draws made so far. *)
Definition draw (this : UrlService.t) (env : UrlService.Env) (w : World) (i : nat) : string :=
  nanoid env (draws w + i)%nat (shortCodeLength this).

(** The user agent contains one of the tokens, whatever the case. *)
Definition mentions (userAgent : string) (tokens : list string) : bool :=
  existsb (includes (toLowerCase userAgent)) tokens.

(** The columns of a link that no update touches. *)
Definition fixed_columns (r : Db.UrlRow)
    : Z * option Z * string * string * option string * Z * option string * Z * option Z :=
  (Db.id r, Db.user_id r, Db.original_url r, Db.short_code r, Db.custom_alias r,
   Db.click_count r, Db.password_hash r, Db.created_at r, Db.last_accessed r).

End Measures.

(** * Properties *)

Import Http UrlService Terms.

(** ** Lists and strings *)

Lemma filter_nil_iff {A : Type} (f : A -> bool) (l : list A) :
  List.filter f l = [] <-> forall x, In x l -> f x = false.
Proof.
  induction l as [|a l IH]; simpl.
  - split; [intros _ x [] | reflexivity].
  - destruct (f a) eqn:Ha.
    + split; [discriminate |].
      intros H. specialize (H a (or_introl eq_refl)). congruence.
    + rewrite IH. split.
      * intros H x [<- | Hx]; [assumption | apply H, Hx].
      * intros H x Hx. apply H. right. exact Hx.
Qed.

Lemma filter_cons_inv {A : Type} (f : A -> bool) (l : list A) (x : A) (rest : list A) :
  List.filter f l = x :: rest -> In x l /\ f x = true.
Proof.
  intros H.
  assert (Hin : In x (List.filter f l)) by (rewrite H; left; reflexivity).
  apply filter_In in Hin. exact Hin.
Qed.

Lemma truthy_nonempty (s : string) : s <> "" -> truthy (Some s) = true.
Proof. destruct s; [congruence | reflexivity]. Qed.

Lemma alias_regex_test_all_chars (s : string) :
  s <> "" -> alias_regex_test s = all_chars alias_char s.
Proof. destruct s; [congruence | reflexivity]. Qed.

Lemma len_nonneg (s : string) : 0 <= len s.
Proof. unfold len. lia. Qed.

Lemma len_empty_iff (s : string) : len s = 0 <-> s = "".
Proof.
  destruct s; unfold len; simpl; split; try reflexivity; try discriminate; lia.
Qed.

(** ** The store's lookup by code or alias *)

Lemma by_code_or_alias_occupied (d : Db.t) (a : string) :
  Db.by_code_or_alias a d <> [] <-> occupied d a.
Proof.
  unfold Db.by_code_or_alias, occupied. split.
  - intros H.
    destruct (List.filter _ (Db.urls d)) as [|r rest] eqn:E; [congruence |].
    apply filter_cons_inv in E as [Hin Hf].
    exists r. split; [exact Hin |].
    apply orb_true_iff in Hf as [Hc | Ha].
    + left. apply String.eqb_eq, Hc.
    + right. unfold Db.sql_eq_str in Ha.
      destruct (Db.custom_alias r) as [c|]; [|discriminate].
      apply String.eqb_eq in Ha. congruence.
  - intros (r & Hin & Hr) E.
    rewrite filter_nil_iff in E. specialize (E r Hin).
    apply orb_false_iff in E as [Hc Ha].
    destruct Hr as [Hr | Hr].
    + apply String.eqb_neq in Hc. congruence.
    + rewrite Hr in Ha. simpl in Ha. apply String.eqb_neq in Ha. congruence.
Qed.

(** ** Code generator *)

Lemma generateShortCode_alias_checks (env : UrlService.Env) (w : World) (alias : string)
    (retries : nat) :
  alias <> "" ->
  generateShortCode urlService env w (Some alias) retries =
  if negb (well_formed_alias alias)
  then (w, Throw (AppError
         (if (len alias <? 3) || (50 <? len alias)
          then "Custom alias must be between 3 and 50 characters"
          else "Custom alias can only contain letters, numbers, hyphens, and underscores")
         400))
  else if negb (Db.up (db w))
  then (with_db w (Db.issued (db w)), Throw (AppError "Failed to generate short code" 500))
  else match Db.by_code_or_alias alias (db w) with
       | [] => (with_db w (Db.issued (db w)), Ok alias)
       | _ :: _ => (with_db w (Db.issued (db w)),
                    Throw (AppError "Custom alias is already taken" 409))
       end.
Proof.
  intros Hne.
  unfold generateShortCode, generateShortCode_try, well_formed_alias.
  rewrite (truthy_nonempty _ Hne), (alias_regex_test_all_chars _ Hne).
  change (customAliasMinLength urlService) with 3.
  change (customAliasMaxLength urlService) with 50.
  destruct (len alias <? 3) eqn:Hlo.
  { apply Z.ltb_lt in Hlo.
    replace (3 <=? len alias) with false by (symmetry; apply Z.leb_gt; lia).
    reflexivity. }
  apply Z.ltb_ge in Hlo.
  replace (3 <=? len alias) with true by (symmetry; apply Z.leb_le; lia).
  destruct (50 <? len alias) eqn:Hhi.
  { apply Z.ltb_lt in Hhi.
    replace (len alias <=? 50) with false by (symmetry; apply Z.leb_gt; lia).
    reflexivity. }
  apply Z.ltb_ge in Hhi.
  replace (len alias <=? 50) with true by (symmetry; apply Z.leb_le; lia).
  simpl. destruct (all_chars alias_char alias); simpl; [|reflexivity].
  unfold Db.query. destruct (Db.up (db w)); simpl; [|reflexivity].
  destruct (Db.by_code_or_alias alias (db w)); reflexivity.
Qed.

(** C5 (as amended).  For every alias that is not the empty string,
    [generateShortCode] of the default service follows the alias contract
    while the store answers: an alias whose length is outside 3..50 or that
    has a character outside [A-Za-z0-9_-] fails with status 400, a
    well-formed alias equal to some link's short code or custom alias fails
    with status 409, and any other well-formed alias is returned itself. *)
Theorem generateShortCode_alias_contract (env : UrlService.Env) (w : World) (alias : string) :
  alias <> "" -> Db.up (db w) = true -> alias_contract env w alias.
Proof.
  intros Hne Hup. unfold alias_contract. cbv zeta.
  rewrite (generateShortCode_alias_checks env w alias 5 Hne), Hup.
  repeat split.
  - intros Hwf. rewrite Hwf. reflexivity.
  - intros Hwf Hocc. rewrite Hwf. simpl.
    apply by_code_or_alias_occupied in Hocc.
    destruct (Db.by_code_or_alias alias (db w)); [congruence | reflexivity].
  - intros Hwf Hfree. rewrite Hwf. simpl.
    destruct (Db.by_code_or_alias alias (db w)) eqn:E; [reflexivity |].
    exfalso. apply Hfree. apply by_code_or_alias_occupied. rewrite E. discriminate.
Qed.

Lemma generateShortCode_alias_contract_witness :
  alias_contract Fixtures.env (Fixtures.store []) "my-link".
Proof.
  apply (generateShortCode_alias_contract Fixtures.env (Fixtures.store []) "my-link").
  - discriminate.
  - reflexivity.
Defined.

(** C5 (as stated) fails at the empty alias: it is malformed, and
    [generateShortCode] answers with a freshly drawn code instead of a
    validation error. *)
Lemma generateShortCode_empty_alias_not_rejected :
  ~ alias_contract Fixtures.env (Fixtures.store []) "".
Proof.
  intros (Hmalformed & _). specialize (Hmalformed eq_refl).
  vm_compute in Hmalformed. discriminate.
Qed.

(** ** The uniqueness constraints as an invariant of the write path *)

Lemma NoDup_map_snoc {A B : Type} (f : A -> B) (l : list A) (x : A) :
  List.NoDup (map f l) -> (forall y, In y l -> f y <> f x) ->
  List.NoDup (map f (l ++ [x])).
Proof.
  induction l as [|a l IH]; simpl; intros Hnd Hfresh.
  - constructor; [intros [] | constructor].
  - inversion Hnd as [|? ? Hnotin Hnd']; subst. constructor.
    + rewrite map_app, in_app_iff. intros [Hin | [Heq | []]].
      * contradiction.
      * apply (Hfresh a); [left; reflexivity | congruence].
    + apply IH; [exact Hnd' |]. intros y Hy. apply Hfresh. right. exact Hy.
Qed.

Lemma NoDup_map_filter {A B : Type} (f : A -> B) (p : A -> bool) (l : list A) :
  List.NoDup (map f l) -> List.NoDup (map f (List.filter p l)).
Proof.
  induction l as [|a l IH]; simpl; intros Hnd; [constructor |].
  inversion Hnd as [|? ? Hnotin Hnd']; subst.
  destruct (p a); simpl; [|apply IH; exact Hnd'].
  constructor; [|apply IH; exact Hnd'].
  intros Hin. apply Hnotin. apply in_map_iff in Hin as (y & Hy & Hin).
  apply filter_In in Hin as [Hin _]. apply in_map_iff. exists y. auto.
Qed.

Lemma draw_code_keeps_rows (this : UrlService.t) (env : UrlService.Env) (retries : nat)
    (w : World) :
  Db.urls (db (fst (draw_code this env w retries))) = Db.urls (db w) /\
  Db.up (db (fst (draw_code this env w retries))) = Db.up (db w).
Proof.
  revert w. induction retries as [|k IH]; intros w; simpl; [auto |].
  unfold Db.query. destruct (Db.up (db w)) eqn:Hup; simpl; [|auto].
  destruct (Db.by_code _ (db w)); simpl; [auto |].
  destruct (IH (with_db (drawn w) (Db.issued (db w)))) as [Hrows Hup']. simpl in *.
  rewrite Hrows, Hup'. auto.
Qed.

Lemma generateShortCode_keeps_rows (this : UrlService.t) (env : UrlService.Env) (w : World)
    (customAlias : option string) (retries : nat) :
  Db.urls (db (fst (generateShortCode this env w customAlias retries))) = Db.urls (db w) /\
  Db.up (db (fst (generateShortCode this env w customAlias retries))) = Db.up (db w).
Proof.
  unfold generateShortCode, generateShortCode_try, rethrow.
  destruct (if truthy customAlias then customAlias else None) as [alias|].
  - destruct (_ || _); [auto |]. destruct (negb _); [auto |].
    unfold Db.query. destruct (Db.up (db w)) eqn:Hup; simpl; [|auto].
    destruct (Db.by_code_or_alias alias (db w)); simpl; auto.
  - pose proof (draw_code_keeps_rows this env retries w) as Hk.
    destruct (draw_code this env w retries) as [w1 [[code|]|e]]; simpl in *; auto.
    destruct (isAppError e); auto.
Qed.

Lemma generateShortCode_returns_alias (this : UrlService.t) (env : UrlService.Env)
    (w w1 : World) (alias code : string) (retries : nat) :
  alias <> "" ->
  generateShortCode this env w (Some alias) retries = (w1, Ok code) -> code = alias.
Proof.
  intros Hne. unfold generateShortCode, generateShortCode_try, rethrow.
  rewrite (truthy_nonempty alias Hne).
  destruct (_ || _); [discriminate |]. destruct (negb _); [discriminate |].
  unfold Db.query. destruct (Db.up (db w)); simpl; [|discriminate].
  destruct (Db.by_code_or_alias alias (db w)); simpl; [|discriminate].
  intros [= _ <-]. reflexivity.
Qed.

Lemma violates_unique_fresh (d : Db.t) (code : string) (alias : option string) :
  Db.violates_unique d code alias = false ->
  forall r, In r (Db.urls d) -> Db.short_code r <> code.
Proof.
  unfold Db.violates_unique. intros H r Hr Heq.
  apply orb_false_iff in H as [H _].
  assert (Hex : existsb (fun r => String.eqb (Db.short_code r) code) (Db.urls d) = true).
  { apply existsb_exists. exists r. split; [exact Hr | apply String.eqb_eq, Heq]. }
  congruence.
Qed.

(** [createUrl] keeps the store consistent. *)
Lemma createUrl_consistent (this : UrlService.t) (env : UrlService.Env) (w : World) (now : Z)
    (data : CreateData) :
  consistent (db w) -> consistent (db (fst (createUrl this env w now data))).
Proof.
  intros Hcons. unfold createUrl, createUrl_try, rethrow.
  destruct (validateUrl env (c_originalUrl data)) as [ok|e];
    [|destruct (isAppError e); exact Hcons].
  pose proof (generateShortCode_keeps_rows this env w (c_customAlias data) 5) as [Hrows _].
  pose proof (generateShortCode_returns_alias this env w) as Hsame.
  destruct (generateShortCode this env w (c_customAlias data) 5) as [w1 [code|e]] eqn:Hgen;
    simpl in Hrows.
  2:{ destruct (isAppError e); simpl; unfold consistent, unique_codes; rewrite Hrows;
      exact Hcons. }
  assert (Hcons1 : consistent (db w1))
    by (unfold consistent, unique_codes; rewrite Hrows; exact Hcons).
  unfold Db.insert_url.
  destruct (negb (Db.up (db w1))); simpl; [exact Hcons1 |].
  destruct (Db.violates_unique (db w1) code (c_customAlias data)) eqn:Hviol; simpl;
    [exact Hcons1 |].
  destruct Hcons1 as [Huniq Halias]. split.
  - unfold unique_codes. simpl. apply NoDup_map_snoc; [exact Huniq |].
    intros r Hr. simpl. apply (violates_unique_fresh _ _ _ Hviol r Hr).
  - simpl. apply Forall_app. split; [exact Halias |].
    constructor; [|constructor]. intros a Ha. simpl in Ha. simpl.
    destruct (String.eqb a "") eqn:Hempty.
    + right. apply String.eqb_eq, Hempty.
    + left. apply String.eqb_neq in Hempty. symmetry.
      apply (Hsame w1 a code 5%nat Hempty). rewrite <- Ha. exact Hgen.
Qed.

Lemma assign_keeps_code (i : Db.Input) (r : Db.UrlRow) (f : string * Db.Val) :
  Db.short_code (Db.assign i r f) = Db.short_code r /\
  Db.custom_alias (Db.assign i r f) = Db.custom_alias r.
Proof.
  destruct f as [column v]. unfold Db.assign.
  repeat (match goal with |- context [if ?b then _ else _] => destruct b end);
    split; reflexivity.
Qed.

Lemma assignments_keep_code (i : Db.Input) (fields : list (string * Db.Val)) (r : Db.UrlRow) :
  Db.short_code (fold_left (Db.assign i) fields r) = Db.short_code r /\
  Db.custom_alias (fold_left (Db.assign i) fields r) = Db.custom_alias r.
Proof.
  revert r. induction fields as [|f fields IH]; intros r; simpl; [auto |].
  destruct (IH (Db.assign i r f)) as [-> ->]. apply assign_keeps_code.
Qed.

(** [updateUrl] keeps the store consistent. *)
Lemma updateUrl_consistent (this : UrlService.t) (w : World) (now : Z) (urlId : Z)
    (userId : option Z) (updates : gmap string Db.Val) :
  consistent (db w) -> consistent (db (fst (updateUrl this w now urlId userId updates))).
Proof.
  intros Hcons. unfold updateUrl, updateUrl_try.
  destruct (updateFields updates) as [|f fields]; [exact Hcons |].
  unfold Db.update_owned.
  destruct (negb (Db.up (db w))); [exact Hcons |].
  destruct (negb (forallb (Db.fits (Db.input (db w))) (f :: fields))); [exact Hcons |].
  set (upd := fun r => if Db.owned urlId userId r
                       then Db.set_updated_at (fold_left (Db.assign (Db.input (db w))) (f :: fields) r) now
                       else r).
  assert (Hkeep : forall r, Db.short_code (upd r) = Db.short_code r /\
                            Db.custom_alias (upd r) = Db.custom_alias r).
  { intros r. unfold upd. destruct (Db.owned urlId userId r); [|auto].
    apply (assignments_keep_code _ (f :: fields) r). }
  assert (Hgoal : consistent (Db.with_urls (Db.issued (db w)) (map upd (Db.urls (db w))))).
  { destruct Hcons as [Huniq Halias]. split.
    - unfold unique_codes. simpl. rewrite map_map.
      rewrite (map_ext _ Db.short_code); [exact Huniq |]. intros r. apply Hkeep.
    - simpl. apply List.Forall_forall. intros r' Hr'.
      apply in_map_iff in Hr' as (r & <- & Hr).
      rewrite List.Forall_forall in Halias. specialize (Halias r Hr).
      unfold alias_is_code in *. destruct (Hkeep r) as [-> ->]. exact Halias. }
  destruct (map _ (List.filter (Db.owned urlId userId) (Db.urls (db w)))); exact Hgoal.
Qed.

(** [deleteUrl] keeps the store consistent. *)
Lemma deleteUrl_consistent (w : World) (now : Z) (urlId : Z) (userId : option Z) :
  consistent (db w) -> consistent (db (fst (deleteUrl w now urlId userId))).
Proof.
  intros Hcons. unfold deleteUrl, deleteUrl_try, Db.delete_owned.
  destruct (negb (Db.up (db w))); [exact Hcons |].
  assert (Hgoal : consistent (Db.with_urls (Db.issued (db w))
            (List.filter (fun r => negb (Db.owned urlId userId r)) (Db.urls (db w))))).
  { destruct Hcons as [Huniq Halias]. split.
    - unfold unique_codes. simpl. apply NoDup_map_filter. exact Huniq.
    - simpl. apply List.Forall_forall. intros r Hr. apply filter_In in Hr as [Hr _].
      rewrite List.Forall_forall in Halias. apply Halias, Hr. }
  destruct (List.filter (Db.owned urlId userId) (Db.urls (db w))); exact Hgoal.
Qed.

(** ** Deleting a link frees its code *)

Lemma NoDup_map_inj {A B : Type} (f : A -> B) (l : list A) (a b : A) :
  List.NoDup (map f l) -> In a l -> In b l -> f a = f b -> a = b.
Proof.
  induction l as [|x l IH]; simpl; [intros _ [] |].
  intros Hnd Ha Hb Hf. inversion Hnd as [|? ? Hnotin Hnd']; subst.
  destruct Ha as [-> | Ha], Hb as [-> | Hb].
  - reflexivity.
  - exfalso. apply Hnotin. rewrite Hf. apply in_map, Hb.
  - exfalso. apply Hnotin. rewrite <- Hf. apply in_map, Ha.
  - apply IH; assumption.
Qed.

Lemma well_formed_alias_nonempty (s : string) : well_formed_alias s = true -> s <> "".
Proof. intros H ->. vm_compute in H. discriminate. Qed.

Lemma deleteUrl_ok_inv (w w' : World) (now : Z) (urlId : Z) (userId : option Z) :
  deleteUrl w now urlId userId = (w', Ok true) ->
  Db.up (db w) = true /\ Db.up (db w') = true /\
  Db.urls (db w') = List.filter (fun r => negb (Db.owned urlId userId r)) (Db.urls (db w)).
Proof.
  unfold deleteUrl, deleteUrl_try, Db.delete_owned, rethrow.
  destruct (Db.up (db w)) eqn:Hup; simpl.
  - destruct (List.filter (Db.owned urlId userId) (Db.urls (db w))); simpl.
    + discriminate.
    + intros [= <-]. simpl. rewrite Hup. auto.
  - discriminate.
Qed.





(** ** Updates and deletions by someone who is not the owner *)

Lemma filter_all {A : Type} (f : A -> bool) (l : list A) :
  (forall x, In x l -> f x = true) -> List.filter f l = l.
Proof.
  induction l as [|a l IH]; simpl; intros H; [reflexivity |].
  rewrite (H a (or_introl eq_refl)). f_equal. apply IH. intros x Hx. apply H. right. exact Hx.
Qed.

Lemma not_owner_no_rows (d : Db.t) (urlId : Z) (userId : option Z) :
  not_owner d urlId userId -> List.filter (Db.owned urlId userId) (Db.urls d) = [].
Proof. intros H. apply filter_nil_iff. exact H. Qed.

Lemma not_owner_keeps_rows (d : Db.t) (urlId : Z) (userId : option Z) :
  not_owner d urlId userId ->
  List.filter (fun r => negb (Db.owned urlId userId r)) (Db.urls d) = Db.urls d.
Proof. intros H. apply filter_all. intros r Hr. rewrite (H r Hr). reflexivity. Qed.

Lemma not_owner_map_id (d : Db.t) (urlId : Z) (userId : option Z)
    (f : Db.UrlRow -> Db.UrlRow) :
  not_owner d urlId userId ->
  map (fun r => if Db.owned urlId userId r then f r else r) (Db.urls d) = Db.urls d.
Proof.
  intros H. rewrite <- (map_id (Db.urls d)) at 2.
  apply map_ext_in. intros r Hr. rewrite (H r Hr). reflexivity.
Qed.

Lemma updateUrl_no_fields (this : UrlService.t) (w : World) (now : Z) (urlId : Z) (userId : option Z)
    (updates : gmap string Db.Val) :
  updateFields updates = [] ->
  updateUrl this w now urlId userId updates = (w, Throw (AppError "No valid fields to update" 400)).
Proof. intros H. unfold updateUrl, updateUrl_try. rewrite H. reflexivity. Qed.

Lemma updateUrl_not_owner (this : UrlService.t) (w : World) (now : Z) (urlId : Z) (userId : option Z)
    (updates : gmap string Db.Val) :
  not_owner (db w) urlId userId ->
  Db.up (db w) = true ->
  updateFields updates <> [] ->
  forallb (Db.fits (Db.input (db w))) (updateFields updates) = true ->
  updateUrl this w now urlId userId updates =
  (with_db w (Db.issued (db w)), Throw (AppError "URL not found or access denied" 404)).
Proof.
  intros Hno Hup Hfields Hfit. unfold updateUrl, updateUrl_try.
  destruct (updateFields updates) as [|f fields] eqn:E; [congruence |].
  unfold Db.update_owned. rewrite Hup, Hfit. simpl.
  rewrite (not_owner_no_rows _ _ _ Hno), (not_owner_map_id _ _ _ _ Hno). simpl.
  destruct w as [[] ? ?]. reflexivity.
Qed.

Lemma cascade_nil (clicks : list Db.ClickRow) : Db.cascade [] clicks = clicks.
Proof. unfold Db.cascade. apply filter_all. reflexivity. Qed.

Lemma deleteUrl_not_owner (w : World) (now : Z) (urlId : Z) (userId : option Z) :
  not_owner (db w) urlId userId ->
  Db.up (db w) = true ->
  deleteUrl w now urlId userId =
  (with_db w (Db.issued (db w)), Throw (AppError "URL not found or access denied" 404)).
Proof.
  intros Hno Hup. unfold deleteUrl, deleteUrl_try, Db.delete_owned. cbv zeta.
  rewrite Hup. cbn [negb].
  rewrite (not_owner_no_rows _ _ _ Hno), (not_owner_keeps_rows _ _ _ Hno), cascade_nil.
  destruct w as [[] ? ?]. reflexivity.
Qed.

(** What [updateUrl] answers to a caller who owns no link with the id:
    it depends on the patch and on the store's answering, not on the
    rows. *)
Lemma updateUrl_not_owner_result (this : UrlService.t) (w : World) (now : Z) (urlId : Z)
    (userId : option Z) (updates : gmap string Db.Val) :
  not_owner (db w) urlId userId ->
  snd (updateUrl this w now urlId userId updates) =
    (match updateFields updates with
     | [] => Throw (AppError "No valid fields to update" 400)
     | fields =>
         if Db.up (db w) && forallb (Db.fits (Db.input (db w))) fields
         then Throw (AppError "URL not found or access denied" 404)
         else Throw (AppError "Failed to update URL" 500)
     end) /\
  Db.urls (db (fst (updateUrl this w now urlId userId updates))) = Db.urls (db w) /\
  redis (fst (updateUrl this w now urlId userId updates)) = redis w.
Proof.
  intros Hno. unfold updateUrl, updateUrl_try.
  destruct (updateFields updates) as [|f fields] eqn:E; [repeat split; reflexivity |].
  unfold Db.update_owned.
  destruct (Db.up (db w)); cbn [negb andb]; [|repeat split; reflexivity].
  destruct (forallb (Db.fits (Db.input (db w))) (f :: fields)); cbn [negb];
    [|repeat split; reflexivity].
  rewrite (not_owner_no_rows _ _ _ Hno), (not_owner_map_id _ _ _ _ Hno).
  repeat split; reflexivity.
Qed.

Lemma deleteUrl_not_owner_result (w : World) (now : Z) (urlId : Z) (userId : option Z) :
  not_owner (db w) urlId userId ->
  snd (deleteUrl w now urlId userId) =
    (if Db.up (db w) then Throw (AppError "URL not found or access denied" 404)
     else Throw (AppError "Failed to delete URL" 500)) /\
  Db.urls (db (fst (deleteUrl w now urlId userId))) = Db.urls (db w) /\
  Db.url_clicks (db (fst (deleteUrl w now urlId userId))) = Db.url_clicks (db w) /\
  redis (fst (deleteUrl w now urlId userId)) = redis w.
Proof.
  intros Hno. unfold deleteUrl, deleteUrl_try, Db.delete_owned. cbv zeta.
  destruct (Db.up (db w)); cbn [negb]; [|repeat split; reflexivity].
  rewrite (not_owner_no_rows _ _ _ Hno), (not_owner_keeps_rows _ _ _ Hno), cascade_nil.
  repeat split; reflexivity.
Qed.

Lemma without_link_not_owner (w : World) (urlId : Z) (userId : option Z) :
  not_owner (db (without_link w urlId)) urlId userId.
Proof.
  intros r Hr. unfold without_link in Hr. simpl in Hr.
  apply filter_In in Hr as [_ Hid]. unfold Db.owned.
  destruct (Db.id r =? urlId); [discriminate | reflexivity].
Qed.

(** C9 (as amended).  For a caller who owns no link with the given id (the
    link belongs to someone else, or no link has that id): [updateUrl] and
    [deleteUrl] fail, never with status 403 and exactly as they fail in the
    store without any link of that id, and leave the rows and the cache as
    they were.  The failure has status 404 whenever the statement runs: for
    [deleteUrl] while the store answers, and for [updateUrl] while the
    store answers, when the patch has at least one field the service takes
    and the store accepts the values.  A patch with no field the service
    takes fails with status 400 before the store is asked; a store that
    does not answer or refuses a value gives status 500. *)
Theorem not_owner_gets_not_found (this : UrlService.t) (w : World) (now : Z) (urlId : Z)
    (userId : option Z) (updates : gmap string Db.Val) :
  not_owner (db w) urlId userId ->
  let updated := updateUrl this w now urlId userId updates in
  let deleted := deleteUrl w now urlId userId in
  (exists message status,
     snd updated = Throw (AppError message status) /\ In status [400; 404; 500]) /\
  (exists message status,
     snd deleted = Throw (AppError message status) /\ In status [404; 500]) /\
  snd updated = snd (updateUrl this (without_link w urlId) now urlId userId updates) /\
  snd deleted = snd (deleteUrl (without_link w urlId) now urlId userId) /\
  Db.urls (db (fst updated)) = Db.urls (db w) /\ redis (fst updated) = redis w /\
  Db.urls (db (fst deleted)) = Db.urls (db w) /\ redis (fst deleted) = redis w /\
  (Db.up (db w) = true ->
   snd deleted = Throw (AppError "URL not found or access denied" 404)) /\
  (Db.up (db w) = true -> updateFields updates <> [] ->
   forallb (Db.fits (Db.input (db w))) (updateFields updates) = true ->
   snd updated = Throw (AppError "URL not found or access denied" 404)) /\
  (updateFields updates = [] ->
   snd updated = Throw (AppError "No valid fields to update" 400)) /\
  (updateFields updates <> [] ->
   Db.up (db w) = false \/
   forallb (Db.fits (Db.input (db w))) (updateFields updates) = false ->
   snd updated = Throw (AppError "Failed to update URL" 500)).
Proof.
  intros Hno updated deleted. subst updated deleted.
  destruct (updateUrl_not_owner_result this w now urlId userId updates Hno)
    as (Hu & Hurows & Hucache).
  destruct (deleteUrl_not_owner_result w now urlId userId Hno)
    as (Hd & Hdrows & _ & Hdcache).
  destruct (updateUrl_not_owner_result this (without_link w urlId) now urlId userId updates
              (without_link_not_owner w urlId userId)) as (Hu' & _).
  destruct (deleteUrl_not_owner_result (without_link w urlId) now urlId userId
              (without_link_not_owner w urlId userId)) as (Hd' & _).
  change (Db.up (db (without_link w urlId))) with (Db.up (db w)) in Hu', Hd'.
  change (Db.input (db (without_link w urlId))) with (Db.input (db w)) in Hu'.
  split; [|split; [|split; [congruence |split; [congruence |]]]].
  - rewrite Hu. destruct (updateFields updates) as [|f fields].
    + eexists _, 400. simpl. auto.
    + destruct (_ && _); [eexists _, 404 | eexists _, 500]; simpl; auto.
  - rewrite Hd. destruct (Db.up (db w)); [eexists _, 404 | eexists _, 500]; simpl; auto.
  - repeat (split; [assumption |]).
    split; [intros Hup; rewrite Hd, Hup; reflexivity |].
    split; [|split].
    + intros Hup Hfields Hfit. rewrite Hu.
      destruct (updateFields updates) as [|f fields]; [congruence |].
      rewrite Hup, Hfit. reflexivity.
    + intros Hnone. rewrite Hu, Hnone. reflexivity.
    + intros Hfields Hfails. rewrite Hu.
      destruct (updateFields updates) as [|f fields]; [congruence |].
      destruct Hfails as [-> | ->]; [reflexivity | rewrite andb_false_r; reflexivity].
Qed.

Lemma not_owner_gets_not_found_witness :
  let w := Fixtures.store [Fixtures.link 1 (Some 7) "promo" true None None] in
  snd (updateUrl urlService w 5000 1 (Some 8) {[ "title" := Db.VStr "Mine now" ]}) =
  Throw (AppError "URL not found or access denied" 404) /\
  snd (updateUrl urlService w 5000 1 (Some 8) {[ "title" := Db.VStr "Mine now" ]}) =
  snd (updateUrl urlService (Fixtures.store []) 5000 1 (Some 8)
         {[ "title" := Db.VStr "Mine now" ]}) /\
  snd (deleteUrl w 5000 1 (Some 8)) = Throw (AppError "URL not found or access denied" 404).
Proof.
  intros w.
  destruct (not_owner_gets_not_found urlService w 5000 1 (Some 8)
              {[ "title" := Db.VStr "Mine now" ]})
    as (_ & _ & Hsame & _ & _ & _ & _ & _ & Hdelete & Hupdate & _).
  - intros r [<- | []]. reflexivity.
  - split; [apply Hupdate | split; [exact Hsame | apply Hdelete]].
    + reflexivity.
    + vm_compute. discriminate.
    + vm_compute. reflexivity.
    + reflexivity.
Defined.

(** C9 (as stated) fails for the empty patch: someone who is not the owner
    gets status 400, not 404. *)
Lemma updateUrl_not_owner_empty_patch_400 :
  ~ update_hides_link (Fixtures.store [Fixtures.link 1 (Some 7) "promo" true None None])
      5000 1 (Some 8) ∅.
Proof.
  intros H. destruct H as [Hstatus _].
  - intros r [<- | []]. reflexivity.
  - vm_compute in Hstatus. discriminate.
Qed.

(** ** What the limiter and the lookup leave untouched *)

Import RedirectController.

Lemma incr_keeps_docs (r : Redis.t Cached) (now : Z) (key : string) (ttl : option Z) :
  Redis.docs (fst (Redis.incr r now key ttl)) = Redis.docs r /\
  Redis.up (fst (Redis.incr r now key ttl)) = Redis.up r.
Proof.
  unfold Redis.incr. destruct (Redis.up r) eqn:Hup; [|auto].
  destruct (match Redis.counters r !! key with Some _ => _ | None => _ end) as [n e].
  simpl. auto.
Qed.

Lemma redirectLimiter_keeps (w : World) (now : Z) (req : Request) :
  db (fst (RateLimiter.redirectLimiter w now req)) = db w /\
  draws (fst (RateLimiter.redirectLimiter w now req)) = draws w /\
  Redis.docs (redis (fst (RateLimiter.redirectLimiter w now req))) = Redis.docs (redis w) /\
  Redis.up (redis (fst (RateLimiter.redirectLimiter w now req))) = Redis.up (redis w).
Proof.
  unfold RateLimiter.redirectLimiter.
  set (k1 := match user req with Some _ => _ | None => _ end).
  set (k2 := "redirect:url:" +:+ _).
  pose proof (incr_keeps_docs (redis w) now k1 (Some 3600)) as [Hd1 Hu1].
  destruct (Redis.incr (redis w) now k1 (Some 3600)) as [r1 c1]. simpl in Hd1, Hu1.
  destruct (RateLimiter.exceeds c1 1000); simpl; [auto |].
  pose proof (incr_keeps_docs r1 now k2 (Some 60)) as [Hd2 Hu2].
  destruct (Redis.incr r1 now k2 (Some 60)) as [r2 c2]. simpl in Hd2, Hu2.
  destruct (RateLimiter.exceeds c2 10); simpl; repeat split; congruence.
Qed.

Lemma redirectLimiter_answers (w : World) (now : Z) (req : Request) (limited : Response) :
  snd (RateLimiter.redirectLimiter w now req) = Some limited ->
  outcome_of limited = RateLimited.
Proof.
  unfold RateLimiter.redirectLimiter.
  destruct (Redis.incr (redis w) now _ (Some 3600)) as [r1 c1].
  destruct (RateLimiter.exceeds c1 1000); simpl; [intros [= <-]; reflexivity |].
  destruct (Redis.incr r1 now _ (Some 60)) as [r2 c2].
  destruct (RateLimiter.exceeds c2 10); simpl; [intros [= <-]; reflexivity | discriminate].
Qed.

Lemma redirectLimiter_fails_open (w : World) (now : Z) (req : Request) :
  Redis.up (redis w) = false ->
  RateLimiter.redirectLimiter w now req = (w, None).
Proof.
  intros Hdown. unfold RateLimiter.redirectLimiter, Redis.incr. rewrite Hdown. simpl.
  rewrite Hdown. simpl. destruct w as [d [] n]. reflexivity.
Qed.

Lemma get_same_docs (r1 r2 : Redis.t Cached) (now : Z) (key : string) :
  Redis.docs r1 = Redis.docs r2 -> Redis.up r1 = Redis.up r2 ->
  Redis.get r1 now key = Redis.get r2 now key.
Proof. intros Hd Hu. unfold Redis.get, Redis.client_get. rewrite Hd, Hu. reflexivity. Qed.

Lemma cache_miss_after_limiter (w : World) (now : Z) (req : Request) (code : string) :
  cache_miss w now code ->
  cache_miss (fst (RateLimiter.redirectLimiter w now req)) now code.
Proof.
  unfold cache_miss. intros H.
  destruct (redirectLimiter_keeps w now req) as (_ & _ & Hd & Hu).
  rewrite (get_same_docs _ (redis w)); assumption.
Qed.

(** On a miss the lookup is decided by the store alone. *)
Lemma getUrlByShortCode_miss (w : World) (now : Z) (code : string) :
  cache_miss w now code ->
  getUrlByShortCode w now code =
  let w1 := with_db w (Db.issued (db w)) in
  if negb (Db.up (db w)) then (w1, Throw (AppError "Failed to retrieve URL" 500))
  else match Db.active_by_code code (db w) with
       | [] => (w1, Ok None)
       | url :: _ =>
           if has_expired now url then (w1, Ok None)
           else (cacheUrl w1 now (CachedData (urlData_of_row (db w) url)) 3600,
                 Ok (Some (CachedData (urlData_of_row (db w) url))))
       end.
Proof.
  unfold cache_miss. intros Hmiss. unfold getUrlByShortCode. rewrite Hmiss.
  unfold Db.query. destruct (Db.up (db w)); reflexivity.
Qed.

Lemma cacheUrl_keeps_db (w : World) (now : Z) (url : Cached) (ttl : Z) :
  db (cacheUrl w now url ttl) = db w.
Proof. reflexivity. Qed.

Lemma getUrlByShortCode_keeps_rows (w : World) (now : Z) (code : string) :
  Db.urls (db (fst (getUrlByShortCode w now code))) = Db.urls (db w) /\
  Db.url_clicks (db (fst (getUrlByShortCode w now code))) = Db.url_clicks (db w).
Proof.
  unfold getUrlByShortCode, Db.query.
  destruct (Redis.get (redis w) now ("url:" +:+ code)); [auto |].
  destruct (Db.up (db w)); [|auto].
  destruct (Db.active_by_code code (db w)) as [|url rest]; [auto |].
  destruct (has_expired now url); auto.
Qed.

(** The handler's two shapes: it answered without looking further, or it
    found an active [urlData] and dispatched the click before answering. *)
Lemma handleRedirect_cases (env : UrlService.Env) (w : World) (now : Z) (req : Request) :
  let h := handleRedirect env w now req in
  (detached h = [] /\
   In (outcome h) [RateLimited; InternalError; NotFound; ExpiredOrInactive]) \/
  (exists urlData,
     detached h = [RecordClick (p_id (props urlData)) req] /\
     response h = respond env (props urlData) req).
Proof.
  unfold handleRedirect, outcome.
  destruct (RateLimiter.redirectLimiter w now req) as [w1 [limited|]] eqn:Hlim.
  - left. simpl. split; [reflexivity |]. left. symmetry.
    apply (redirectLimiter_answers w now req). rewrite Hlim. reflexivity.
  - destruct (getUrlByShortCode w1 now (param_shortCode req)) as [w2 [[urlData|]|e]].
    + destruct (negb (default false (p_isActive (props urlData)))).
      * left. simpl. auto 6.
      * right. exists urlData. auto.
    + left. simpl. auto.
    + left. simpl. auto.
Qed.

Lemma handleRedirect_keeps_rows (env : UrlService.Env) (w : World) (now : Z) (req : Request) :
  Db.urls (db (world (handleRedirect env w now req))) = Db.urls (db w) /\
  Db.url_clicks (db (world (handleRedirect env w now req))) = Db.url_clicks (db w).
Proof.
  unfold handleRedirect.
  destruct (redirectLimiter_keeps w now req) as (Hdb & _).
  destruct (RateLimiter.redirectLimiter w now req) as [w1 [limited|]]; simpl in *.
  - rewrite Hdb. auto.
  - pose proof (getUrlByShortCode_keeps_rows w1 now (param_shortCode req)) as Hk.
    destruct (getUrlByShortCode w1 now (param_shortCode req)) as [w2 [[urlData|]|e]];
      simpl in *; rewrite Hdb in Hk; try exact Hk.
    destruct (negb (default false (p_isActive (props urlData)))); exact Hk.
Qed.

(** No object that reaches the handler has a [passwordHash]. *)
Lemma props_no_passwordHash (urlData : Cached) : p_passwordHash (props urlData) = None.
Proof. destruct urlData; reflexivity. Qed.

Lemma respond_outcomes (env : UrlService.Env) (urlData : Cached) (req : Request) :
  In (outcome_of (respond env (props urlData) req))
     [BotMetadata; Preview; Redirected (p_originalUrl (props urlData))].
Proof.
  unfold respond. rewrite props_no_passwordHash.
  destruct (Analytics.detectBot _); [left; reflexivity |].
  destruct (match query_preview req with Some q => _ | None => _ end).
  - right. left. reflexivity.
  - right. right. left. reflexivity.
Qed.

(** ** Which resolutions record a click *)

Lemma resolve_without_detached (env : UrlService.Env) (recorder : Recorder) (w : World)
    (now later : Z) (req : Request) :
  detached (handleRedirect env w now req) = [] ->
  fst (resolve env recorder w now later req) = world (handleRedirect env w now req).
Proof. unfold resolve. intros ->. reflexivity. Qed.

(** C8 (as amended).  The click is dispatched once the link was found and
    is active, before the bot, preview and password checks.  A resolution
    that ends in NotFound, ExpiredOrInactive or RateLimited (or in an
    internal error) dispatches nothing and persists no click, whatever the
    recorder; a resolution that dispatches nothing has one of these
    outcomes; and a resolution that ends in Preview, in the metadata reply
    to a bot, or in Redirect has dispatched exactly one recording, for the
    link it answers for. *)
Theorem click_dispatched_once_active (env : UrlService.Env) (recorder : Recorder)
    (w : World) (now later : Z) (req : Request) :
  let h := handleRedirect env w now req in
  (In (outcome h) [NotFound; ExpiredOrInactive; RateLimited; InternalError] ->
   detached h = [] /\
   Db.url_clicks (db (fst (resolve env recorder w now later req))) = Db.url_clicks (db w)) /\
  (detached h = [] ->
   In (outcome h) [NotFound; ExpiredOrInactive; RateLimited; InternalError]) /\
  (detached h <> [] ->
   exists urlData,
     detached h = [RecordClick (p_id (props urlData)) req] /\
     In (outcome h) [BotMetadata; Preview; Redirected (p_originalUrl (props urlData))]).
Proof.
  intros h.
  assert (Hquiet : detached h = [] ->
            Db.url_clicks (db (fst (resolve env recorder w now later req))) =
            Db.url_clicks (db w)).
  { intros Hnone. rewrite resolve_without_detached by exact Hnone.
    apply handleRedirect_keeps_rows. }
  destruct (handleRedirect_cases env w now req) as [[Hnone Hout] | (urlData & Hdet & Hresp)];
    fold h in Hnone, Hout || fold h in Hdet, Hresp.
  - split; [|split].
    + intros _. split; [exact Hnone | apply Hquiet, Hnone].
    + intros _. simpl in *. intuition.
    + intros Hsome. congruence.
  - pose proof (respond_outcomes env urlData req) as Hresp'.
    rewrite <- Hresp in Hresp'. fold (outcome h) in Hresp'.
    split; [|split].
    + intros Hout. exfalso. simpl in Hout, Hresp'.
      destruct Hout as [Ho | [Ho | [Ho | [Ho | []]]]];
        destruct Hresp' as [Hr | [Hr | [Hr | []]]]; congruence.
    + intros Hnone. congruence.
    + intros _. exists urlData. auto.
Qed.

(** C8 (as stated) fails for a preview request: the outcome is Preview and a
    click has been persisted. *)
Lemma preview_records_a_click :
  ~ records_only_redirects Fixtures.env Fixtures.recorder
      (Fixtures.store [Fixtures.link 1 (Some 7) "promo" true None None])
      5000 5001 (Fixtures.preview "promo").
Proof.
  intros H.
  assert (Hclicks := H ltac:(vm_compute; auto 8)).
  vm_compute in Hclicks. discriminate.
Qed.

(** ** Unknown codes *)

Lemma active_by_code_unknown (d : Db.t) (code : string) :
  (forall r, In r (Db.urls d) -> Db.short_code r <> code) ->
  Db.active_by_code code d = [].
Proof.
  intros H. apply filter_nil_iff. intros r Hr.
  apply andb_false_iff. left. apply String.eqb_neq. apply H, Hr.
Qed.

Lemma handleRedirect_when_absent (env : UrlService.Env) (w : World) (now : Z) (req : Request) :
  cache_miss w now (param_shortCode req) ->
  Db.up (db w) = true ->
  Db.active_by_code (param_shortCode req) (db w) = [] \/
  (exists url rest, Db.active_by_code (param_shortCode req) (db w) = url :: rest /\
                    has_expired now url = true) ->
  let h := handleRedirect env w now req in
  Redis.docs (redis (world h)) = Redis.docs (redis w) /\
  Redis.up (redis (world h)) = Redis.up (redis w) /\
  Db.up (db (world h)) = true /\
  detached h = [] /\
  (outcome h = RateLimited /\ Db.queries (db (world h)) = Db.queries (db w) \/
   response h = not_found /\ Db.queries (db (world h)) = S (Db.queries (db w))).
Proof.
  intros Hmiss Hup Hrows. unfold handleRedirect, outcome.
  pose proof (redirectLimiter_keeps w now req) as (Hdb & _ & Hdocs & Hrup).
  pose proof (cache_miss_after_limiter w now req _ Hmiss) as Hmiss1.
  pose proof (redirectLimiter_answers w now req) as Hlimited.
  destruct (RateLimiter.redirectLimiter w now req) as [w1 [limited|]]; simpl in *.
  - rewrite Hdb. repeat split; auto.
  - rewrite (getUrlByShortCode_miss w1 now _ Hmiss1). cbv zeta.
    rewrite Hdb, Hup. simpl.
    destruct Hrows as [-> | (url & rest & -> & ->)]; simpl; repeat split; auto.
Qed.

(** C4 (as amended).  For a short code that matches no link, with nothing
    cached under its key and the store answering: each resolution that the
    limiter lets through answers NotFound after one statement to the store,
    the first one and the immediately following one alike; no resolution
    writes a document (or a tombstone) to the cache. *)
Theorem unknown_code_is_looked_up_each_time (env : UrlService.Env) (w : World) (now : Z)
    (req : Request) :
  (forall r, In r (Db.urls (db w)) -> Db.short_code r <> param_shortCode req) ->
  cache_miss w now (param_shortCode req) ->
  Db.up (db w) = true ->
  let h1 := handleRedirect env w now req in
  let h2 := handleRedirect env (world h1) now req in
  (outcome h1 = NotFound \/ outcome h1 = RateLimited) /\
  (outcome h2 = NotFound \/ outcome h2 = RateLimited) /\
  Redis.docs (redis (world h1)) = Redis.docs (redis w) /\
  Redis.docs (redis (world h2)) = Redis.docs (redis w) /\
  cache_miss (world h1) now (param_shortCode req) /\
  (outcome h1 = NotFound -> Db.queries (db (world h1)) = S (Db.queries (db w))) /\
  (outcome h2 = NotFound ->
   Db.queries (db (world h2)) = S (Db.queries (db (world h1)))).
Proof.
  intros Hnone Hmiss Hup h1 h2.
  pose proof (active_by_code_unknown (db w) _ Hnone) as Hrows.
  destruct (handleRedirect_when_absent env w now req Hmiss Hup (or_introl Hrows))
    as (Hdocs1 & Hrup1 & Hup1 & _ & Hcase1). fold h1 in Hdocs1, Hrup1, Hup1, Hcase1.
  assert (Hmiss1 : cache_miss (world h1) now (param_shortCode req)).
  { unfold cache_miss in *. rewrite (get_same_docs _ (redis w)); assumption. }
  assert (Hrows1 : Db.active_by_code (param_shortCode req) (db (world h1)) = []).
  { apply active_by_code_unknown. intros r Hr.
    apply Hnone. destruct (handleRedirect_keeps_rows env w now req) as [Hsame _].
    fold h1 in Hsame. rewrite <- Hsame. exact Hr. }
  destruct (handleRedirect_when_absent env (world h1) now req Hmiss1 Hup1 (or_introl Hrows1))
    as (Hdocs2 & _ & _ & _ & Hcase2). fold h2 in Hdocs2, Hcase2.
  assert (Hq : forall h (d : Db.t),
            outcome h = RateLimited /\ Db.queries (db (world h)) = Db.queries d \/
            response h = not_found /\ Db.queries (db (world h)) = S (Db.queries d) ->
            (outcome h = NotFound \/ outcome h = RateLimited) /\
            (outcome h = NotFound -> Db.queries (db (world h)) = S (Db.queries d))).
  { intros h d [[Ho Hn] | [Hr Hn]].
    - split; [right; exact Ho | intros Hnf; congruence].
    - split; [left; unfold outcome; rewrite Hr; reflexivity | intros _; exact Hn]. }
  destruct (Hq h1 (db w) Hcase1) as [Ho1 Hn1].
  destruct (Hq h2 (db (world h1)) Hcase2) as [Ho2 Hn2].
  repeat split; try assumption. congruence.
Qed.

Lemma unknown_code_is_looked_up_each_time_witness :
  let h1 := handleRedirect Fixtures.env (Fixtures.store []) 5000 (Fixtures.visit "nope") in
  let h2 := handleRedirect Fixtures.env (world h1) 5000 (Fixtures.visit "nope") in
  cache_miss (world h1) 5000 "nope" /\
  Db.queries (db (world h1)) = 1%nat /\ Db.queries (db (world h2)) = 2%nat.
Proof.
  intros h1 h2.
  destruct (unknown_code_is_looked_up_each_time Fixtures.env (Fixtures.store []) 5000
              (Fixtures.visit "nope")) as (_ & _ & _ & _ & Hmiss & Hq1 & Hq2).
  - intros r [].
  - reflexivity.
  - reflexivity.
  - split; [exact Hmiss | split].
    + apply Hq1. reflexivity.
    + apply Hq2. reflexivity.
Defined.

(** C4 (as stated) fails: after the first NotFound the cache still holds
    nothing under the key of the code, and the second resolution reaches
    the store again. *)
Lemma unknown_code_leaves_no_tombstone :
  ~ tombstones_unknown_code Fixtures.env (Fixtures.store []) 5000 (Fixtures.visit "nope").
Proof.
  intros (_ & Htomb & _). apply Htomb. reflexivity.
Qed.

(** ** Links that are not resolvable *)

Lemma active_by_code_dead (d : Db.t) (now : Z) (r : Db.UrlRow) :
  unique_codes d -> In r (Db.urls d) -> resolvable now r = false ->
  Db.active_by_code (Db.short_code r) d = [] \/
  (exists rest, Db.active_by_code (Db.short_code r) d = r :: rest /\
                has_expired now r = true).
Proof.
  intros Huniq Hin Hdead.
  destruct (Db.active_by_code (Db.short_code r) d) as [|url rest] eqn:E; [left; reflexivity |].
  right. unfold Db.active_by_code in E.
  apply filter_cons_inv in E as E'. destruct E' as [Hurl Hmatch].
  apply andb_true_iff in Hmatch as [Hcode Hactive]. apply String.eqb_eq in Hcode.
  assert (url = r) as -> by (apply (NoDup_map_inj Db.short_code (Db.urls d)); assumption).
  exists rest. split; [reflexivity |].
  unfold resolvable in Hdead. rewrite Hactive in Hdead. simpl in Hdead.
  apply negb_false_iff in Hdead. exact Hdead.
Qed.

(** C2 (as amended).  For every existing link that is not resolvable
    (inactive, or past its expiry), under the uniqueness of short codes, a
    resolution that finds nothing cached under the code never redirects and
    dispatches no click; while the store answers, a link past its expiry is
    answered with NotFound (status 404, the answer given for an unknown
    code) unless the limiter answers first. *)
Theorem dead_link_never_redirects (env : UrlService.Env) (w : World) (now : Z)
    (req : Request) (r : Db.UrlRow) :
  unique_codes (db w) ->
  In r (Db.urls (db w)) -> Db.short_code r = param_shortCode req ->
  resolvable now r = false ->
  cache_miss w now (param_shortCode req) ->
  let h := handleRedirect env w now req in
  is_redirect (response h) = false /\
  detached h = [] /\
  (Db.up (db w) = true -> has_expired now r = true ->
   response h = not_found \/ outcome h = RateLimited).
Proof.
  intros Huniq Hin Hcode Hdead Hmiss h.
  destruct (Db.up (db w)) eqn:Hup.
  - pose proof (active_by_code_dead (db w) now r Huniq Hin Hdead) as Hrows.
    rewrite Hcode in Hrows.
    assert (Hrows' :
      Db.active_by_code (param_shortCode req) (db w) = [] \/
      (exists url rest, Db.active_by_code (param_shortCode req) (db w) = url :: rest /\
                        has_expired now url = true)).
    { destruct Hrows as [Hnil | (rest & Hcons & Hexp)]; [left; exact Hnil |].
      right. exists r, rest. auto. }
    destruct (handleRedirect_when_absent env w now req Hmiss Hup Hrows')
      as (_ & _ & _ & Hnone & Hcase). fold h in Hnone, Hcase.
    split; [|split; [exact Hnone |]].
    + destruct Hcase as [[Ho _] | [Hr _]].
      * unfold outcome in Ho. destruct (response h); [reflexivity | discriminate].
      * rewrite Hr. reflexivity.
    + intros _ _. destruct Hcase as [[Ho _] | [Hr _]]; auto.
  - assert (Hshape : response h = generic_error /\ detached h = [] \/
                     outcome h = RateLimited /\ detached h = []).
    { subst h. unfold handleRedirect, outcome.
      pose proof (redirectLimiter_keeps w now req) as (Hdb & _).
      pose proof (cache_miss_after_limiter w now req _ Hmiss) as Hmiss1.
      pose proof (redirectLimiter_answers w now req) as Hlimited.
      destruct (RateLimiter.redirectLimiter w now req) as [w1 [limited|]]; simpl in *.
      - right. auto.
      - rewrite (getUrlByShortCode_miss w1 now _ Hmiss1). cbv zeta.
        rewrite Hdb, Hup. simpl. left. auto. }
    destruct Hshape as [[Hr Hnone] | [Ho Hnone]].
    + rewrite Hr. repeat split; [exact Hnone | discriminate].
    + split; [|split; [exact Hnone | discriminate]].
      unfold outcome in Ho. destruct (response h); [reflexivity | discriminate].
Qed.

Lemma dead_link_never_redirects_witness :
  let expired := Fixtures.link 1 (Some 7) "promo" true None (Some 4000) in
  let h := handleRedirect Fixtures.env (Fixtures.store [expired]) 5000
             (Fixtures.visit "promo") in
  is_redirect (response h) = false /\ detached h = [].
Proof.
  intros expired h.
  destruct (dead_link_never_redirects Fixtures.env (Fixtures.store [expired]) 5000
              (Fixtures.visit "promo") expired) as (Hno & Hnone & _).
  - constructor; [intros [] | constructor].
  - left. reflexivity.
  - reflexivity.
  - reflexivity.
  - reflexivity.
  - split; assumption.
Defined.

(** C2 (as stated) fails for a link past its expiry: the resolution answers
    NotFound, the outcome of an unknown code, not ExpiredOrInactive. *)
Lemma expired_link_answers_not_found :
  ~ dead_link_has_own_outcome Fixtures.env
      (Fixtures.store [Fixtures.link 1 (Some 7) "promo" true None (Some 4000)])
      5000 (Fixtures.visit "promo") (Fixtures.link 1 (Some 7) "promo" true None (Some 4000)).
Proof.
  intros H.
  assert (Hout := H (or_introl eq_refl) eq_refl eq_refl).
  vm_compute in Hout. discriminate.
Qed.

(** ** A failing cache *)

Lemma get_when_down (r : Redis.t Cached) (now : Z) (key : string) :
  Redis.up r = false -> Redis.get r now key = None.
Proof. intros H. unfold Redis.get, Redis.client_get. rewrite H. reflexivity. Qed.

Lemma incr_cold (r : Redis.t Cached) (now : Z) (key : string) (ttl : option Z) :
  Redis.up r = true ->
  (forall k n e, Redis.counters r !! k = Some (n, e) -> 0 <= n <= 1) ->
  exists n, snd (Redis.incr r now key ttl) = Some n /\ n <= 2.
Proof.
  intros Hup Hsmall. unfold Redis.incr. rewrite Hup.
  destruct (Redis.counters r !! key) as [[n e]|] eqn:Hk.
  - pose proof (Hsmall key n e Hk) as Hn.
    destruct (Redis.live now e); simpl; eexists; (split; [reflexivity | lia]).
  - simpl. eexists. split; [reflexivity | lia].
Qed.

Lemma incr_first (r : Redis.t Cached) (now : Z) (key : string) (ttl : option Z) :
  Redis.up r = true -> Redis.counters r = ∅ ->
  snd (Redis.incr r now key ttl) = Some 1 /\
  forall k n e, Redis.counters (fst (Redis.incr r now key ttl)) !! k = Some (n, e) ->
                0 <= n <= 1.
Proof.
  intros Hup Hempty. unfold Redis.incr. rewrite Hup, Hempty, lookup_empty. simpl.
  split; [reflexivity |].
  intros k n e Hl. rewrite lookup_insert in Hl. case_decide.
  - injection Hl as <- _. lia.
  - rewrite lookup_empty in Hl. discriminate.
Qed.

Lemma redirectLimiter_cold (w : World) (now : Z) (req : Request) :
  Redis.counters (redis w) = ∅ -> Redis.up (redis w) = true ->
  snd (RateLimiter.redirectLimiter w now req) = None.
Proof.
  intros Hempty Hup. unfold RateLimiter.redirectLimiter.
  set (k1 := match user req with Some _ => _ | None => _ end).
  set (k2 := "redirect:url:" +:+ _).
  destruct (incr_first (redis w) now k1 (Some 3600) Hup Hempty) as [Hc1 Hsmall].
  pose proof (incr_keeps_docs (redis w) now k1 (Some 3600)) as [_ Hup1].
  destruct (Redis.incr (redis w) now k1 (Some 3600)) as [r1 c1]. simpl in *. subst c1.
  simpl. rewrite Hup in Hup1.
  destruct (incr_cold r1 now k2 (Some 60) Hup1 Hsmall) as (n & Hc2 & Hn).
  destruct (Redis.incr r1 now k2 (Some 60)) as [r2 c2]. simpl in *. subst c2.
  unfold RateLimiter.exceeds.
  replace (10 <? n) with false by (symmetry; apply Z.ltb_ge; lia).
  reflexivity.
Qed.

(** What the handler answers once the limiter let the request through,
    given what the lookup returned. *)
Lemma handleRedirect_passed (env : UrlService.Env) (w w1 : World) (now : Z) (req : Request) :
  RateLimiter.redirectLimiter w now req = (w1, None) ->
  response (handleRedirect env w now req) =
  match snd (getUrlByShortCode w1 now (param_shortCode req)) with
  | Throw e => on_error e
  | Ok None => not_found
  | Ok (Some urlData) =>
      if negb (default false (p_isActive (props urlData))) then deactivated
      else respond env (props urlData) req
  end.
Proof.
  intros Hlim. unfold handleRedirect. rewrite Hlim.
  destruct (getUrlByShortCode w1 now (param_shortCode req)) as [w2 [[urlData|]|e]]; simpl;
    try reflexivity.
  destruct (negb (default false (p_isActive (props urlData)))); reflexivity.
Qed.

Lemma getUrlByShortCode_same_store (w w' : World) (now : Z) (code : string) :
  db w' = db w -> cache_miss w now code -> cache_miss w' now code ->
  snd (getUrlByShortCode w now code) = snd (getUrlByShortCode w' now code).
Proof.
  intros Hdb Hmiss Hmiss'.
  rewrite (getUrlByShortCode_miss w now code Hmiss),
          (getUrlByShortCode_miss w' now code Hmiss'). cbv zeta. rewrite Hdb.
  destruct (Db.up (db w)); simpl; [|reflexivity].
  destruct (Db.active_by_code code (db w)) as [|url rest]; [reflexivity |].
  destruct (has_expired now url); reflexivity.
Qed.

(** C7.  When the cache client fails, [get] answers [null]: the lookup goes
    on to the store and returns what it returns on any miss over the same
    store, the handler answers as it does with a cold cache, and while the
    store answers the lookup returns a value and the resolution does not end
    in an internal error. *)
Theorem cache_failure_is_a_miss (env : UrlService.Env) (w : World) (now : Z) (req : Request) :
  Redis.up (redis w) = false ->
  let code := param_shortCode req in
  let cold := with_redis w (Redis.mk ∅ ∅ true) in
  cache_miss w now code /\
  (forall w', db w' = db w -> cache_miss w' now code ->
     snd (getUrlByShortCode w now code) = snd (getUrlByShortCode w' now code)) /\
  response (handleRedirect env w now req) = response (handleRedirect env cold now req) /\
  (Db.up (db w) = true ->
     (exists found, snd (getUrlByShortCode w now code) = Ok found) /\
     Db.queries (db (fst (getUrlByShortCode w now code))) = S (Db.queries (db w)) /\
     outcome (handleRedirect env w now req) <> InternalError).
Proof.
  intros Hdown code cold. subst code. set (code := param_shortCode req) in *.
  assert (Hmiss : cache_miss w now code) by (apply get_when_down, Hdown).
  assert (Hsame : forall w', db w' = db w -> cache_miss w' now code ->
            snd (getUrlByShortCode w now code) = snd (getUrlByShortCode w' now code)).
  { intros w' Hdb Hmiss'. apply getUrlByShortCode_same_store; assumption. }
  pose proof (redirectLimiter_fails_open w now req Hdown) as Hopen.
  split; [exact Hmiss | split; [exact Hsame | split]].
  - destruct (RateLimiter.redirectLimiter cold now req) as [c1 limited] eqn:Hcold.
    pose proof (redirectLimiter_cold cold now req eq_refl eq_refl) as Hpass.
    pose proof (redirectLimiter_keeps cold now req) as (Hdb & _ & Hdocs & Hup).
    rewrite Hcold in Hpass, Hdb, Hdocs, Hup. simpl in Hpass, Hdb, Hdocs, Hup. subst limited.
    rewrite (handleRedirect_passed env w w now req Hopen),
            (handleRedirect_passed env cold c1 now req Hcold).
    fold code. rewrite (Hsame c1); [reflexivity | exact Hdb |].
    unfold cache_miss, Redis.get, Redis.client_get. rewrite Hup, Hdocs, lookup_empty.
    reflexivity.
  - intros Hup.
    rewrite (getUrlByShortCode_miss w now code Hmiss). cbv zeta. rewrite Hup. simpl.
    split; [|split].
    + destruct (Db.active_by_code code (db w)) as [|url rest]; [eauto |].
      destruct (has_expired now url); eauto.
    + destruct (Db.active_by_code code (db w)) as [|url rest]; [reflexivity |].
      destruct (has_expired now url); reflexivity.
    + unfold outcome. rewrite (handleRedirect_passed env w w now req Hopen).
      fold code. rewrite (getUrlByShortCode_miss w now code Hmiss). cbv zeta.
      rewrite Hup. simpl.
      destruct (Db.active_by_code code (db w)) as [|url rest]; [discriminate |].
      destruct (has_expired now url); [discriminate |]. simpl.
      destruct (negb (default false (Db.is_active url))); [discriminate |].
      pose proof (respond_outcomes env (CachedData (urlData_of_row (db w) url)) req) as Hr.
      intros Hbad. simpl in Hr, Hbad. rewrite Hbad in Hr.
      destruct Hr as [Hr | [Hr | [Hr | []]]]; discriminate.
Qed.

Lemma cache_failure_is_a_miss_witness :
  let w := with_redis (Fixtures.store [Fixtures.link 1 (Some 7) "promo" true None None])
                      (Redis.mk ∅ ∅ false) in
  cache_miss w 5000 "promo" /\
  response (handleRedirect Fixtures.env w 5000 (Fixtures.visit "promo")) =
  Redirect 301 (Some "https://example.com/page").
Proof.
  intros w.
  destruct (cache_failure_is_a_miss Fixtures.env w 5000 (Fixtures.visit "promo"))
    as (Hmiss & _ & Hresp & _).
  - reflexivity.
  - split; [exact Hmiss |]. rewrite Hresp. reflexivity.
Defined.

(** ** Click recording and the redirect *)

Lemma insert_click_throws (d d1 : Db.t) (now urlId : Z) (ip : option string)
    (userAgent ref : string) (ctry rgn cty : option string)
    (deviceType brw opsys : string) (isBot : bool) (e : Thrown) :
  Db.insert_click d now urlId ip userAgent ref ctry rgn cty deviceType brw opsys isBot
    = (d1, Throw e) ->
  Db.url_clicks d1 = Db.url_clicks d.
Proof.
  unfold Db.insert_click.
  destruct (negb (Db.up d)); [intros [= <- _]; reflexivity |].
  destruct (negb match ip with Some _ => _ | None => _ end);
    [intros [= <- _]; reflexivity |].
  destruct (negb (Db.url_exists d urlId)); [intros [= <- _]; reflexivity | discriminate].
Qed.

Lemma recordClick_settles (this : Analytics.t) (aenv : Analytics.Env) (w : World) (now : Z)
    (urlId : Z) (req : Request) :
  match Analytics.recordClick_try this aenv w now urlId req with
  | (w1, Ok clickId) => Analytics.recordClick this aenv w now urlId req = (w1, Ok (Some clickId))
  | (w1, Throw _) =>
      Analytics.recordClick this aenv w now urlId req = (w1, Ok None) /\
      Db.url_clicks (db w1) = Db.url_clicks (db w)
  end.
Proof.
  unfold Analytics.recordClick.
  destruct (Analytics.recordClick_try this aenv w now urlId req) as [w1 [clickId | e]] eqn:E;
    [reflexivity |].
  split; [reflexivity |].
  unfold Analytics.recordClick_try in E.
  destruct (if _ && _ && _ && _ then _ else _) as [geoData|e0] in E;
    [|injection E as <- _; reflexivity].
  destruct (if _ && _ then _ else _) as [[[[deviceType brw] opsys] isBot]|e1] in E;
    [|injection E as <- _; reflexivity].
  destruct (Db.insert_click _ _ _ _ _ _ _ _ _ _ _ _ _) as [d [row|e2]] eqn:Hins in E;
    [discriminate E |].
  injection E as <- _. simpl. apply (insert_click_throws _ _ _ _ _ _ _ _ _ _ _ _ _ _ _ Hins).
Qed.

Lemma resolve_eager_same (env : UrlService.Env) (recorder : Recorder) (w : World) (now : Z)
    (req : Request) :
  resolve_eager env recorder w now req = resolve env recorder w now now req.
Proof.
  unfold resolve_eager, resolve, handleRedirect.
  destruct (RateLimiter.redirectLimiter w now req) as [w1 [limited|]]; [reflexivity |].
  destruct (getUrlByShortCode w1 now (param_shortCode req)) as [w2 [[urlData|]|e]];
    try reflexivity.
  destruct (negb (default false (p_isActive (props urlData)))); reflexivity.
Qed.

(** [recordClick] is its call up to the first [await], followed by the rest
    once the statement has settled. *)
Lemma recordClick_in_two_steps (this : Analytics.t) (aenv : Analytics.Env)
    (lat : Timeline.Latency) (w : World) (now : Z) (urlId : Z) (req : Request) :
  Analytics.recordClick_try this aenv w now urlId req =
  match snd (Timeline.recordClick_called this aenv lat req) with
  | Throw e => (w, Throw e)
  | Ok statement => Timeline.recordClick_resumed w now urlId statement
  end.
Proof.
  unfold Analytics.recordClick_try, Timeline.recordClick_called, Timeline.recordClick_resumed.
  destruct (_ && _ && _ && _).
  - destruct (Analytics.geoip_lookup aenv _) as [[g|]|e]; [| |reflexivity].
    all: destruct (_ && _); [|reflexivity].
    all: destruct (Analytics.useragent_parse aenv _) as [[family osFamily]|e];
      reflexivity.
  - destruct (_ && _); [|reflexivity].
    destruct (Analytics.useragent_parse aenv _) as [[family osFamily]|e]; reflexivity.
Qed.

(** The time that passes in a call of [recordClick] is that of the
    geolocation lookup and of the user-agent parsing, and of nothing else;
    what the call hands back does not depend on any duration. *)
Lemma recordClick_called_time (this : Analytics.t) (aenv : Analytics.Env)
    (lat lat' : Timeline.Latency) (req : Request) :
  snd (Timeline.recordClick_called this aenv lat' req) =
    snd (Timeline.recordClick_called this aenv lat req) /\
  (Timeline.of_geoip lat' = Timeline.of_geoip lat ->
   Timeline.of_useragent lat' = Timeline.of_useragent lat ->
   fst (Timeline.recordClick_called this aenv lat' req) =
     fst (Timeline.recordClick_called this aenv lat req)) /\
  (0 <= Timeline.of_geoip lat -> 0 <= Timeline.of_useragent lat ->
   0 <= fst (Timeline.recordClick_called this aenv lat req) <=
     Timeline.of_geoip lat + Timeline.of_useragent lat).
Proof.
  unfold Timeline.recordClick_called.
  destruct (_ && _ && _ && _).
  - destruct (Analytics.geoip_lookup aenv _) as [[g|]|e].
    3:{ split; [reflexivity |]. split; [intros -> _; reflexivity | simpl; lia]. }
    all: destruct (_ && _).
    all: try destruct (Analytics.useragent_parse aenv _) as [[family osFamily]|e].
    all: split; [reflexivity |];
      split; [intros Hg Hu; simpl; rewrite ?Hg, ?Hu; reflexivity | simpl; lia].
  - destruct (_ && _).
    all: try destruct (Analytics.useragent_parse aenv _) as [[family osFamily]|e].
    all: split; [reflexivity |];
      split; [intros Hg Hu; simpl; rewrite ?Hg, ?Hu; reflexivity | simpl; lia].
Qed.

(** C6 (as amended).  [handleRedirect] calls [recordClick] without awaiting
    it.  The response is the one the handler computes from the link and the
    request, whatever the geolocation lookup, the user-agent parser and the
    insertion return or throw.  The time the insertion takes is not on the
    response's path: the statement settles that long after the response was
    sent, and no click row exists when it is sent.  The time of the
    geolocation lookup and of the user-agent parsing is: they run inside the
    call, and the response is sent at most that much later than without
    them.  [recordClick] itself never rejects: a failure of the lookup, of
    the parser or of the insertion makes it return [null], with no click row
    written. *)
Theorem recording_is_decoupled (env : UrlService.Env) (this : Analytics.t)
    (aenv : Analytics.Env) (lat : Timeline.Latency) (w : World) (now : Z)
    (req : Request) :
  let h := handleRedirect env w now req in
  let timed := Timeline.handleRedirect_timed env in
  let s := timed this aenv lat w now req in
  let unrecorded :=
    timed this aenv (Timeline.mkLatency (Timeline.of_limiter lat) (Timeline.of_lookup lat)
                                        0 0 0) w now req in
  Timeline.sent s = response h /\
  (forall this' aenv' lat', Timeline.sent (timed this' aenv' lat' w now req) = Timeline.sent s) /\
  (forall lat',
     Timeline.of_limiter lat' = Timeline.of_limiter lat ->
     Timeline.of_lookup lat' = Timeline.of_lookup lat ->
     Timeline.of_geoip lat' = Timeline.of_geoip lat ->
     Timeline.of_useragent lat' = Timeline.of_useragent lat ->
     Timeline.sent_at (timed this aenv lat' w now req) = Timeline.sent_at s) /\
  (0 <= Timeline.of_geoip lat -> 0 <= Timeline.of_useragent lat ->
   Timeline.sent_at unrecorded <= Timeline.sent_at s <=
     Timeline.sent_at unrecorded + Timeline.of_geoip lat + Timeline.of_useragent lat) /\
  Forall (fun p => fst p = Timeline.sent_at s + Timeline.of_insert lat) (Timeline.pending s) /\
  (length (Timeline.pending s) <= length (detached h))%nat /\
  Db.url_clicks (db (world h)) = Db.url_clicks (db w) /\
  (forall w1 later urlId,
     Analytics.recordClick_try this aenv w1 later urlId req =
     match snd (Timeline.recordClick_called this aenv lat req) with
     | Throw e => (w1, Throw e)
     | Ok statement => Timeline.recordClick_resumed w1 later urlId statement
     end) /\
  (forall w1 later urlId, exists clickId,
     snd (Analytics.recordClick this aenv w1 later urlId req) = Ok clickId) /\
  (forall w1 later urlId e,
     snd (Analytics.recordClick_try this aenv w1 later urlId req) = Throw e ->
     snd (Analytics.recordClick this aenv w1 later urlId req) = Ok None /\
     Db.url_clicks (db (fst (Analytics.recordClick this aenv w1 later urlId req))) =
     Db.url_clicks (db w1)).
Proof.
  intros h timed s unrecorded.
  assert (Hshape : forall this' aenv' lat',
            let s' := timed this' aenv' lat' w now req in
            Timeline.sent s' = response h /\
            (length (Timeline.pending s') <= length (detached h))%nat /\
            Forall (fun p => fst p = Timeline.sent_at s' + Timeline.of_insert lat')
                   (Timeline.pending s') /\
            Timeline.sent_at s' =
              now + Timeline.of_limiter lat' +
              (match snd (RateLimiter.redirectLimiter w now req) with
               | Some _ => 0
               | None => Timeline.of_lookup lat'
               end) +
              (match detached h with
               | [] => 0
               | _ :: _ => fst (Timeline.recordClick_called this' aenv' lat' req)
               end)).
  { intros this' aenv' lat'. subst h timed. unfold Timeline.handleRedirect_timed, handleRedirect.
    destruct (RateLimiter.redirectLimiter w now req) as [w1 [limited|]]; cbn [snd].
    { simpl. split; [reflexivity | split; [lia | split; [constructor | lia]]]. }
    destruct (getUrlByShortCode w1 now (param_shortCode req)) as [w2 [[urlData|]|e]].
    2,3: simpl; split; [reflexivity | split; [lia | split; [constructor | lia]]].
    destruct (negb (default false (p_isActive (props urlData)))).
    { simpl. split; [reflexivity | split; [lia | split; [constructor | lia]]]. }
    destruct (Timeline.recordClick_called this' aenv' lat' req) as [spent [statement|e]];
      cbn [Timeline.sent Timeline.pending Timeline.sent_at response detached length fst].
    - split; [reflexivity | split; [lia | split; [repeat constructor | lia]]].
    - split; [reflexivity | split; [lia | split; [constructor | lia]]]. }
  destruct (Hshape this aenv lat) as (Hsent & Hlen & Hsettle & Hat).
  fold s in Hsent, Hlen, Hsettle, Hat.
  split; [exact Hsent |].
  split; [intros this' aenv' lat'; destruct (Hshape this' aenv' lat') as [-> _];
          symmetry; exact Hsent |].
  split.
  { intros lat' Hl Hk Hg Hu. destruct (Hshape this aenv lat') as (_ & _ & _ & ->).
    rewrite Hat, Hl, Hk.
    destruct (recordClick_called_time this aenv lat lat' req) as (_ & -> & _); auto. }
  split.
  { intros Hg Hu.
    destruct (Hshape this aenv (Timeline.mkLatency (Timeline.of_limiter lat)
                                                   (Timeline.of_lookup lat) 0 0 0))
      as (_ & _ & _ & Hbase).
    fold unrecorded in Hbase. rewrite Hbase, Hat. cbn [Timeline.of_limiter Timeline.of_lookup].
    destruct (recordClick_called_time this aenv lat lat req) as (_ & _ & Hbound).
    destruct (recordClick_called_time this aenv
                (Timeline.mkLatency (Timeline.of_limiter lat) (Timeline.of_lookup lat) 0 0 0)
                lat req) as (_ & _ & Hzero).
    specialize (Hbound Hg Hu). specialize (Hzero ltac:(simpl; lia) ltac:(simpl; lia)).
    cbn [Timeline.of_geoip Timeline.of_useragent] in Hzero.
    destruct (detached h); lia. }
  split; [exact Hsettle |]. split; [exact Hlen |].
  split; [apply handleRedirect_keeps_rows |].
  split; [intros w1 later urlId; apply recordClick_in_two_steps |].
  split.
  - intros w1 later urlId.
    pose proof (recordClick_settles this aenv w1 later urlId req) as H.
    destruct (Analytics.recordClick_try this aenv w1 later urlId req) as [w2 [clickId | e]].
    + rewrite H. eauto.
    + destruct H as [-> _]. eauto.
  - intros w1 later urlId e Hthrown.
    pose proof (recordClick_settles this aenv w1 later urlId req) as H.
    destruct (Analytics.recordClick_try this aenv w1 later urlId req) as [w2 [clickId | e']].
    + discriminate Hthrown.
    + destruct H as [-> Hclicks]. auto.
Qed.

(** C6 (as stated) fails: the geolocation lookup runs inside the call of
    [recordClick], before the response is sent, so a lookup that takes 25 ms
    longer sends the redirect 25 ms later. *)
Lemma geolocation_lookup_delays_the_redirect :
  ~ recording_never_delays Fixtures.env Fixtures.analytics Fixtures.analyticsEnv
      (Fixtures.store [Fixtures.link 1 (Some 7) "promo" true None None])
      5000 (Fixtures.visit "promo").
Proof.
  intros H.
  specialize (H (Timeline.mkLatency 1 2 0 0 0) (Timeline.mkLatency 1 2 25 0 0)
                eq_refl eq_refl).
  vm_compute in H. discriminate.
Qed.

(** A recorder whose promise is always rejected. *)
Example rejecting_recorder_still_redirects :
  resolve Fixtures.env (fun w _ _ _ => (w, Throw (OtherError "recorder down")))
          (Fixtures.store [Fixtures.link 1 (Some 7) "promo" true None None])
          5000 5001 (Fixtures.visit "promo")
  = (world (handleRedirect Fixtures.env
              (Fixtures.store [Fixtures.link 1 (Some 7) "promo" true None None])
              5000 (Fixtures.visit "promo")),
     Redirect 301 (Some "https://example.com/page")).
Proof. reflexivity. Qed.

(** ** The password gate *)

(** Given an object that has a [passwordHash], the handler's gate asks for
    the password and checks it; the defect is upstream, in what
    [getUrlByShortCode] hands over. *)
Lemma respond_password_gate (env : UrlService.Env) (p : Props) (req : Request) (hash : string) :
  p_passwordHash p = Some hash -> hash <> "" ->
  Analytics.detectBot (default "" (or_else (header_userAgent req) (Some ""))) = false ->
  query_preview req <> Some "true" ->
  respond env p req =
  match or_else (query_password req) (header_urlPassword req) with
  | Some (String c s) =>
      if bcrypt_compare env (String c s) hash then Redirect 301 (p_originalUrl p)
      else invalid_password
  | _ => password_required
  end.
Proof.
  intros Hhash Hne Hbot Hprev. unfold respond. rewrite Hbot, Hhash.
  rewrite (truthy_nonempty hash Hne).
  assert (Hp : match query_preview req with
               | Some q => String.eqb q "true" | None => false end = false).
  { destruct (query_preview req) as [q|]; [|reflexivity].
    apply String.eqb_neq. congruence. }
  rewrite Hp.
  destruct (or_else (query_password req) (header_urlPassword req)) as [[|c s]|];
    simpl; try reflexivity.
  destruct (bcrypt_compare env (String c s) hash); reflexivity.
Qed.

Lemma handleRedirect_never_asks_password (env : UrlService.Env) (w : World) (now : Z)
    (req : Request) :
  outcome (handleRedirect env w now req) <> PasswordRequired.
Proof.
  destruct (handleRedirect_cases env w now req) as [[_ Hout] | (urlData & _ & Hresp)].
  - simpl in Hout. intros Hbad. rewrite Hbad in Hout.
    destruct Hout as [H | [H | [H | [H | []]]]]; discriminate.
  - pose proof (respond_outcomes env urlData req) as Hr. rewrite <- Hresp in Hr.
    fold (outcome (handleRedirect env w now req)) in Hr.
    intros Hbad. rewrite Hbad in Hr. simpl in Hr.
    destruct Hr as [H | [H | [H | []]]]; discriminate.
Qed.

(** C1 (the code at the failing input).  A link whose row has a password
    hash is resolved for a visitor who supplies no password: the handler
    redirects to the original URL and dispatches the click, where the claim
    asks for PasswordRequired. *)
Theorem protected_link_redirects_without_password :
  let protected := Fixtures.link 1 (Some 7) "secret" true (Some "bcrypt:pw") None in
  let h := handleRedirect Fixtures.env (Fixtures.store [protected]) 5000
             (Fixtures.visit "secret") in
  Db.password_hash protected = Some "bcrypt:pw" /\
  query_password (Fixtures.visit "secret") = None /\
  header_urlPassword (Fixtures.visit "secret") = None /\
  response h = Redirect 301 (Some "https://example.com/page") /\
  detached h = [RecordClick 1 (Fixtures.visit "secret")].
Proof. repeat split; reflexivity. Qed.

(** ** Deactivating a link through an update *)

Lemma assign_keeps_is_active (i : Db.Input) (r : Db.UrlRow) (column : string) (v : Db.Val) :
  column <> "is_active" -> Db.is_active (Db.assign i r (column, v)) = Db.is_active r.
Proof.
  intros Hne. unfold Db.assign.
  destruct (String.eqb column "title"); [reflexivity |].
  destruct (String.eqb column "description"); [reflexivity |].
  destruct (String.eqb column "is_active") eqn:E;
    [apply String.eqb_eq in E; contradiction |].
  destruct (String.eqb column "is_public"); [reflexivity |].
  destruct (String.eqb column "expires_at"); reflexivity.
Qed.

Lemma assignments_keep_is_active (i : Db.Input) (fields : list (string * Db.Val)) (r : Db.UrlRow) :
  (forall f, In f fields -> fst f <> "is_active") ->
  Db.is_active (fold_left (Db.assign i) fields r) = Db.is_active r.
Proof.
  revert r. induction fields as [|[column v] fields IH]; intros r H; simpl; [reflexivity |].
  rewrite IH.
  - apply assign_keeps_is_active. apply (H (column, v)). left. reflexivity.
  - intros f Hf. apply H. right. exact Hf.
Qed.

Lemma updateFields_keys (updates : gmap string Db.Val) (f : string * Db.Val) :
  In f (updateFields updates) -> updates !! fst f = Some (snd f).
Proof.
  unfold updateFields. intros Hin. apply filter_In in Hin as [Hin _].
  apply list_elem_of_In in Hin. destruct f as [k v].
  apply elem_of_map_to_list in Hin. exact Hin.
Qed.

(** Without an [is_active] key in [updates], [updateUrl] changes the
    [is_active] column of no row. *)
Lemma updateUrl_keeps_is_active (this : UrlService.t) (w : World) (now : Z) (urlId : Z)
    (userId : option Z) (updates : gmap string Db.Val) :
  updates !! "is_active" = None ->
  map Db.is_active (Db.urls (db (fst (updateUrl this w now urlId userId updates)))) =
  map Db.is_active (Db.urls (db w)).
Proof.
  intros Hkey. unfold updateUrl, updateUrl_try.
  pose proof (updateFields_keys updates) as Hkeys.
  destruct (updateFields updates) as [|f fields]; [reflexivity |].
  unfold Db.update_owned.
  destruct (negb (Db.up (db w))); [reflexivity |].
  destruct (negb (forallb (Db.fits (Db.input (db w))) (f :: fields))); [reflexivity |].
  assert (Hrows : map Db.is_active
            (map (fun r => if Db.owned urlId userId r
                           then Db.set_updated_at (fold_left (Db.assign (Db.input (db w))) (f :: fields) r) now
                           else r) (Db.urls (db w))) = map Db.is_active (Db.urls (db w))).
  { rewrite map_map. apply map_ext. intros r.
    destruct (Db.owned urlId userId r); [|reflexivity].
    change (Db.is_active (Db.set_updated_at ?x now)) with (Db.is_active x).
    apply assignments_keep_is_active. intros g Hg Hbad.
    apply Hkeys in Hg. rewrite Hbad in Hg. congruence. }
  destruct (map _ (List.filter (Db.owned urlId userId) (Db.urls (db w)))); exact Hrows.
Qed.

(** A key of a validated value is a key of the body, and one of the
    schema's. *)
Lemma updateUrlSchema_lookup (joi : UrlRoutes.Joi) (now : Z)
    (body value : gmap string Db.Val) (key : string) (v : Db.Val) :
  UrlRoutes.updateUrlSchema joi now body = Some value ->
  value !! key = Some v ->
  exists sent, body !! key = Some sent /\
               UrlRoutes.updateUrlSchema_field joi now (key, sent) = Some v.
Proof.
  unfold UrlRoutes.updateUrlSchema.
  destruct (forallb _ (map_to_list body)); [|discriminate].
  intros [= <-]. rewrite map_lookup_imap.
  destruct (body !! key) as [sent|]; [|discriminate].
  simpl. intros H. exists sent. split; [reflexivity | exact H].
Qed.

Lemma updateUrlSchema_keys (joi : UrlRoutes.Joi) (now : Z)
    (body value : gmap string Db.Val) :
  UrlRoutes.updateUrlSchema joi now body = Some value -> value !! "is_active" = None.
Proof.
  intros Hvalid. destruct (value !! "is_active") as [v|] eqn:Hv; [|reflexivity].
  destruct (updateUrlSchema_lookup joi now body value _ v Hvalid Hv) as (sent & _ & H).
  discriminate H.
Qed.

(** No request to the update route changes whether a link is active. *)
Lemma put_keeps_is_active (joi : UrlRoutes.Joi) (this : UrlService.t) (w : World) (now : Z)
    (urlId userId : Z) (body : gmap string Db.Val) :
  map Db.is_active (Db.urls (db (fst (UrlRoutes.put joi this w now urlId userId body)))) =
  map Db.is_active (Db.urls (db w)).
Proof.
  unfold UrlRoutes.put.
  destruct (UrlRoutes.updateUrlSchema joi now body) as [value|] eqn:Hvalid; [|reflexivity].
  pose proof (updateUrl_keeps_is_active this w now urlId (Some userId) value
                (updateUrlSchema_keys joi now body value Hvalid)) as Hkeep.
  destruct (updateUrl this w now urlId (Some userId) value) as [w1 [url|e]]; exact Hkeep.
Qed.

(** The route converts [isActive: 'false'] to the boolean before the
    service sees it; the service drops the key all the same. *)
Example put_converts_the_text_of_a_boolean :
  let w := Fixtures.store [Fixtures.link 1 (Some 7) "promo" true None None] in
  UrlRoutes.updateUrlSchema Fixtures.joi 5000 {["isActive" := Db.VStr "false"]} =
  Some {["isActive" := Db.VBool false]} /\
  UrlRoutes.updateUrlSchema Fixtures.joi 5000 {["isActive" := Db.VStr "no"]} = None /\
  UrlRoutes.put Fixtures.joi urlService w 5000 1 7 {["isActive" := Db.VStr "false"]} =
  (w, UrlRoutes.Failed 400 "No valid fields to update").
Proof. repeat split; vm_compute; reflexivity. Qed.

(** C3 (the code at the failing input).  A link is resolved once, which
    caches it; then its owner updates it with the patch of the service's
    own test, [title], [description] and [isActive: false].  The update
    succeeds and invalidates the cache, the returned link is still active,
    and the next resolution redirects.  With [isActive: false] alone the
    update fails with status 400, also through the route. *)
Theorem owner_cannot_deactivate :
  let w0 := Fixtures.store [Fixtures.link 1 (Some 7) "promo" true None None] in
  let w := world (handleRedirect Fixtures.env w0 4000 (Fixtures.visit "promo")) in
  let patch : gmap string Db.Val :=
    <["title" := Db.VStr "Updated Title"]>
      (<["description" := Db.VStr "Updated description"]>
         {["isActive" := Db.VBool false]}) in
  let applied := updateUrl urlService w 5000 1 (Some 7) patch in
  ~ cache_miss w 5000 "promo" /\
  (exists url, snd applied = Ok url /\ v_title url = Some "Updated Title" /\
               v_isActive url = Some (Some true)) /\
  cache_miss (fst applied) 5000 "promo" /\
  map Db.is_active (Db.urls (db (fst applied))) = [Some true] /\
  response (handleRedirect Fixtures.env (fst applied) 5001 (Fixtures.visit "promo")) =
  Redirect 301 (Some "https://example.com/page") /\
  snd (updateUrl urlService w 5000 1 (Some 7) {["isActive" := Db.VBool false]}) =
  Throw (AppError "No valid fields to update" 400) /\
  snd (UrlRoutes.put Fixtures.joi urlService w 5000 1 7 {["isActive" := Db.VBool false]}) =
  UrlRoutes.Failed 400 "No valid fields to update".
Proof.
  intros w0 w patch applied.
  split; [vm_compute; discriminate |].
  split; [vm_compute; eexists; repeat split; reflexivity |].
  repeat split; vm_compute; reflexivity.
Qed.

(** * Further properties of the modelled code *)

(** ** Substrings and lower case *)

Lemma startsWith_iff (p s : string) :
  startsWith p s = true <-> exists b, s = p +:+ b.
Proof.
  revert s. induction p as [|a p IH]; intros s; simpl.
  - split; [intros _; exists s; reflexivity | reflexivity].
  - destruct s as [|c s]; simpl.
    + split; [discriminate | intros [b Hb]; discriminate].
    + rewrite andb_true_iff, IH. split.
      * intros [Hac [b ->]]. apply Ascii.eqb_eq in Hac. subst. exists b. reflexivity.
      * intros [b Hb]. injection Hb as -> ->. split; [apply Ascii.eqb_refl | eauto].
Qed.

Lemma includes_iff (s p : string) :
  includes s p = true <-> exists a b, s = a +:+ p +:+ b.
Proof.
  induction s as [|c s IH].
  - simpl. rewrite orb_false_r, startsWith_iff. split.
    + intros [b Hb]. exists "", b. exact Hb.
    + intros (a & b & H). destruct a as [|x a]; [|discriminate].
      exists b. exact H.
  - cbn [includes]. rewrite orb_true_iff, startsWith_iff, IH. split.
    + intros [[b Hb] | (a & b & ->)].
      * exists "", b. exact Hb.
      * exists (String c a), b. reflexivity.
    + intros (a & b & H). destruct a as [|x a].
      * left. exists b. exact H.
      * right. injection H as -> ->. eauto.
Qed.

Lemma append_cons (x : ascii) (a b : string) : String x a +:+ b = String x (a +:+ b).
Proof. reflexivity. Qed.

Lemma append_assoc (a b c : string) : (a +:+ b) +:+ c = a +:+ (b +:+ c).
Proof.
  induction a as [|x a IH]; [reflexivity |].
  rewrite !append_cons, IH. reflexivity.
Qed.

Lemma includes_extend (s p a b : string) :
  includes s p = true -> includes (a +:+ s +:+ b) p = true.
Proof.
  rewrite !includes_iff. intros (a' & b' & ->).
  exists (a +:+ a'), (b' +:+ b). rewrite !append_assoc. reflexivity.
Qed.

Lemma includes_trans (s p q : string) :
  includes s p = true -> includes p q = true -> includes s q = true.
Proof.
  rewrite !includes_iff. intros (a & b & ->) (a' & b' & ->).
  exists (a +:+ a'), (b' +:+ b). rewrite !append_assoc. reflexivity.
Qed.

Lemma toLowerCase_append (a b : string) :
  toLowerCase (a +:+ b) = toLowerCase a +:+ toLowerCase b.
Proof.
  induction a as [|x a IH]; [reflexivity |].
  rewrite append_cons. simpl. rewrite IH. reflexivity.
Qed.

Lemma lower_ascii_idem (c : ascii) : lower_ascii (lower_ascii c) = lower_ascii c.
Proof. destruct c as [[] [] [] [] [] [] [] []]; reflexivity. Qed.

Lemma toLowerCase_idem (s : string) : toLowerCase (toLowerCase s) = toLowerCase s.
Proof.
  induction s as [|c s IH]; simpl; [reflexivity |].
  rewrite lower_ascii_idem, IH. reflexivity.
Qed.

(** ** The cache operations *)

Import Measures.

(** X1.  On a working client, a value written with [set] for [ttl > 0]
    seconds is what [get] returns for that key at every instant before
    [now + 1000 * ttl] and is gone from that instant on; with [ttl = 0] it
    never expires.  Other keys are not affected. *)
Theorem set_then_get {V : Type} (r : Redis.t V) (now : Z) (key : string) (value : V) (ttl : Z) :
  Redis.up r = true -> 0 <= ttl ->
  snd (Redis.set r now key value ttl) = true /\
  (forall t, Redis.get (fst (Redis.set r now key value ttl)) t key =
             if (ttl =? 0) || (t <? now + 1000 * ttl) then Some value else None) /\
  (forall t other, other <> key ->
     Redis.get (fst (Redis.set r now key value ttl)) t other = Redis.get r t other).
Proof.
  intros Hup Httl. unfold Redis.set. rewrite Hup.
  destruct (ttl =? 0) eqn:Hzero.
  - simpl. split; [reflexivity | split].
    + intros t. unfold Redis.get, Redis.client_get. simpl. rewrite Hup, lookup_insert_eq.
      reflexivity.
    + intros t other Hne. unfold Redis.get, Redis.client_get. simpl.
      rewrite Hup, lookup_insert_ne by congruence. reflexivity.
  - replace (ttl <? 0) with false by (symmetry; apply Z.ltb_ge; lia).
    simpl. split; [reflexivity | split].
    + intros t. unfold Redis.get, Redis.client_get. simpl. rewrite Hup, lookup_insert_eq.
      simpl. destruct (t <? now + 1000 * ttl); reflexivity.
    + intros t other Hne. unfold Redis.get, Redis.client_get. simpl.
      rewrite Hup, lookup_insert_ne by congruence. reflexivity.
Qed.

Lemma set_then_get_witness :
  Redis.get (fst (Redis.set (Redis.mk ∅ ∅ true) 5000 "url:promo" 7 3600)) 3604999 "url:promo"
  = Some 7 /\
  Redis.get (fst (Redis.set (Redis.mk ∅ ∅ true) 5000 "url:promo" 7 3600)) 3605000 "url:promo"
  = None.
Proof.
  destruct (set_then_get (Redis.mk ∅ ∅ true) 5000 "url:promo" 7 3600 eq_refl ltac:(lia))
    as (_ & Hget & _).
  split; rewrite Hget; reflexivity.
Defined.

(** X2.  On a working client, [del] makes the key answer [null] at every
    instant, leaves every other key as it was, and returns [true] exactly
    when the key held a value that had not yet expired. *)
Theorem del_then_get {V : Type} (r : Redis.t V) (now : Z) (key : string) :
  Redis.up r = true ->
  (forall t, Redis.get (fst (Redis.del r now key)) t key = None) /\
  (forall t other, other <> key ->
     Redis.get (fst (Redis.del r now key)) t other = Redis.get r t other) /\
  (snd (Redis.del r now key) = true <-> exists value, Redis.get r now key = Some value).
Proof.
  intros Hup. unfold Redis.del, Redis.get, Redis.client_get. rewrite Hup.
  destruct (Redis.docs r !! key) as [[v e]|] eqn:Hk; simpl.
  - split; [|split].
    + intros t. rewrite Hup, lookup_delete_eq. reflexivity.
    + intros t other Hne. rewrite Hup, lookup_delete_ne by congruence. reflexivity.
    + destruct (Redis.live now e); split; eauto; try discriminate.
      intros [value Hv]. discriminate.
  - split; [|split].
    + intros t. rewrite ?Hup, Hk. reflexivity.
    + intros t other Hne. rewrite ?Hup. reflexivity.
    + split; [discriminate | intros [value Hv]; discriminate].
Qed.

Lemma del_then_get_witness :
  let r := fst (Redis.set (Redis.mk ∅ ∅ true) 5000 "url:promo" 7 3600) in
  Redis.get (fst (Redis.del r 6000 "url:promo")) 6000 "url:promo" = None.
Proof.
  intros r. destruct (del_then_get r 6000 "url:promo" eq_refl) as (Hgone & _).
  apply Hgone.
Defined.

(** ** Counters *)

Lemma incr_live {V : Type} (r : Redis.t V) (now : Z) (key : string) (ttl n e : Z) :
  Redis.up r = true -> Redis.counters r !! key = Some (n, Some e) -> now < e -> 1 <= n ->
  Redis.incr r now key (Some ttl) =
  (Redis.with_counters r (<[key := (n + 1, Some e)]> (Redis.counters r)), Some (n + 1)).
Proof.
  intros Hup Hk Hlive Hn. unfold Redis.incr. rewrite Hup, Hk. simpl.
  replace (now <? e) with true by (symmetry; apply Z.ltb_lt; lia).
  replace (n + 1 =? 1) with false by (symmetry; apply Z.eqb_neq; lia).
  rewrite andb_false_r. reflexivity.
Qed.

Lemma incr_fresh {V : Type} (r : Redis.t V) (now : Z) (key : string) (ttl : Z) :
  Redis.up r = true -> Redis.counters r !! key = None -> ttl <> 0 ->
  Redis.incr r now key (Some ttl) =
  (Redis.with_counters r (<[key := (1, Some (now + 1000 * ttl))]> (Redis.counters r)),
   Some 1).
Proof.
  intros Hup Hnone Httl. unfold Redis.incr. rewrite Hup, Hnone.
  replace (ttl =? 0) with false by (symmetry; apply Z.eqb_neq; exact Httl).
  reflexivity.
Qed.

Lemma incr_all_running {V : Type} (times : list Z) (r : Redis.t V) (key : string)
    (ttl n e from : Z) :
  Redis.up r = true -> Redis.counters r !! key = Some (n, Some e) -> 1 <= n ->
  Forall (fun t => t < e) times ->
  snd (incr_all r key (Some ttl) times) =
    map (fun i => Some (n + Z.of_nat i)) (seq 1 (length times)) /\
  Redis.up (fst (incr_all r key (Some ttl) times)) = true /\
  Redis.counters (fst (incr_all r key (Some ttl) times)) !! key =
    Some (n + Z.of_nat (length times), Some e).
Proof.
  revert r n. induction times as [|t times IH]; intros r n Hup Hk Hn Hall.
  - simpl. rewrite Z.add_0_r. auto.
  - inversion Hall as [|? ? Ht Hrest]; subst. cbn [incr_all].
    rewrite (incr_live r t key ttl n e Hup Hk Ht Hn).
    specialize (IH (Redis.with_counters r (<[key := (n + 1, Some e)]> (Redis.counters r)))
                   (n + 1) Hup (lookup_insert_eq _ _ _) ltac:(lia) Hrest).
    destruct (incr_all _ key (Some ttl) times) as [r2 counts]. simpl in *.
    destruct IH as (Hcounts & Hup2 & Hk2).
    split; [|split; [exact Hup2 |]].
    + rewrite Hcounts. change (seq 1 (S (length times))) with (1%nat :: seq 2 (length times)).
      cbn [map]. apply f_equal2; [f_equal; lia |].
      rewrite <- (seq_shift (length times) 1), map_map. apply map_ext. intros i. f_equal. lia.
    + rewrite Hk2. f_equal. f_equal. lia.
Qed.

(** X3.  [incr] counts in a fixed window.  On a working client, when the
    counter is absent (or outdated) at the first call, the calls made before
    [first + 1000 * ttl] return 1, 2, 3, ... in turn and none of them moves
    the expiry, which stays at [first + 1000 * ttl]; the first call at or
    after that instant returns 1 again. *)
Theorem incr_counts_in_fixed_window {V : Type} (r : Redis.t V) (key : string) (ttl first : Z)
    (times : list Z) (after : Z) :
  Redis.up r = true -> 0 < ttl ->
  Redis.counters r !! key = None ->
  Forall (fun t => t < first + 1000 * ttl) times ->
  first + 1000 * ttl <= after ->
  let r' := fst (incr_all r key (Some ttl) (first :: times)) in
  snd (incr_all r key (Some ttl) (first :: times)) =
    map (fun i => Some (Z.of_nat i)) (seq 1 (S (length times))) /\
  Redis.counters r' !! key =
    Some (Z.of_nat (S (length times)), Some (first + 1000 * ttl)) /\
  snd (Redis.incr r' after key (Some ttl)) = Some 1.
Proof.
  intros Hup Httl Hnone Hall Hafter r'. subst r'. cbn [incr_all].
  assert (Hfirst : Redis.incr r first key (Some ttl) =
            (Redis.with_counters r (<[key := (1, Some (first + 1000 * ttl))]>
                                      (Redis.counters r)), Some 1)).
  { apply incr_fresh; [exact Hup | exact Hnone | lia]. }
  rewrite Hfirst.
  pose proof (incr_all_running times
                (Redis.with_counters r (<[key := (1, Some (first + 1000 * ttl))]>
                                          (Redis.counters r)))
                key ttl 1 (first + 1000 * ttl) first Hup (lookup_insert_eq _ _ _)
                ltac:(lia) Hall) as (Hcounts & Hup2 & Hk2).
  destruct (incr_all _ key (Some ttl) times) as [r2 counts]. simpl in *.
  split; [|split].
  - rewrite Hcounts. change (seq 1 (S (length times))) with (1%nat :: seq 2 (length times)).
    cbn [map]. apply f_equal2; [reflexivity |].
    rewrite <- (seq_shift (length times) 1), !map_map. apply map_ext. intros i. f_equal. lia.
  - rewrite Hk2. f_equal. f_equal. lia.
  - unfold Redis.incr. rewrite Hup2, Hk2. simpl.
    replace (after <? first + 1000 * ttl) with false by (symmetry; apply Z.ltb_ge; lia).
    reflexivity.
Qed.

Lemma incr_counts_in_fixed_window_witness :
  snd (incr_all (Redis.mk (V := nat) ∅ ∅ true) "redirect:ip:203.0.113.7" (Some 60)
         [1000; 2000; 60999]) = [Some 1; Some 2; Some 3] /\
  snd (Redis.incr (fst (incr_all (Redis.mk (V := nat) ∅ ∅ true) "redirect:ip:203.0.113.7"
                          (Some 60) [1000; 2000; 60999]))
         61000 "redirect:ip:203.0.113.7" (Some 60)) = Some 1.
Proof.
  destruct (incr_counts_in_fixed_window (Redis.mk (V := nat) ∅ ∅ true)
              "redirect:ip:203.0.113.7" 60 1000 [2000; 60999] 61000)
    as (Hcounts & _ & Hagain).
  - reflexivity.
  - lia.
  - reflexivity.
  - repeat constructor.
  - lia.
  - split; [exact Hcounts | exact Hagain].
Defined.

(** ** The redirect limiter *)

Lemma clientKey_not_urlKey (req : Request) : clientKey req <> urlKey req.
Proof.
  unfold clientKey, urlKey. destruct (user req); intros H; discriminate H.
Qed.

Lemma incr_keeps_up {V : Type} (r : Redis.t V) (now : Z) (key : string) (ttl : option Z) :
  Redis.up (fst (Redis.incr r now key ttl)) = Redis.up r.
Proof.
  unfold Redis.incr. destruct (Redis.up r) eqn:Hup; [|exact Hup].
  destruct (match Redis.counters r !! key with Some _ => _ | None => _ end) as [n e].
  simpl. exact Hup.
Qed.

Lemma incr_count {V : Type} (r : Redis.t V) (now : Z) (key : string) (ttl : Z) :
  Redis.up r = true -> 0 < ttl ->
  snd (Redis.incr r now key (Some ttl)) = Some (live_count r now key + 1) /\
  live_count (fst (Redis.incr r now key (Some ttl))) now key = live_count r now key + 1 /\
  (forall other, other <> key ->
     live_count (fst (Redis.incr r now key (Some ttl))) now other = live_count r now other).
Proof.
  intros Hup Httl. unfold Redis.incr, live_count. rewrite Hup.
  replace (ttl =? 0) with false by (symmetry; apply Z.eqb_neq; lia).
  assert (Hnew : Redis.live now (Some (now + 1000 * ttl)) = true)
    by (apply Z.ltb_lt; lia).
  destruct (Redis.counters r !! key) as [[n e]|]; [destruct (Redis.live now e) eqn:Hl|];
    simpl.
  all: split; [reflexivity |]; split;
    [|intros other Hne; rewrite lookup_insert_ne by congruence; reflexivity].
  all: rewrite lookup_insert_eq.
  - destruct (n + 1 =? 1); [rewrite Hnew | rewrite Hl]; reflexivity.
  - rewrite Hnew. reflexivity.
  - rewrite Hnew. reflexivity.
Qed.

(** X4.  On a working cache the limiter decides by two counters: it
    answers 429 when the client (the user, else the IP) already stands at
    1000 redirects in its hour, else when this IP already stands at 10
    redirects of this code in its minute, and lets the request through
    otherwise.  Every request counts against the client, also a rejected
    one; a request rejected for the client's limit does not count against
    the code. *)
Theorem redirectLimiter_decides (w : World) (now : Z) (req : Request) :
  Redis.up (redis w) = true ->
  let clients := live_count (redis w) now (clientKey req) in
  let hits := live_count (redis w) now (urlKey req) in
  let w' := fst (RateLimiter.redirectLimiter w now req) in
  snd (RateLimiter.redirectLimiter w now req) =
    (if 1000 <=? clients
     then Some (RateLimiter.too_many "Too many redirects, please try again later.")
     else if 10 <=? hits
     then Some (RateLimiter.too_many "Too many redirects for this URL, please wait a moment.")
     else None) /\
  live_count (redis w') now (clientKey req) = clients + 1 /\
  live_count (redis w') now (urlKey req) = (if 1000 <=? clients then hits else hits + 1).
Proof.
  intros Hup clients hits w'. subst w'.
  pose proof (clientKey_not_urlKey req) as Hkeys.
  destruct (RateLimiter.redirectLimiter w now req) as [w' decision] eqn:E.
  unfold RateLimiter.redirectLimiter in E. fold (clientKey req) in E.
  fold (urlKey req) in E.
  destruct (incr_count (redis w) now (clientKey req) 3600 Hup ltac:(lia))
    as (Hc & Hc' & Hother).
  pose proof (incr_keeps_up (redis w) now (clientKey req) (Some 3600)) as Hup1.
  destruct (Redis.incr (redis w) now (clientKey req) (Some 3600)) as [r1 c1].
  simpl in Hc, Hc', Hother, Hup1. subst c1. fold clients in Hc', E.
  unfold RateLimiter.exceeds in E.
  replace (1000 <? clients + 1) with (1000 <=? clients) in E
    by (destruct (1000 <=? clients) eqn:E'; symmetry;
        [apply Z.ltb_lt; apply Z.leb_le in E' | apply Z.ltb_ge; apply Z.leb_gt in E']; lia).
  simpl. destruct (1000 <=? clients).
  - injection E as <- <-. simpl.
    split; [reflexivity | split; [exact Hc' |]].
    apply Hother. congruence.
  - rewrite Hup in Hup1.
    destruct (incr_count r1 now (urlKey req) 60 Hup1 ltac:(lia)) as (Hu & Hu' & Hother2).
    destruct (Redis.incr r1 now (urlKey req) (Some 60)) as [r2 c2].
    simpl in Hu, Hu', Hother2. subst c2.
    rewrite (Hother (urlKey req)) in Hu', E by congruence. fold hits in Hu', E.
    replace (10 <? hits + 1) with (10 <=? hits) in E
      by (destruct (10 <=? hits) eqn:E'; symmetry;
          [apply Z.ltb_lt; apply Z.leb_le in E' | apply Z.ltb_ge; apply Z.leb_gt in E']; lia).
    assert (Hclient2 : live_count r2 now (clientKey req) = clients + 1)
      by (rewrite (Hother2 (clientKey req)) by exact Hkeys; exact Hc').
    destruct (10 <=? hits); injection E as <- <-; simpl; auto.
Qed.

Lemma redirectLimiter_decides_witness :
  snd (RateLimiter.redirectLimiter (Fixtures.store []) 5000 (Fixtures.visit "promo")) = None.
Proof.
  destruct (redirectLimiter_decides (Fixtures.store []) 5000 (Fixtures.visit "promo") eq_refl)
    as (Hdecision & _).
  rewrite Hdecision. reflexivity.
Defined.

(** ** The read-through cache *)

Lemma active_by_code_head (d : Db.t) (code : string) (url : Db.UrlRow) (rest : list Db.UrlRow) :
  Db.active_by_code code d = url :: rest ->
  In url (Db.urls d) /\ Db.short_code url = code /\ Db.is_active url = Some true.
Proof.
  intros H. apply filter_cons_inv in H as [Hin Hmatch].
  apply andb_true_iff in Hmatch as [Hcode Hactive].
  apply String.eqb_eq in Hcode. split; [exact Hin | split; [exact Hcode |]].
  destruct (Db.is_active url) as [[]|]; try discriminate. reflexivity.
Qed.

Lemma getUrlByShortCode_hit (w : World) (now : Z) (code : string) (cached : Cached) :
  Redis.get (redis w) now ("url:" +:+ code) = Some cached ->
  getUrlByShortCode w now code = (w, Ok (Some cached)).
Proof. intros H. unfold getUrlByShortCode. rewrite H. reflexivity. Qed.

(** A lookup that reads the store fills the cache. *)
Lemma getUrlByShortCode_caches (w : World) (now : Z) (code : string)
    (url : Db.UrlRow) (rest : list Db.UrlRow) :
  Redis.up (redis w) = true -> cache_miss w now code -> Db.up (db w) = true ->
  Db.active_by_code code (db w) = url :: rest -> has_expired now url = false ->
  forall t w2, t < now + 3600000 ->
    Redis.docs (redis w2) = Redis.docs (redis (fst (getUrlByShortCode w now code))) ->
    Redis.up (redis w2) = true ->
    getUrlByShortCode w2 t code = (w2, Ok (Some (CachedData (urlData_of_row (db w) url)))).
Proof.
  intros Hup Hmiss Hdb Hrows Hfresh t w2 Ht.
  destruct (active_by_code_head _ _ _ _ Hrows) as (_ & Hcode & _).
  rewrite (getUrlByShortCode_miss w now code Hmiss). cbv zeta.
  rewrite Hdb, Hrows, Hfresh. simpl.
  intros Hdocs Hup2. apply getUrlByShortCode_hit.
  unfold Redis.get, Redis.client_get. rewrite Hup2, Hdocs.
  unfold cacheUrl, Redis.set. simpl. rewrite Hup. simpl.
  rewrite Hcode, lookup_insert_eq. simpl.
  replace (t <? now + 1000 * 3600) with true by (symmetry; apply Z.ltb_lt; lia).
  reflexivity.
Qed.

(** X5.  Read-through.  When the lookup of a code misses the cache and the
    store has a resolvable link for it, the lookup returns the link after
    one query and, the cache working, leaves it cached: every lookup of the
    code before [now + 3600000] on that cache is answered with the same
    object, issues no query and changes nothing, whatever the store holds
    by then. *)
Theorem lookup_is_cached_for_an_hour (w : World) (now : Z) (code : string)
    (url : Db.UrlRow) (rest : list Db.UrlRow) :
  Redis.up (redis w) = true -> cache_miss w now code -> Db.up (db w) = true ->
  Db.active_by_code code (db w) = url :: rest -> has_expired now url = false ->
  let found := CachedData (urlData_of_row (db w) url) in
  let w1 := fst (getUrlByShortCode w now code) in
  snd (getUrlByShortCode w now code) = Ok (Some found) /\
  Db.queries (db w1) = S (Db.queries (db w)) /\
  forall t w2, t < now + 3600000 ->
    Redis.docs (redis w2) = Redis.docs (redis w1) -> Redis.up (redis w2) = true ->
    getUrlByShortCode w2 t code = (w2, Ok (Some found)).
Proof.
  intros Hup Hmiss Hdb Hrows Hfresh found w1.
  split; [|split].
  - rewrite (getUrlByShortCode_miss w now code Hmiss). cbv zeta.
    rewrite Hdb, Hrows, Hfresh. reflexivity.
  - subst w1. rewrite (getUrlByShortCode_miss w now code Hmiss). cbv zeta.
    rewrite Hdb, Hrows, Hfresh. reflexivity.
  - intros t w2 Ht Hdocs Hup2.
    apply (getUrlByShortCode_caches w now code url rest Hup Hmiss Hdb Hrows Hfresh t w2 Ht
             Hdocs Hup2).
Qed.

Lemma lookup_is_cached_for_an_hour_witness :
  let w := Fixtures.store [Fixtures.link 1 (Some 7) "promo" true None None] in
  let w1 := fst (getUrlByShortCode w 5000 "promo") in
  getUrlByShortCode w1 6000 "promo" = (w1, snd (getUrlByShortCode w 5000 "promo")).
Proof.
  intros w w1.
  destruct (lookup_is_cached_for_an_hour w 5000 "promo"
              (Fixtures.link 1 (Some 7) "promo" true None None) []
              eq_refl eq_refl eq_refl eq_refl eq_refl)
    as (Hfound & _ & Hagain).
  rewrite Hfound. apply Hagain; [lia | reflexivity | reflexivity].
Defined.

(** X6.  The expiry of a link is checked on the store path only.  A link
    that was cached while it was resolvable keeps being redirected to for a
    browser that the limiter lets through, at every instant before the cache
    entry ends ([now + 3600000]), also after its [expires_at] has passed. *)
Theorem cached_link_outlives_its_expiry (env : UrlService.Env) (w w2 : World) (now t : Z)
    (req : Request) (url : Db.UrlRow) (rest : list Db.UrlRow) :
  Redis.up (redis w) = true -> cache_miss w now (param_shortCode req) ->
  Db.up (db w) = true ->
  Db.active_by_code (param_shortCode req) (db w) = url :: rest ->
  has_expired now url = false ->
  t < now + 3600000 ->
  Redis.docs (redis w2) = Redis.docs (redis (fst (getUrlByShortCode w now (param_shortCode req)))) ->
  Redis.up (redis w2) = true ->
  snd (RateLimiter.redirectLimiter w2 t req) = None ->
  Analytics.detectBot (userAgent_of req) = false ->
  query_preview req <> Some "true" ->
  response (handleRedirect env w2 t req) = Redirect 301 (Some (Db.original_url url)) /\
  detached (handleRedirect env w2 t req) = [RecordClick (Db.id url) req].
Proof.
  intros Hup Hmiss Hdb Hrows Hfresh Ht Hdocs Hup2 Hpass Hbot Hprev.
  destruct (active_by_code_head _ _ _ _ Hrows) as (_ & _ & Hactive).
  pose proof (getUrlByShortCode_caches w now _ url rest Hup Hmiss Hdb Hrows Hfresh)
    as Hagain.
  unfold handleRedirect.
  pose proof (redirectLimiter_keeps w2 t req) as (_ & _ & Hd & Hu).
  destruct (RateLimiter.redirectLimiter w2 t req) as [w3 limited]. simpl in *. subst limited.
  rewrite (Hagain t w3 Ht) by congruence. simpl. rewrite Hactive. simpl.
  unfold respond. simpl. unfold userAgent_of in Hbot. rewrite Hbot.
  assert (Hp : match query_preview req with
               | Some q => String.eqb q "true" | None => false end = false).
  { destruct (query_preview req) as [q|]; [|reflexivity].
    apply String.eqb_neq. congruence. }
  rewrite Hp. auto.
Qed.

Lemma cached_link_outlives_its_expiry_witness :
  let w := Fixtures.store [Fixtures.link 1 (Some 7) "promo" true None (Some 9000)] in
  let w1 := world (handleRedirect Fixtures.env w 5000 (Fixtures.visit "promo")) in
  has_expired 10000 (Fixtures.link 1 (Some 7) "promo" true None (Some 9000)) = true /\
  response (handleRedirect Fixtures.env w1 10000 (Fixtures.visit "promo")) =
  Redirect 301 (Some "https://example.com/page").
Proof.
  intros w w1. split; [reflexivity |].
  destruct (cached_link_outlives_its_expiry Fixtures.env
              (fst (RateLimiter.redirectLimiter w 5000 (Fixtures.visit "promo")))
              w1 5000 10000 (Fixtures.visit "promo")
              (Fixtures.link 1 (Some 7) "promo" true None (Some 9000)) []
              eq_refl eq_refl eq_refl eq_refl eq_refl ltac:(lia) eq_refl eq_refl eq_refl
              eq_refl ltac:(discriminate))
    as [Hresp _].
  exact Hresp.
Defined.

(** ** Writes and the next resolution *)

Lemma filter_owned_single (d : Db.t) (urlId : Z) (userId : option Z) (r : Db.UrlRow) :
  unique_ids d -> In r (Db.urls d) -> Db.owned urlId userId r = true ->
  List.filter (Db.owned urlId userId) (Db.urls d) = [r].
Proof.
  unfold unique_ids. intros Hnd Hin Hown.
  assert (Hid : Db.id r = urlId).
  { unfold Db.owned in Hown. apply andb_true_iff in Hown as [H _]. apply Z.eqb_eq, H. }
  induction (Db.urls d) as [|a l IH]; [destruct Hin |].
  simpl in Hnd. inversion Hnd as [|? ? Hnotin Hnd']; subst. simpl.
  destruct Hin as [-> | Hin].
  - rewrite Hown. f_equal. apply filter_nil_iff. intros x Hx.
    destruct (Db.owned (Db.id r) userId x) eqn:Hx'; [|reflexivity].
    exfalso. apply Hnotin. unfold Db.owned in Hx'. apply andb_true_iff in Hx' as [H _].
    apply Z.eqb_eq in H. rewrite <- H. apply in_map, Hx.
  - destruct (Db.owned (Db.id r) userId a) eqn:Ha.
    + exfalso. apply Hnotin. unfold Db.owned in Ha. apply andb_true_iff in Ha as [H _].
      apply Z.eqb_eq in H. rewrite H. apply in_map, Hin.
    + apply IH; assumption.
Qed.

Lemma invalidateUrlCache_misses (w : World) (now t : Z) (code : string) :
  cache_miss (invalidateUrlCache w now code) t code.
Proof.
  unfold cache_miss, invalidateUrlCache, Redis.del, Redis.get, Redis.client_get.
  destruct (Redis.up (redis w)) eqn:Hup; simpl; [|rewrite Hup; reflexivity].
  destruct (Redis.docs (redis w) !! ("url:" +:+ code)) as [[v e]|] eqn:Hk; simpl.
  - rewrite Hup, lookup_delete_eq. reflexivity.
  - rewrite Hup, Hk. reflexivity.
Qed.

Lemma deleteUrl_ok_shape (w w' : World) (now : Z) (urlId : Z) (userId : option Z)
    (r : Db.UrlRow) :
  unique_ids (db w) -> In r (Db.urls (db w)) -> Db.owned urlId userId r = true ->
  deleteUrl w now urlId userId = (w', Ok true) ->
  w' = invalidateUrlCache
         (with_db w
            (Db.with_clicks
               (Db.with_urls (Db.issued (db w))
                  (List.filter (fun x => negb (Db.owned urlId userId x)) (Db.urls (db w))))
               (Db.cascade [r] (Db.url_clicks (db w)))))
         now (Db.short_code r).
Proof.
  intros Hids Hin Hown. unfold deleteUrl, deleteUrl_try, Db.delete_owned, rethrow.
  rewrite (filter_owned_single _ _ _ _ Hids Hin Hown).
  destruct (negb (Db.up (db w))); simpl; [discriminate |].
  intros [= <-]. reflexivity.
Qed.


(** What a cache entry of a code is after the invalidation: removed when
    the client answered, left as it was when it did not. *)
Lemma invalidateUrlCache_docs (w : World) (now : Z) (code : string) :
  (Redis.up (redis w) = true ->
   Redis.docs (redis (invalidateUrlCache w now code)) !! ("url:" +:+ code) = None) /\
  (Redis.up (redis w) = false -> redis (invalidateUrlCache w now code) = redis w).
Proof.
  unfold invalidateUrlCache, Redis.del. split; intros Hup; rewrite Hup; simpl.
  - destruct (Redis.docs (redis w) !! ("url:" +:+ code)) as [[v e]|] eqn:Hk; simpl.
    + apply lookup_delete_eq.
    + exact Hk.
  - reflexivity.
Qed.

Lemma no_document_misses (w : World) (t : Z) (code : string) :
  Redis.docs (redis w) !! ("url:" +:+ code) = None -> cache_miss w t code.
Proof.
  intros Hk. unfold cache_miss, Redis.get, Redis.client_get. rewrite Hk.
  destruct (Redis.up (redis w)); reflexivity.
Qed.

(** A resolution of a code with no document in the cache and no active
    row in the store. *)
Lemma handleRedirect_nothing_found (env : UrlService.Env) (w : World) (t : Z) (req : Request) :
  Redis.docs (redis w) !! ("url:" +:+ param_shortCode req) = None ->
  Db.active_by_code (param_shortCode req) (db w) = [] ->
  let h := handleRedirect env w t req in
  detached h = [] /\
  In (outcome h) [NotFound; RateLimited; InternalError] /\
  (Db.up (db w) = true -> response h = not_found \/ outcome h = RateLimited) /\
  Redis.docs (redis (world h)) = Redis.docs (redis w) /\
  Db.urls (db (world h)) = Db.urls (db w).
Proof.
  intros Hk Hrows. unfold handleRedirect, outcome.
  pose proof (redirectLimiter_keeps w t req) as (Hdb & _ & Hdocs & Hrup).
  pose proof (cache_miss_after_limiter w t req _ (no_document_misses w t _ Hk)) as Hmiss1.
  pose proof (redirectLimiter_answers w t req) as Hlimited.
  destruct (RateLimiter.redirectLimiter w t req) as [w1 [limited|]]; simpl in *.
  - rewrite Hdb, (Hlimited limited eq_refl). repeat split; auto.
  - rewrite (getUrlByShortCode_miss w1 t _ Hmiss1). cbv zeta.
    rewrite Hdb, Hrows. destruct (Db.up (db w)); simpl; repeat split; auto; discriminate.
Qed.

Lemma active_by_code_same_rows (d d' : Db.t) (code : string) :
  Db.urls d' = Db.urls d -> Db.active_by_code code d' = Db.active_by_code code d.
Proof. unfold Db.active_by_code. intros ->. reflexivity. Qed.

(** X7.  Delete, then resolve.  After [deleteUrl] succeeded for a link (ids
    and short codes unique), the document cached under the link's code is
    removed if the cache answered during the call, and is left as it was if
    the cache did not answer.  In every world that holds the rows the delete
    left and no document under that key, a resolution of the code dispatches
    no click and answers NotFound (RateLimited when the limiter answers
    first, 500 when the store does not answer), and leaves rows and
    documents as they are, so the next resolution does the same. *)
Theorem deleted_link_is_not_found (env : UrlService.Env) (w w' : World) (now : Z)
    (urlId : Z) (userId : option Z) (r : Db.UrlRow) :
  unique_ids (db w) -> unique_codes (db w) ->
  In r (Db.urls (db w)) -> Db.owned urlId userId r = true ->
  deleteUrl w now urlId userId = (w', Ok true) ->
  let key := "url:" +:+ Db.short_code r in
  (Redis.up (redis w) = true -> Redis.docs (redis w') !! key = None) /\
  (Redis.up (redis w) = false -> redis w' = redis w) /\
  forall w2 t req,
    param_shortCode req = Db.short_code r ->
    Db.urls (db w2) = Db.urls (db w') ->
    Redis.docs (redis w2) !! key = None ->
    let h := handleRedirect env w2 t req in
    detached h = [] /\
    In (outcome h) [NotFound; RateLimited; InternalError] /\
    (Db.up (db w2) = true -> response h = not_found \/ outcome h = RateLimited) /\
    Redis.docs (redis (world h)) = Redis.docs (redis w2) /\
    Db.urls (db (world h)) = Db.urls (db w2).
Proof.
  intros Hids Hcodes Hin Hown Hdel key.
  destruct (deleteUrl_ok_inv _ _ _ _ _ Hdel) as (_ & _ & Hrows).
  pose proof (deleteUrl_ok_shape w w' now urlId userId r Hids Hin Hown Hdel) as Hshape.
  destruct (invalidateUrlCache_docs
              (with_db w
                 (Db.with_clicks
                    (Db.with_urls (Db.issued (db w))
                       (List.filter (fun x => negb (Db.owned urlId userId x))
                                    (Db.urls (db w))))
                    (Db.cascade [r] (Db.url_clicks (db w)))))
              now (Db.short_code r)) as [Hgone Hkept].
  rewrite <- Hshape in Hgone, Hkept.
  split; [exact Hgone | split; [exact Hkept |]].
  intros w2 t req Hcode Hsame Hk.
  apply handleRedirect_nothing_found; [rewrite Hcode; exact Hk |].
  rewrite (active_by_code_same_rows (db w') (db w2) _ Hsame).
  apply active_by_code_unknown. intros x Hx Heq. rewrite Hrows in Hx.
  apply filter_In in Hx as [Hx Hnot].
  assert (x = r) by (apply (NoDup_map_inj Db.short_code (Db.urls (db w)));
                     try assumption; congruence).
  subst x. rewrite Hown in Hnot. discriminate.
Qed.

Lemma deleted_link_is_not_found_witness :
  let w := world (handleRedirect Fixtures.env
                    (Fixtures.store [Fixtures.link 1 (Some 7) "promo" true None None])
                    4000 (Fixtures.visit "promo")) in
  let w' := fst (deleteUrl w 5000 1 (Some 7)) in
  Redis.docs (redis w) !! "url:promo" <> None /\
  Redis.docs (redis w') !! "url:promo" = None /\
  response (handleRedirect Fixtures.env w' 5001 (Fixtures.visit "promo")) = not_found.
Proof.
  intros w w'. split; [vm_compute; discriminate |].
  destruct (deleted_link_is_not_found Fixtures.env w w' 5000 1 (Some 7)
              (Fixtures.link 1 (Some 7) "promo" true None None)) as (Hgone & _ & Hlater).
  - constructor; [intros [] | constructor].
  - constructor; [intros [] | constructor].
  - left. reflexivity.
  - reflexivity.
  - reflexivity.
  - split; [exact (Hgone eq_refl) |].
    destruct (Hlater w' 5001 (Fixtures.visit "promo") eq_refl eq_refl (Hgone eq_refl))
      as (_ & _ & Hanswer & _).
    destruct (Hanswer eq_refl) as [Hnf | Hlimited]; [exact Hnf |].
    vm_compute in Hlimited. discriminate.
Defined.

(** The cache not answering during the delete: the document stays, and a
    cache that answers again serves the deleted link. *)
Example deleted_link_served_from_a_stale_document :
  let w := world (handleRedirect Fixtures.env
                    (Fixtures.store [Fixtures.link 1 (Some 7) "promo" true None None])
                    4000 (Fixtures.visit "promo")) in
  let down := with_redis w (Redis.mk (Redis.docs (redis w)) (Redis.counters (redis w)) false) in
  let w' := fst (deleteUrl down 5000 1 (Some 7)) in
  let again := with_redis w' (Redis.mk (Redis.docs (redis w')) (Redis.counters (redis w')) true) in
  snd (deleteUrl down 5000 1 (Some 7)) = Ok true /\
  Db.urls (db w') = [] /\
  response (handleRedirect Fixtures.env again 5001 (Fixtures.visit "promo")) =
  Redirect 301 (Some "https://example.com/page").
Proof. vm_compute. repeat split; reflexivity. Qed.

Lemma assign_keeps_expires_at (i : Db.Input) (r : Db.UrlRow) (column : string) (v : Db.Val) :
  column <> "expires_at" -> Db.expires_at (Db.assign i r (column, v)) = Db.expires_at r.
Proof.
  intros Hne. unfold Db.assign.
  destruct (String.eqb column "title"); [reflexivity |].
  destruct (String.eqb column "description"); [reflexivity |].
  destruct (String.eqb column "is_active"); [reflexivity |].
  destruct (String.eqb column "is_public"); [reflexivity |].
  destruct (String.eqb column "expires_at") eqn:E; [|reflexivity].
  apply String.eqb_eq in E. contradiction.
Qed.

Lemma assignments_keep_expires_at (i : Db.Input) (fields : list (string * Db.Val)) (r : Db.UrlRow) :
  (forall f, In f fields -> fst f <> "expires_at") ->
  Db.expires_at (fold_left (Db.assign i) fields r) = Db.expires_at r.
Proof.
  revert r. induction fields as [|[column v] fields IH]; intros r H; simpl; [reflexivity |].
  rewrite IH.
  - apply assign_keeps_expires_at. apply (H (column, v)). left. reflexivity.
  - intros f Hf. apply H. right. exact Hf.
Qed.

(** The value a [SET] list leaves in [title], when the list assigns it. *)
Lemma assignments_set_title (i : Db.Input) (fields : list (string * Db.Val)) (r : Db.UrlRow) (v : Db.Val) :
  (forall v', In ("title", v') fields -> v' = v) ->
  Db.title (fold_left (Db.assign i) fields r) =
  if existsb (fun f => String.eqb (fst f) "title") fields
  then default None (Db.title_of i v) else Db.title r.
Proof.
  revert r. induction fields as [|[column v0] fields IH]; intros r Hone; [reflexivity |].
  cbn [fold_left existsb fst].
  rewrite IH by (intros v' Hv'; apply Hone; right; exact Hv').
  destruct (existsb _ fields); [rewrite orb_true_r; reflexivity |].
  rewrite orb_false_r. unfold Db.assign.
  destruct (String.eqb column "title") eqn:E.
  - apply String.eqb_eq in E. subst column.
    rewrite (Hone v0 (or_introl eq_refl)). reflexivity.
  - destruct (String.eqb column "description"); [reflexivity |].
    destruct (String.eqb column "is_active"); [reflexivity |].
    destruct (String.eqb column "is_public"); [reflexivity |].
    destruct (String.eqb column "expires_at"); reflexivity.
Qed.

(** The value a [SET] list leaves in [is_active], when the list assigns it. *)
Lemma assignments_set_is_active (i : Db.Input) (fields : list (string * Db.Val)) (r : Db.UrlRow)
    (v : Db.Val) :
  (forall v', In ("is_active", v') fields -> v' = v) ->
  Db.is_active (fold_left (Db.assign i) fields r) =
  if existsb (fun f => String.eqb (fst f) "is_active") fields
  then default None (Db.bool_of i v) else Db.is_active r.
Proof.
  revert r. induction fields as [|[column v0] fields IH]; intros r Hone; [reflexivity |].
  cbn [fold_left existsb fst].
  rewrite IH by (intros v' Hv'; apply Hone; right; exact Hv').
  destruct (existsb _ fields); [rewrite orb_true_r; reflexivity |].
  rewrite orb_false_r. unfold Db.assign.
  destruct (String.eqb column "title") eqn:E1;
    [apply String.eqb_eq in E1; subst column; reflexivity |].
  destruct (String.eqb column "description") eqn:E2;
    [apply String.eqb_eq in E2; subst column; reflexivity |].
  destruct (String.eqb column "is_active") eqn:E.
  - apply String.eqb_eq in E. subst column.
    rewrite (Hone v0 (or_introl eq_refl)). reflexivity.
  - destruct (String.eqb column "is_public"); [reflexivity |].
    destruct (String.eqb column "expires_at"); reflexivity.
Qed.

Lemma updateFields_has (updates : gmap string Db.Val) (key : string) (v : Db.Val) :
  updates !! key = Some v -> existsb (String.eqb key) allowedUpdates = true ->
  In (key, v) (updateFields updates) /\
  existsb (fun f => String.eqb (fst f) key) (updateFields updates) = true /\
  (forall v', In (key, v') (updateFields updates) -> v' = v).
Proof.
  intros Hk Hallowed.
  assert (Hin : In (key, v) (updateFields updates)).
  { unfold updateFields. apply filter_In. split; [|exact Hallowed].
    apply list_elem_of_In, elem_of_map_to_list, Hk. }
  split; [exact Hin | split].
  - apply existsb_exists. exists (key, v). split; [exact Hin | apply String.eqb_refl].
  - intros v' Hv'. apply updateFields_keys in Hv'. simpl in Hv'. congruence.
Qed.

(** What a successful [updateUrl] did, in a store with unique ids. *)
Lemma updateUrl_ok_shape (this : UrlService.t) (w w' : World) (now : Z) (urlId : Z)
    (userId : option Z) (updates : gmap string Db.Val) (r : Db.UrlRow) (view : UrlView) :
  unique_ids (db w) -> In r (Db.urls (db w)) -> Db.owned urlId userId r = true ->
  updateUrl this w now urlId userId updates = (w', Ok view) ->
  let updated x := Db.set_updated_at (fold_left (Db.assign (Db.input (db w))) (updateFields updates) x) now in
  Db.up (db w) = true /\
  view = view_of_row this (updated r) true true /\
  w' = invalidateUrlCache
         (with_db w (Db.with_urls (Db.issued (db w))
            (map (fun x => if Db.owned urlId userId x then updated x else x)
                 (Db.urls (db w)))))
         now (Db.short_code r).
Proof.
  intros Hids Hin Hown. unfold updateUrl, updateUrl_try, rethrow.
  destruct (updateFields updates) as [|f fields] eqn:Hfields; [discriminate |].
  unfold Db.update_owned. rewrite (filter_owned_single _ _ _ _ Hids Hin Hown).
  destruct (Db.up (db w)) eqn:Hup; cbn [negb]; [|intros H; discriminate H].
  destruct (forallb (Db.fits (Db.input (db w))) (f :: fields)) eqn:Hfit; cbn [negb];
    [|intros H; discriminate H].
  cbn [map]. intros [= <- <-].
  split; [reflexivity | split; [reflexivity |]].
  destruct (assignments_keep_code (Db.input (db w)) (f :: fields) r) as [Hcode _].
  unfold invalidateUrlCache. do 4 f_equal. exact Hcode.
Qed.

(** The rows a successful update leaves under a code. *)
Lemma active_by_code_after_update (d : Db.t) (g : Db.UrlRow -> Db.UrlRow) (r : Db.UrlRow)
    (d' : Db.t) :
  unique_codes d -> In r (Db.urls d) ->
  (forall x, Db.short_code (g x) = Db.short_code x) ->
  Db.urls d' = map g (Db.urls d) ->
  (Db.is_active (g r) = Some true ->
   exists rest, Db.active_by_code (Db.short_code r) d' = g r :: rest) /\
  (Db.is_active (g r) <> Some true -> Db.active_by_code (Db.short_code r) d' = []).
Proof.
  intros Hcodes Hin Hg Hrows.
  assert (Hhead : forall x, In x (Db.active_by_code (Db.short_code r) d') -> x = g r).
  { intros x Hx. unfold Db.active_by_code in Hx. rewrite Hrows in Hx.
    apply filter_In in Hx as [Hx Hmatch]. apply in_map_iff in Hx as (y & <- & Hy).
    apply andb_true_iff in Hmatch as [Hc _]. apply String.eqb_eq in Hc. rewrite Hg in Hc.
    f_equal. apply (NoDup_map_inj Db.short_code (Db.urls d)); assumption. }
  split.
  - intros Hactive.
    destruct (Db.active_by_code (Db.short_code r) d') as [|x rest] eqn:E.
    + exfalso. unfold Db.active_by_code in E. rewrite filter_nil_iff in E.
      specialize (E (g r)). rewrite Hrows, Hg, Hactive, String.eqb_refl in E.
      specialize (E (in_map g _ _ Hin)). discriminate.
    + rewrite (Hhead x (or_introl eq_refl)). eauto.
  - intros Hdead.
    destruct (Db.active_by_code (Db.short_code r) d') as [|x rest] eqn:E; [reflexivity |].
    exfalso. pose proof (Hhead x (or_introl eq_refl)) as ->.
    destruct (active_by_code_head _ _ _ _ E) as (_ & _ & Hactive). contradiction.
Qed.

(** X8.  Update, then look up.  After the owner's [updateUrl] with a new
    [title] succeeded (a title the column stores as it is, the patch
    touching neither [is_active] nor [expires_at], ids and short codes
    unique), the returned link carries the new title; the document cached under the code is removed if the cache
    answered during the call and left as it was if it did not.  In every
    world that holds the rows the update left, with the store answering and
    no document under that key, a lookup of the code of the active,
    unexpired link reads the store and returns the new title. *)
Theorem updated_title_is_served (this : UrlService.t) (w w' : World) (now : Z)
    (urlId : Z) (userId : option Z) (updates : gmap string Db.Val) (r : Db.UrlRow)
    (view : UrlView) (s : string) :
  unique_ids (db w) -> unique_codes (db w) ->
  In r (Db.urls (db w)) -> Db.owned urlId userId r = true ->
  updateUrl this w now urlId userId updates = (w', Ok view) ->
  updates !! "title" = Some (Db.VStr s) ->
  Db.varchar_in (Db.input (db w)) 500 s = Some s ->
  updates !! "is_active" = None -> updates !! "expires_at" = None ->
  Db.is_active r = Some true ->
  let key := "url:" +:+ Db.short_code r in
  v_title view = Some s /\
  (Redis.up (redis w) = true -> Redis.docs (redis w') !! key = None) /\
  (Redis.up (redis w) = false -> redis w' = redis w) /\
  forall w2 t,
    Db.urls (db w2) = Db.urls (db w') -> Db.up (db w2) = true ->
    Redis.docs (redis w2) !! key = None ->
    has_expired t r = false ->
    exists d, snd (getUrlByShortCode w2 t (Db.short_code r)) = Ok (Some (CachedData d)) /\
              UrlService.title d = Some s /\ shortCode d = Db.short_code r /\
              UrlService.id d = Db.id r.
Proof.
  intros Hids Hcodes Hin Hown Hupd Htitle Hstored Hnoact Hnoexp Hactive key.
  destruct (updateUrl_ok_shape this w w' now urlId userId updates r view Hids Hin Hown Hupd)
    as (Hup & Hview & Hshape).
  set (updated := fun x => Db.set_updated_at
                             (fold_left (Db.assign (Db.input (db w))) (updateFields updates) x)
                             now) in *.
  set (g := fun x => if Db.owned urlId userId x then updated x else x) in *.
  destruct (updateFields_has updates "title" (Db.VStr s) Htitle eq_refl)
    as (_ & Hex & Hone).
  assert (Hnew : Db.title (updated r) = Some s).
  { unfold updated.
    change (Db.title (Db.set_updated_at ?x now)) with (Db.title x).
    rewrite (assignments_set_title _ _ r (Db.VStr s) Hone), Hex.
    unfold Db.title_of. cbn [Db.sent]. rewrite Hstored. reflexivity. }
  assert (Hg : forall x, Db.short_code (g x) = Db.short_code x).
  { intros x. unfold g. destruct (Db.owned urlId userId x); [|reflexivity].
    apply (assignments_keep_code (Db.input (db w)) (updateFields updates) x). }
  assert (Hgr : g r = updated r) by (unfold g; rewrite Hown; reflexivity).
  assert (Hact' : Db.is_active (g r) = Some true).
  { rewrite Hgr. unfold updated.
    change (Db.is_active (Db.set_updated_at ?x now)) with (Db.is_active x).
    rewrite assignments_keep_is_active; [exact Hactive |].
    intros f Hf Hbad. apply updateFields_keys in Hf. rewrite Hbad in Hf. congruence. }
  assert (Hexp' : forall t, has_expired t (g r) = has_expired t r).
  { intros t. rewrite Hgr. unfold has_expired, updated.
    change (Db.expires_at (Db.set_updated_at ?x now)) with (Db.expires_at x).
    rewrite assignments_keep_expires_at; [reflexivity |].
    intros f Hf Hbad. apply updateFields_keys in Hf. rewrite Hbad in Hf. congruence. }
  destruct (invalidateUrlCache_docs
              (with_db w (Db.with_urls (Db.issued (db w)) (map g (Db.urls (db w)))))
              now (Db.short_code r)) as [Hgone Hkept].
  split; [rewrite Hview; exact Hnew |].
  split; [rewrite Hshape; exact Hgone | split; [rewrite Hshape; exact Hkept |]].
  intros w2 t Hsame Hup2 Hk Hfresh.
  destruct (active_by_code_after_update (db w) g r (db w') Hcodes Hin Hg) as [Hsome _].
  { rewrite Hshape. reflexivity. }
  destruct (Hsome Hact') as [rest Hrows].
  rewrite <- (active_by_code_same_rows (db w') (db w2) _ Hsame) in Hrows.
  rewrite (getUrlByShortCode_miss w2 t _ (no_document_misses w2 t _ Hk)). cbv zeta.
  rewrite Hup2, Hrows, Hexp', Hfresh. simpl.
  eexists. split; [reflexivity |]. simpl. rewrite Hgr.
  split; [exact Hnew | split].
  - apply (assignments_keep_code (Db.input (db w)) (updateFields updates) r).
  - unfold updated. clear. induction (updateFields updates) as [|f fields IH] using rev_ind;
      [reflexivity |].
    rewrite fold_left_app. simpl. destruct f as [column v]. unfold Db.assign.
    repeat (match goal with |- context [if ?b then _ else _] => destruct b end);
      exact IH.
Qed.

Lemma updated_title_is_served_witness :
  let w := world (handleRedirect Fixtures.env
                    (Fixtures.store [Fixtures.link 1 (Some 7) "promo" true None None])
                    4000 (Fixtures.visit "promo")) in
  let w' := fst (updateUrl urlService w 5000 1 (Some 7) {["title" := Db.VStr "New"]}) in
  Redis.docs (redis w) !! "url:promo" <> None /\
  Redis.docs (redis w') !! "url:promo" = None /\
  exists d, snd (getUrlByShortCode w' 5001 "promo") = Ok (Some (CachedData d)) /\
            UrlService.title d = Some "New".
Proof.
  intros w w'. split; [vm_compute; discriminate |].
  pose (view := match snd (updateUrl urlService w 5000 1 (Some 7)
                             {["title" := Db.VStr "New"]}) with
                | Ok v => v
                | Throw _ => mkUrlView 0 "" "" "" None None None None None 0 0 None None
                end).
  destruct (updated_title_is_served urlService w w' 5000 1 (Some 7)
              {["title" := Db.VStr "New"]}
              (Fixtures.link 1 (Some 7) "promo" true None None) view "New")
    as (_ & Hgone & _ & Hlater).
  - constructor; [intros [] | constructor].
  - constructor; [intros [] | constructor].
  - left. reflexivity.
  - reflexivity.
  - vm_compute. reflexivity.
  - reflexivity.
  - reflexivity.
  - reflexivity.
  - reflexivity.
  - reflexivity.
  - split; [exact (Hgone eq_refl) |].
    destruct (Hlater w' 5001 eq_refl eq_refl (Hgone eq_refl) eq_refl)
      as (d & Hd & Htitle & _).
    exists d. split; [exact Hd | exact Htitle].
Defined.

(** X9.  Deactivation by the column's name.  After the owner's [updateUrl]
    with [is_active: false] succeeded (ids and short codes unique), the
    returned link is inactive; the document cached under the code is removed
    if the cache answered during the call and left as it was if it did not.
    In every world that holds the rows the update left and no document under
    that key, a resolution of the code dispatches no click and answers 404
    NotFound, not 410 (RateLimited when the limiter answers first, 500 when
    the store does not answer), and leaves rows and documents as they are,
    so the next resolution does the same. *)
Theorem deactivated_link_is_not_found (env : UrlService.Env) (this : UrlService.t)
    (w w' : World) (now : Z) (urlId : Z) (userId : option Z)
    (updates : gmap string Db.Val) (r : Db.UrlRow) (view : UrlView) :
  unique_ids (db w) -> unique_codes (db w) ->
  In r (Db.urls (db w)) -> Db.owned urlId userId r = true ->
  updateUrl this w now urlId userId updates = (w', Ok view) ->
  updates !! "is_active" = Some (Db.VBool false) ->
  let key := "url:" +:+ Db.short_code r in
  v_isActive view = Some (Some false) /\
  (Redis.up (redis w) = true -> Redis.docs (redis w') !! key = None) /\
  (Redis.up (redis w) = false -> redis w' = redis w) /\
  forall w2 t req,
    param_shortCode req = Db.short_code r ->
    Db.urls (db w2) = Db.urls (db w') ->
    Redis.docs (redis w2) !! key = None ->
    let h := handleRedirect env w2 t req in
    detached h = [] /\
    In (outcome h) [NotFound; RateLimited; InternalError] /\
    (Db.up (db w2) = true -> response h = not_found \/ outcome h = RateLimited) /\
    Redis.docs (redis (world h)) = Redis.docs (redis w2) /\
    Db.urls (db (world h)) = Db.urls (db w2).
Proof.
  intros Hids Hcodes Hin Hown Hupd Hkey key.
  destruct (updateUrl_ok_shape this w w' now urlId userId updates r view Hids Hin Hown Hupd)
    as (Hup & Hview & Hshape).
  set (updated := fun x => Db.set_updated_at
                             (fold_left (Db.assign (Db.input (db w))) (updateFields updates) x)
                             now) in *.
  set (g := fun x => if Db.owned urlId userId x then updated x else x) in *.
  destruct (updateFields_has updates "is_active" (Db.VBool false) Hkey eq_refl)
    as (_ & Hex & Hone).
  assert (Hnew : Db.is_active (updated r) = Some false).
  { unfold updated.
    change (Db.is_active (Db.set_updated_at ?x now)) with (Db.is_active x).
    rewrite (assignments_set_is_active _ _ r (Db.VBool false) Hone), Hex. reflexivity. }
  assert (Hg : forall x, Db.short_code (g x) = Db.short_code x).
  { intros x. unfold g. destruct (Db.owned urlId userId x); [|reflexivity].
    apply (assignments_keep_code (Db.input (db w)) (updateFields updates) x). }
  assert (Hgr : g r = updated r) by (unfold g; rewrite Hown; reflexivity).
  destruct (invalidateUrlCache_docs
              (with_db w (Db.with_urls (Db.issued (db w)) (map g (Db.urls (db w)))))
              now (Db.short_code r)) as [Hgone Hkept].
  split.
  { rewrite Hview. unfold view_of_row. cbn [v_isActive]. f_equal. exact Hnew. }
  split; [rewrite Hshape; exact Hgone | split; [rewrite Hshape; exact Hkept |]].
  intros w2 t req Hcode Hsame Hk.
  apply handleRedirect_nothing_found; [rewrite Hcode; exact Hk |].
  rewrite (active_by_code_same_rows (db w') (db w2) _ Hsame), Hcode.
  destruct (active_by_code_after_update (db w) g r (db w') Hcodes Hin Hg) as [_ Hnone].
  { rewrite Hshape. reflexivity. }
  apply Hnone. rewrite Hgr, Hnew. discriminate.
Qed.

Lemma deactivated_link_is_not_found_witness :
  let w := world (handleRedirect Fixtures.env
                    (Fixtures.store [Fixtures.link 1 (Some 7) "promo" true None None])
                    4000 (Fixtures.visit "promo")) in
  let w' := fst (updateUrl urlService w 5000 1 (Some 7) {["is_active" := Db.VBool false]}) in
  Redis.docs (redis w) !! "url:promo" <> None /\
  Redis.docs (redis w') !! "url:promo" = None /\
  response (handleRedirect Fixtures.env w' 5001 (Fixtures.visit "promo")) = not_found.
Proof.
  intros w w'. split; [vm_compute; discriminate |].
  pose (view := match snd (updateUrl urlService w 5000 1 (Some 7)
                             {["is_active" := Db.VBool false]}) with
                | Ok v => v
                | Throw _ => mkUrlView 0 "" "" "" None None None None None 0 0 None None
                end).
  destruct (deactivated_link_is_not_found Fixtures.env urlService w w' 5000 1 (Some 7)
              {["is_active" := Db.VBool false]}
              (Fixtures.link 1 (Some 7) "promo" true None None) view)
    as (_ & Hgone & _ & Hlater).
  - constructor; [intros [] | constructor].
  - constructor; [intros [] | constructor].
  - left. reflexivity.
  - reflexivity.
  - vm_compute. reflexivity.
  - reflexivity.
  - split; [exact (Hgone eq_refl) |].
    destruct (Hlater w' 5001 (Fixtures.visit "promo") eq_refl eq_refl (Hgone eq_refl))
      as (_ & _ & Hanswer & _).
    destruct (Hanswer eq_refl) as [Hnf | Hlimited]; [exact Hnf |].
    vm_compute in Hlimited. discriminate.
Defined.


(** ** Creation *)

Lemma draw_code_keeps_redis (this : UrlService.t) (env : UrlService.Env) (retries : nat)
    (w : World) :
  redis (fst (draw_code this env w retries)) = redis w.
Proof.
  revert w. induction retries as [|k IH]; intros w; simpl; [reflexivity |].
  unfold Db.query. destruct (Db.up (db w)); simpl; [|reflexivity].
  destruct (Db.by_code _ (db w)); simpl; [reflexivity |].
  rewrite IH. reflexivity.
Qed.

Lemma generateShortCode_keeps_redis (this : UrlService.t) (env : UrlService.Env) (w : World)
    (customAlias : option string) (retries : nat) :
  redis (fst (generateShortCode this env w customAlias retries)) = redis w.
Proof.
  unfold generateShortCode, generateShortCode_try, rethrow.
  destruct (if truthy customAlias then customAlias else None) as [alias|].
  - destruct (_ || _); [reflexivity |]. destruct (negb _); [reflexivity |].
    unfold Db.query. destruct (Db.up (db w)); simpl; [|reflexivity].
    destruct (Db.by_code_or_alias alias (db w)); reflexivity.
  - pose proof (draw_code_keeps_redis this env retries w) as Hk.
    destruct (draw_code this env w retries) as [w1 [[code|]|e]]; simpl in *; auto.
    destruct (isAppError e); auto.
Qed.

Lemma rethrow_throws {S A : Type} (message : string) (r : S * Result A) (s : S) (e : Thrown) :
  rethrow message r = (s, Throw e) ->
  exists e0, r = (s, Throw e0) /\
             (e = e0 /\ isAppError e0 = true \/ e = AppError message 500).
Proof.
  unfold rethrow. destruct r as [s0 [a|e0]]; [discriminate |].
  destruct (isAppError e0) eqn:Happ; intros [= <- <-]; eauto.
Qed.

Lemma rethrow_returns {S A : Type} (message : string) (r : S * Result A) (s : S) (a : A) :
  rethrow message r = (s, Ok a) -> r = (s, Ok a).
Proof.
  unfold rethrow. destruct r as [s0 [a0|e0]]; [auto |].
  destruct (isAppError e0); discriminate.
Qed.

Lemma generateShortCode_throws (this : UrlService.t) (env : UrlService.Env) (w w1 : World)
    (customAlias : option string) (retries : nat) (e : Thrown) :
  generateShortCode this env w customAlias retries = (w1, Throw e) ->
  exists message status, e = AppError message status /\ In status [400; 409; 500].
Proof.
  unfold generateShortCode. intros H.
  apply rethrow_throws in H as (e0 & H & [[-> Happ] | ->]);
    [|exists "Failed to generate short code", 500; simpl; auto].
  unfold generateShortCode_try in H.
  destruct (if truthy customAlias then customAlias else None) as [alias|].
  - destruct (_ || _); [injection H as _ <-; eexists _, 400; simpl; auto |].
    destruct (negb _); [injection H as _ <-; eexists _, 400; simpl; auto |].
    unfold Db.query in H. destruct (Db.up (db w)); simpl in H.
    + destruct (Db.by_code_or_alias alias (db w)); [discriminate |].
      injection H as _ <-. eexists _, 409. simpl; auto.
    + injection H as _ <-. discriminate Happ.
  - destruct (draw_code this env w retries) as [w2 [[code|]|e1]] eqn:Hd.
    + discriminate.
    + injection H as _ <-. eexists _, 500. simpl; auto.
    + injection H as _ <-. clear -Hd Happ. exfalso.
      revert w Hd. induction retries as [|k IH]; intros w; simpl; [discriminate |].
      unfold Db.query. destruct (Db.up (db w)); simpl.
      * destruct (Db.by_code _ (db w)); [discriminate | apply IH].
      * intros [= _ <-]. discriminate Happ.
Qed.

(** X10.  What a successful [createUrl] stores.  It appends exactly one
    row to [urls]: active, with no clicks, created at the instant of the
    call, owned by the caller, holding the URL that passed [validateUrl]
    under a short code that no other row has (the alias, when one was
    given), and it returns the view of that row. *)
Theorem createUrl_appends_one_row (this : UrlService.t) (env : UrlService.Env)
    (w w' : World) (now : Z) (data : CreateData) (view : UrlView) :
  createUrl this env w now data = (w', Ok view) ->
  exists row,
    Db.urls (db w') = (Db.urls (db w) ++ [row])%list /\
    view = view_of_row this row false false /\
    validateUrl env (c_originalUrl data) = Ok true /\
    Db.original_url row = c_originalUrl data /\
    Db.user_id row = c_userId data /\
    Db.custom_alias row = c_customAlias data /\
    Db.is_active row = Some true /\
    Db.is_public row = Some (default true (c_isPublic data)) /\
    Db.expires_at row = c_expiresAt data /\
    Db.click_count row = 0 /\ Db.created_at row = now /\
    (forall r, In r (Db.urls (db w)) -> Db.short_code r <> Db.short_code row) /\
    (forall alias, c_customAlias data = Some alias -> alias <> "" ->
                   Db.short_code row = alias).
Proof.
  unfold createUrl. intros H. apply rethrow_returns in H. unfold createUrl_try in H.
  destruct (validateUrl env (c_originalUrl data)) as [ok|e] eqn:Hvalid; [|discriminate].
  assert (Hok : ok = true).
  { unfold validateUrl in Hvalid. destruct (parse_url env _) as [[protocol hostname]|];
      [|discriminate].
    destruct (negb _); [discriminate |]. destruct (_ && _); [discriminate |].
    destruct (2048 <? _); [discriminate |]. congruence. }
  subst ok.
  pose proof (generateShortCode_keeps_rows this env w (c_customAlias data) 5) as [Hrows _].
  pose proof (generateShortCode_returns_alias this env w) as Hsame.
  destruct (generateShortCode this env w (c_customAlias data) 5) as [w1 [code|e]] eqn:Hgen;
    [|discriminate].
  simpl in Hrows. unfold Db.insert_url in H.
  destruct (negb (Db.up (db w1))); [discriminate |].
  destruct (Db.violates_unique (db w1) code (c_customAlias data)) eqn:Hviol;
    [discriminate |].
  injection H as <- <-. eexists. split; [simpl; rewrite Hrows; reflexivity |].
  split; [reflexivity |]. split; [reflexivity |]. simpl.
  repeat (split; [reflexivity |]). split.
  - intros r Hr. rewrite <- Hrows in Hr. apply (violates_unique_fresh _ _ _ Hviol r Hr).
  - intros alias Ha Hne. apply (Hsame w1 alias code 5%nat Hne). rewrite <- Ha. exact Hgen.
Qed.

Lemma createUrl_appends_one_row_witness :
  exists row,
    Db.urls (db (fst (createUrl urlService Fixtures.env (Fixtures.store []) 5000
                        (mkCreateData "https://example.com/new" (Some "promo") (Some 7)
                                      None None None None)))) = ([] ++ [row])%list /\
    Db.short_code row = "promo".
Proof.
  destruct (createUrl urlService Fixtures.env (Fixtures.store []) 5000
              (mkCreateData "https://example.com/new" (Some "promo") (Some 7)
                            None None None None)) as [w' [view|e]] eqn:E;
    [|vm_compute in E; discriminate E].
  destruct (createUrl_appends_one_row _ _ _ _ _ _ _ E) as (row & Hrows & H).
  exists row. split; [exact Hrows |].
  apply H; [reflexivity | discriminate].
Defined.

(** X11.  A failing [createUrl] changes neither the rows nor the cache, and
    what it throws is always an [AppError] with status 400, 409 or 500: a
    driver error never reaches the caller as it is. *)
Theorem createUrl_failure_keeps_store (this : UrlService.t) (env : UrlService.Env)
    (w w' : World) (now : Z) (data : CreateData) (e : Thrown) :
  createUrl this env w now data = (w', Throw e) ->
  Db.urls (db w') = Db.urls (db w) /\ redis w' = redis w /\
  exists message status, e = AppError message status /\ In status [400; 409; 500].
Proof.
  unfold createUrl. intros H.
  apply rethrow_throws in H as (e0 & H & He). unfold createUrl_try in H.
  assert (Hstatus : (exists message status, e0 = AppError message status /\
                                            In status [400; 409; 500]) ->
                    exists message status, e = AppError message status /\
                                           In status [400; 409; 500]).
  { intros Hs. destruct He as [[-> _] | ->]; [exact Hs |].
    eexists _, 500. simpl; auto. }
  destruct (validateUrl env (c_originalUrl data)) as [ok|e1] eqn:Hvalid.
  - pose proof (generateShortCode_keeps_rows this env w (c_customAlias data) 5) as [Hrows _].
    pose proof (generateShortCode_keeps_redis this env w (c_customAlias data) 5) as Hredis.
    destruct (generateShortCode this env w (c_customAlias data) 5) as [w1 [code|e1]] eqn:Hgen;
      simpl in Hrows, Hredis.
    + unfold Db.insert_url in H.
      destruct (negb (Db.up (db w1))).
      * injection H as <- <-. simpl. repeat split; auto.
        destruct He as [[_ Happ] | ->]; [discriminate Happ |].
        eexists _, 500. simpl; auto.
      * destruct (Db.violates_unique (db w1) code (c_customAlias data)); [|discriminate].
        injection H as <- <-. simpl. repeat split; auto.
        destruct He as [[_ Happ] | ->]; [discriminate Happ |].
        eexists _, 500. simpl; auto.
    + injection H as <- <-. repeat split; auto.
      apply Hstatus. apply (generateShortCode_throws _ _ _ _ _ _ _ Hgen).
  - injection H as <- <-. repeat split; auto. apply Hstatus.
    unfold validateUrl in Hvalid. destruct (parse_url env _) as [[protocol hostname]|].
    + destruct (negb _); [injection Hvalid as <-; eexists _, 400; simpl; auto |].
      destruct (_ && _); [injection Hvalid as <-; eexists _, 400; simpl; auto |].
      destruct (2048 <? _); [injection Hvalid as <-; eexists _, 400; simpl; auto |].
      discriminate.
    + injection Hvalid as <-. eexists _, 400. simpl; auto.
Qed.

Lemma createUrl_failure_keeps_store_witness :
  let w := Fixtures.store [Fixtures.link 1 (Some 7) "promo" true None None] in
  let data := mkCreateData "https://example.com/new" (Some "promo") (Some 8)
                           None None None None in
  Db.urls (db (fst (createUrl urlService Fixtures.env w 5000 data))) = Db.urls (db w).
Proof.
  intros w data.
  apply (createUrl_failure_keeps_store urlService Fixtures.env w
           (fst (createUrl urlService Fixtures.env w 5000 data)) 5000 data
           (AppError "Custom alias is already taken" 409)).
  vm_compute. reflexivity.
Defined.

Lemma url_key_inj (a b : string) : "url:" +:+ a = "url:" +:+ b -> a = b.
Proof. rewrite !append_cons. intros [= H]. exact H. Qed.

Lemma get_after_set_other {V : Type} (r : Redis.t V) (now t : Z) (key other : string)
    (value : V) (ttl : Z) :
  other <> key ->
  Redis.get (fst (Redis.set r now key value ttl)) t other = Redis.get r t other.
Proof.
  intros Hne. unfold Redis.set, Redis.get, Redis.client_get.
  destruct (Redis.up r) eqn:Hup; simpl; [|rewrite Hup; reflexivity].
  destruct (ttl =? 0); simpl; [rewrite Hup, lookup_insert_ne by congruence; reflexivity |].
  destruct (ttl <? 0); simpl; rewrite Hup; [reflexivity |].
  rewrite lookup_insert_ne by congruence. reflexivity.
Qed.

Lemma get_after_set {V : Type} (r : Redis.t V) (now t : Z) (key : string)
    (value : V) (ttl : Z) :
  Redis.up r = true -> 0 < ttl -> t < now + 1000 * ttl ->
  Redis.get (fst (Redis.set r now key value ttl)) t key = Some value.
Proof.
  intros Hup Hpos Ht. unfold Redis.set, Redis.get, Redis.client_get. rewrite Hup.
  replace (ttl =? 0) with false by (symmetry; apply Z.eqb_neq; lia).
  replace (ttl <? 0) with false by (symmetry; apply Z.ltb_ge; lia).
  simpl. rewrite Hup, lookup_insert_eq. simpl.
  replace (t <? now + 1000 * ttl) with true by (symmetry; apply Z.ltb_lt; lia).
  reflexivity.
Qed.

(** What a successful [createUrl] leaves behind. *)
Lemma createUrl_ok_shape (this : UrlService.t) (env : UrlService.Env)
    (w w' : World) (now : Z) (data : CreateData) (view : UrlView) :
  createUrl this env w now data = (w', Ok view) ->
  exists row,
    Db.urls (db w') = (Db.urls (db w) ++ [row])%list /\
    Db.up (db w) = true /\ Db.up (db w') = true /\
    Db.user_emails (db w') = Db.user_emails (db w) /\
    redis w' = fst (Redis.set (redis w) now "url:undefined" (CachedRow row) 3600) /\
    view = view_of_row this row false false /\
    Db.is_active row = Some true /\
    Db.expires_at row = c_expiresAt data /\
    Db.original_url row = c_originalUrl data /\
    Db.user_id row = c_userId data /\
    (forall r, In r (Db.urls (db w)) -> Db.short_code r <> Db.short_code row).
Proof.
  unfold createUrl. intros H. apply rethrow_returns in H. unfold createUrl_try in H.
  destruct (validateUrl env (c_originalUrl data)) as [ok|e]; [|discriminate].
  pose proof (generateShortCode_keeps_rows this env w (c_customAlias data) 5) as [Hrows Hup].
  pose proof (generateShortCode_keeps_redis this env w (c_customAlias data) 5) as Hredis.
  assert (Hmail : Db.user_emails (db (fst (generateShortCode this env w (c_customAlias data) 5)))
                  = Db.user_emails (db w)).
  { unfold generateShortCode, generateShortCode_try, rethrow.
    destruct (if truthy (c_customAlias data) then c_customAlias data else None) as [alias|].
    - destruct (_ || _); [reflexivity |]. destruct (negb _); [reflexivity |].
      unfold Db.query. destruct (Db.up (db w)); simpl; [|reflexivity].
      destruct (Db.by_code_or_alias alias (db w)); reflexivity.
    - assert (Hd : forall k v, Db.user_emails (db (fst (draw_code this env v k))) =
                               Db.user_emails (db v)).
      { induction k as [|k IH]; intros v; simpl; [reflexivity |].
        unfold Db.query. destruct (Db.up (db v)); simpl; [|reflexivity].
        destruct (Db.by_code _ (db v)); simpl; [reflexivity |]. rewrite IH. reflexivity. }
      specialize (Hd 5%nat w).
      destruct (draw_code this env w 5) as [w2 [[code|]|e]]; simpl in *; auto.
      destruct (isAppError e); auto. }
  destruct (generateShortCode this env w (c_customAlias data) 5) as [w1 [code|e]];
    [|discriminate].
  simpl in Hrows, Hup, Hredis, Hmail. unfold Db.insert_url in H.
  destruct (Db.up (db w1)) eqn:Hup1; simpl in H; [|discriminate].
  destruct (Db.violates_unique (db w1) code (c_customAlias data)) eqn:Hviol;
    [discriminate |].
  injection H as <- <-. eexists. split; [simpl; rewrite Hrows; reflexivity |].
  split; [congruence |]. split; [exact Hup1 |]. split; [exact Hmail |].
  split; [unfold cacheUrl; simpl; rewrite Hredis; reflexivity |].
  split; [reflexivity |]. simpl. repeat (split; [reflexivity |]).
  intros r Hr. rewrite <- Hrows in Hr. apply (violates_unique_fresh _ _ _ Hviol r Hr).
Qed.

(** X12.  [createUrl] caches the raw row, which has no [shortCode]
    property: the document goes to the key [url:undefined] and the cache
    under every other code stays as it was.  For the hour the document
    lives, a resolution of the code [undefined] that the limiter lets
    through is answered from it with 410 and dispatches no click, whether
    or not a link has that code. *)
Theorem created_row_is_cached_as_undefined (this : UrlService.t) (env : UrlService.Env)
    (w w' : World) (now : Z) (data : CreateData) (view : UrlView) :
  Redis.up (redis w) = true ->
  createUrl this env w now data = (w', Ok view) ->
  (forall t code, code <> "undefined" ->
     Redis.get (redis w') t ("url:" +:+ code) = Redis.get (redis w) t ("url:" +:+ code)) /\
  (forall t, t < now + 3600000 ->
     exists row, Redis.get (redis w') t "url:undefined" = Some (CachedRow row) /\
                 Db.short_code row = v_shortCode view) /\
  (forall t req, t < now + 3600000 -> param_shortCode req = "undefined" ->
     snd (RateLimiter.redirectLimiter w' t req) = None ->
     response (handleRedirect env w' t req) = deactivated /\
     detached (handleRedirect env w' t req) = []).
Proof.
  intros Hup Hcreate.
  destruct (createUrl_ok_shape _ _ _ _ _ _ _ Hcreate)
    as (row & _ & _ & _ & _ & Hredis & Hview & _).
  assert (Hhit : forall t, t < now + 3600000 ->
                           Redis.get (redis w') t "url:undefined" = Some (CachedRow row)).
  { intros t Ht. rewrite Hredis. apply get_after_set; [exact Hup | lia | lia]. }
  split; [|split].
  - intros t code Hne. rewrite Hredis. apply get_after_set_other.
    intros Heq. apply Hne. apply url_key_inj. exact Heq.
  - intros t Ht. exists row. split; [apply Hhit, Ht |]. rewrite Hview. reflexivity.
  - intros t req Ht Hcode Hpass. unfold handleRedirect.
    pose proof (redirectLimiter_keeps w' t req) as (_ & _ & Hd & Hu).
    destruct (RateLimiter.redirectLimiter w' t req) as [w1 limited]. simpl in *.
    subst limited. rewrite Hcode.
    assert (Hget : Redis.get (redis w1) t ("url:" +:+ "undefined") = Some (CachedRow row)).
    { rewrite (get_same_docs (redis w1) (redis w') t _ Hd Hu). apply Hhit, Ht. }
    unfold getUrlByShortCode. rewrite Hget. simpl. auto.
Qed.

Lemma created_row_is_cached_as_undefined_witness :
  let data := mkCreateData "https://example.com/new" (Some "promo") (Some 7)
                           None None None None in
  let w' := fst (createUrl urlService Fixtures.env (Fixtures.store []) 5000 data) in
  response (handleRedirect Fixtures.env w' 6000 (Fixtures.visit "undefined")) = deactivated.
Proof.
  intros data w'.
  pose (view := match snd (createUrl urlService Fixtures.env (Fixtures.store []) 5000 data) with
                | Ok v => v
                | Throw _ => mkUrlView 0 "" "" "" None None None None None 0 0 None None
                end).
  destruct (created_row_is_cached_as_undefined urlService Fixtures.env (Fixtures.store []) w'
              5000 data view eq_refl) as (_ & _ & H).
  - vm_compute. reflexivity.
  - apply (H 6000 (Fixtures.visit "undefined")); [lia | reflexivity |].
    vm_compute. reflexivity.
Defined.

(** X13.  Create, then resolve.  After a successful [createUrl] whose
    short code is not [undefined], a lookup of the new code finds nothing
    cached that was not cached before; when nothing is, a browser that the
    limiter lets through is redirected (301) to the original URL at every
    instant up to the link's expiry, and one click is dispatched for the
    new link. *)
Theorem created_link_resolves (this : UrlService.t) (env : UrlService.Env)
    (w w' : World) (now t : Z) (data : CreateData) (view : UrlView) (req : Request) :
  createUrl this env w now data = (w', Ok view) ->
  param_shortCode req = v_shortCode view ->
  v_shortCode view <> "undefined" ->
  cache_miss w t (v_shortCode view) ->
  match c_expiresAt data with Some e => t <= e | None => True end ->
  snd (RateLimiter.redirectLimiter w' t req) = None ->
  Analytics.detectBot (userAgent_of req) = false ->
  query_preview req <> Some "true" ->
  response (handleRedirect env w' t req) = Redirect 301 (Some (c_originalUrl data)) /\
  detached (handleRedirect env w' t req) = [RecordClick (v_id view) req].
Proof.
  intros Hcreate Hcode Hne Hmiss Hexp Hpass Hbot Hprev.
  destruct (createUrl_ok_shape _ _ _ _ _ _ _ Hcreate)
    as (row & Hrows & _ & Hup & _ & Hredis & Hview & Hactive & Hexpires & Hurl & _ & Hfresh).
  assert (Hsc : v_shortCode view = Db.short_code row) by (rewrite Hview; reflexivity).
  assert (Hid : v_id view = Db.id row) by (rewrite Hview; reflexivity).
  assert (Hmiss' : cache_miss w' t (v_shortCode view)).
  { unfold cache_miss in *. rewrite Hredis, get_after_set_other; [exact Hmiss |].
    intros Heq. apply Hne. apply url_key_inj. exact Heq. }
  assert (Hfound : Db.active_by_code (v_shortCode view) (db w') = [row]).
  { unfold Db.active_by_code. rewrite Hrows, List.filter_app. simpl.
    rewrite Hsc, String.eqb_refl, Hactive. simpl.
    replace (List.filter _ (Db.urls (db w))) with (@nil Db.UrlRow); [reflexivity |].
    symmetry. apply filter_nil_iff. intros r Hr.
    apply andb_false_iff. left. apply String.eqb_neq. apply Hfresh, Hr. }
  assert (Hlive : has_expired t row = false).
  { unfold has_expired. rewrite Hexpires. destruct (c_expiresAt data) as [e|]; [|reflexivity].
    apply Z.ltb_ge. exact Hexp. }
  unfold handleRedirect.
  pose proof (redirectLimiter_keeps w' t req) as (Hdb & _ & Hd & Hu).
  pose proof (cache_miss_after_limiter w' t req _ Hmiss') as Hmiss1.
  destruct (RateLimiter.redirectLimiter w' t req) as [w1 limited]. simpl in *.
  subst limited. rewrite Hcode.
  rewrite (getUrlByShortCode_miss w1 t _ Hmiss1). cbv zeta.
  rewrite Hdb, Hup, Hfound, Hlive. simpl. rewrite Hactive. simpl.
  unfold respond. simpl. unfold userAgent_of in Hbot. rewrite Hbot.
  assert (Hp : match query_preview req with
               | Some q => String.eqb q "true" | None => false end = false).
  { destruct (query_preview req) as [q|]; [|reflexivity].
    apply String.eqb_neq. congruence. }
  rewrite Hp, Hurl, Hid. auto.
Qed.

Lemma created_link_resolves_witness :
  let data := mkCreateData "https://example.com/new" (Some "promo") (Some 7)
                           None None None None in
  let w' := fst (createUrl urlService Fixtures.env (Fixtures.store []) 5000 data) in
  response (handleRedirect Fixtures.env w' 6000 (Fixtures.visit "promo")) =
  Redirect 301 (Some "https://example.com/new").
Proof.
  intros data w'.
  pose (view := match snd (createUrl urlService Fixtures.env (Fixtures.store []) 5000 data) with
                | Ok v => v
                | Throw _ => mkUrlView 0 "" "" "" None None None None None 0 0 None None
                end).
  destruct (created_link_resolves urlService Fixtures.env (Fixtures.store []) w' 5000 6000
              data view (Fixtures.visit "promo")) as [H _].
  - vm_compute. reflexivity.
  - reflexivity.
  - vm_compute. discriminate.
  - reflexivity.
  - exact I.
  - vm_compute. reflexivity.
  - reflexivity.
  - discriminate.
  - exact H.
Defined.

(** ** The random short code *)

Lemma draw_code_finds (this : UrlService.t) (env : UrlService.Env) (retries : nat) :
  forall (w : World) (i : nat),
  Db.up (db w) = true -> (i < retries)%nat ->
  (forall j, (j < i)%nat -> Db.by_code (draw this env w j) (db w) <> []) ->
  Db.by_code (draw this env w i) (db w) = [] ->
  snd (draw_code this env w retries) = Ok (Some (draw this env w i)) /\
  draws (fst (draw_code this env w retries)) = (draws w + S i)%nat /\
  Db.queries (db (fst (draw_code this env w retries))) = (Db.queries (db w) + S i)%nat.
Proof.
  induction retries as [|k IH]; intros w i Hup Hi Htaken Hfree; [lia |].
  simpl. unfold Db.query. rewrite Hup.
  destruct i as [|i].
  - unfold draw in Hfree. rewrite Nat.add_0_r in Hfree. rewrite Hfree. simpl.
    unfold draw. rewrite Nat.add_0_r. repeat split; lia.
  - pose proof (Htaken 0%nat ltac:(lia)) as H0. unfold draw in H0.
    rewrite Nat.add_0_r in H0.
    destruct (Db.by_code (nanoid env (draws w) (shortCodeLength this)) (db w)) as [|x l];
      [congruence |].
    set (w1 := with_db (drawn w) (Db.issued (db w))).
    assert (Hdraw : forall j, draw this env w1 j = draw this env w (S j)).
    { intros j. unfold draw, w1. simpl. f_equal. lia. }
    destruct (IH w1 i) as (Hr & Hd & Hq).
    + exact Hup.
    + lia.
    + intros j Hj. rewrite Hdraw. apply (Htaken (S j)). lia.
    + rewrite Hdraw. exact Hfree.
    + rewrite Hr, Hd, Hq, Hdraw. unfold w1. simpl. repeat split; lia.
Qed.

Lemma draw_code_gives_up (this : UrlService.t) (env : UrlService.Env) (retries : nat) :
  forall (w : World),
  Db.up (db w) = true ->
  (forall j, (j < retries)%nat -> Db.by_code (draw this env w j) (db w) <> []) ->
  snd (draw_code this env w retries) = Ok None /\
  draws (fst (draw_code this env w retries)) = (draws w + retries)%nat.
Proof.
  induction retries as [|k IH]; intros w Hup Htaken; [simpl; split; [reflexivity | lia] |].
  simpl. unfold Db.query. rewrite Hup.
  pose proof (Htaken 0%nat ltac:(lia)) as H0. unfold draw in H0.
  rewrite Nat.add_0_r in H0.
  destruct (Db.by_code (nanoid env (draws w) (shortCodeLength this)) (db w)) as [|x l];
    [congruence |].
  set (w1 := with_db (drawn w) (Db.issued (db w))).
  assert (Hdraw : forall j, draw this env w1 j = draw this env w (S j)).
  { intros j. unfold draw, w1. simpl. f_equal. lia. }
  destruct (IH w1) as (Hr & Hd).
  - exact Hup.
  - intros j Hj. rewrite Hdraw. apply (Htaken (S j)). lia.
  - rewrite Hr, Hd. unfold w1. simpl. split; [reflexivity | lia].
Qed.

(** X14.  The random short code.  Without an alias (or with the empty
    one) and with the store answering, [generateShortCode] returns the first
    of its draws from [nanoid] that no link has as its short code, after as
    many draws and as many queries as it took; when each of the [retries]
    draws is taken it gives up with status 500. *)
Theorem generateShortCode_returns_first_free_draw (this : UrlService.t)
    (env : UrlService.Env) (w : World) (customAlias : option string) (retries : nat) :
  truthy customAlias = false -> Db.up (db w) = true ->
  let result := generateShortCode this env w customAlias retries in
  (forall i, (i < retries)%nat ->
     (forall j, (j < i)%nat -> Db.by_code (draw this env w j) (db w) <> []) ->
     Db.by_code (draw this env w i) (db w) = [] ->
     snd result = Ok (draw this env w i) /\
     draws (fst result) = (draws w + S i)%nat /\
     Db.queries (db (fst result)) = (Db.queries (db w) + S i)%nat) /\
  ((forall j, (j < retries)%nat -> Db.by_code (draw this env w j) (db w) <> []) ->
   snd result =
     Throw (AppError "Unable to generate unique short code, please try again" 500) /\
   draws (fst result) = (draws w + retries)%nat).
Proof.
  intros Halias Hup result. subst result.
  unfold generateShortCode, generateShortCode_try. rewrite Halias. split.
  - intros i Hi Htaken Hfree.
    destruct (draw_code_finds this env retries w i Hup Hi Htaken Hfree) as (Hr & Hd & Hq).
    destruct (draw_code this env w retries) as [w1 [[code|]|e]]; simpl in *;
      try discriminate.
    injection Hr as ->. auto.
  - intros Htaken.
    destruct (draw_code_gives_up this env retries w Hup Htaken) as (Hr & Hd).
    destruct (draw_code this env w retries) as [w1 [[code|]|e]]; simpl in *;
      try discriminate.
    auto.
Qed.

Lemma generateShortCode_returns_first_free_draw_witness :
  let w := Fixtures.store [Fixtures.link 1 (Some 7) "Ab3_x0" true None None] in
  snd (generateShortCode urlService Fixtures.env w None 5) = Ok "Ab3_x1" /\
  draws (fst (generateShortCode urlService Fixtures.env w None 5)) = 2%nat.
Proof.
  intros w.
  destruct (generateShortCode_returns_first_free_draw urlService Fixtures.env w None 5
              eq_refl eq_refl) as [Hfound _].
  destruct (Hfound 1%nat) as (Hr & Hd & _).
  - lia.
  - intros j Hj. assert (j = 0%nat) as -> by lia. vm_compute. discriminate.
  - reflexivity.
  - split; [exact Hr | exact Hd].
Defined.

(** ** The store under any sequence of calls *)

Lemma consistent_same_rows (d d' : Db.t) :
  Db.urls d' = Db.urls d -> consistent d -> consistent d'.
Proof. unfold consistent, unique_codes. intros ->. auto. Qed.

(** X15.  Whatever sequence of [createUrl], [updateUrl], [deleteUrl] and
    [getUrlByShortCode] calls the service executes, with whatever arguments
    and whether they return or throw, no two links ever share a short code,
    and a link's custom alias (when it has one that is not empty) is its
    short code. *)
Theorem calls_keep_consistent (this : UrlService.t) (env : UrlService.Env) (l : list Call)
    (w : World) :
  consistent (db w) -> consistent (db (calls this env w l)).
Proof.
  unfold calls. revert w. induction l as [|c l IH]; intros w Hcons; [exact Hcons |].
  simpl. apply IH. destruct c as [now data | now urlId userId updates | now urlId userId
                                  | now code]; simpl.
  - apply createUrl_consistent, Hcons.
  - apply updateUrl_consistent, Hcons.
  - apply deleteUrl_consistent, Hcons.
  - apply (consistent_same_rows (db w)); [|exact Hcons].
    apply getUrlByShortCode_keeps_rows.
Qed.

Lemma calls_keep_consistent_witness :
  consistent (db (calls urlService Fixtures.env (Fixtures.store [])
    [Create 5000 (mkCreateData "https://example.com/a" (Some "promo") (Some 7)
                               None None None None);
     Create 5001 (mkCreateData "https://example.com/b" (Some "promo") (Some 8)
                               None None None None);
     Lookup 5002 "promo";
     Update 5003 100 (Some 7) {["title" := Db.VStr "Spring"]};
     Delete 5004 100 (Some 7);
     Create 5005 (mkCreateData "https://example.com/c" None None None None None None)])).
Proof.
  apply calls_keep_consistent. split; constructor.
Defined.

(** ** User agents *)

Lemma includes_absent (u p q : string) :
  includes p q = true -> includes u q = false -> includes u p = false.
Proof.
  intros Hpq Hq. destruct (includes u p) eqn:Hp; [|reflexivity].
  rewrite (includes_trans u p q Hp Hpq) in Hq. discriminate.
Qed.

Lemma mentions_extend (ua a b : string) (tokens : list string) :
  mentions ua tokens = true -> mentions (a +:+ ua +:+ b) tokens = true.
Proof.
  unfold mentions. rewrite !existsb_exists. intros (p & Hin & Hp).
  exists p. split; [exact Hin |].
  rewrite !toLowerCase_append. apply includes_extend. exact Hp.
Qed.

(** X16.  [detectBot] depends on nine of its sixteen patterns only: a user
    agent is taken for a bot exactly when, in lower case, it contains one of
    bot, crawler, spider, scraper, curl, wget, python, slurp and
    facebookexternalhit (the seven other patterns contain [bot] or
    [spider]).  The answer does not depend on the case of the letters, and
    text added before or after a bot's user agent leaves it a bot. *)
Theorem detectBot_by_tokens (userAgent before after : string) :
  Analytics.detectBot userAgent =
    mentions userAgent ["bot"; "crawler"; "spider"; "scraper"; "curl"; "wget"; "python";
                        "slurp"; "facebookexternalhit"] /\
  Analytics.detectBot (toLowerCase userAgent) = Analytics.detectBot userAgent /\
  (Analytics.detectBot userAgent = true ->
   Analytics.detectBot (before +:+ userAgent +:+ after) = true).
Proof.
  split; [|split].
  - unfold Analytics.detectBot, Analytics.botPatterns, mentions.
    generalize (toLowerCase userAgent). intros u. cbn [existsb].
    destruct (includes u "bot") eqn:Hbot; [reflexivity |].
    rewrite (includes_absent u "googlebot" "bot" eq_refl Hbot),
            (includes_absent u "bingbot" "bot" eq_refl Hbot),
            (includes_absent u "duckduckbot" "bot" eq_refl Hbot),
            (includes_absent u "yandexbot" "bot" eq_refl Hbot),
            (includes_absent u "twitterbot" "bot" eq_refl Hbot),
            (includes_absent u "linkedinbot" "bot" eq_refl Hbot).
    destruct (includes u "crawler"); [reflexivity |].
    destruct (includes u "spider") eqn:Hspider; [reflexivity |].
    rewrite (includes_absent u "baiduspider" "spider" eq_refl Hspider).
    destruct (includes u "scraper"), (includes u "curl"), (includes u "wget"),
             (includes u "python"), (includes u "slurp"),
             (includes u "facebookexternalhit"); reflexivity.
  - unfold Analytics.detectBot. rewrite toLowerCase_idem. reflexivity.
  - apply (mentions_extend userAgent before after Analytics.botPatterns).
Qed.

(** X17.  [detectDeviceType] answers by precedence: mobile when the user
    agent mentions mobile, android or iphone (also when it mentions ipad or
    tablet as well), else tablet for tablet or ipad, else tv for any
    occurrence of the letters [tv] (the pattern [smart-tv] adds nothing),
    and desktop exactly when it mentions none of the six tokens. *)
Theorem detectDeviceType_by_tokens (userAgent : string) :
  Analytics.detectDeviceType userAgent =
    (if mentions userAgent ["mobile"; "android"; "iphone"] then "mobile"
     else if mentions userAgent ["tablet"; "ipad"] then "tablet"
     else if mentions userAgent ["tv"] then "tv"
     else "desktop") /\
  (Analytics.detectDeviceType userAgent = "desktop" <->
   mentions userAgent ["mobile"; "android"; "iphone"; "tablet"; "ipad"; "tv"] = false).
Proof.
  unfold Analytics.detectDeviceType, mentions.
  generalize (toLowerCase userAgent). intros u. cbn [existsb].
  destruct (includes u "mobile"), (includes u "android"), (includes u "iphone");
    cbn [orb]; try (split; [reflexivity | split; discriminate]).
  destruct (includes u "tablet"), (includes u "ipad");
    cbn [orb]; try (split; [reflexivity | split; discriminate]).
  destruct (includes u "tv") eqn:Htv.
  - rewrite orb_true_r. split; [reflexivity | split; discriminate].
  - rewrite (includes_absent u "smart-tv" "tv" eq_refl Htv).
    split; [reflexivity | split; reflexivity].
Qed.

(** ** The routes in front of the service *)

Lemma all_chars_weaken (p q : ascii -> bool) (s : string) :
  (forall c, p c = true -> q c = true) -> all_chars p s = true -> all_chars q s = true.
Proof.
  intros Hpq. induction s as [|c s IH]; simpl; [reflexivity |].
  rewrite !andb_true_iff. intros [Hc Hs]. auto.
Qed.

Lemma all_chars_app (p : ascii -> bool) (a b : string) :
  all_chars p (a +:+ b) = all_chars p a && all_chars p b.
Proof.
  induction a as [|x a IH]; [reflexivity |].
  rewrite append_cons. simpl. rewrite IH, andb_assoc. reflexivity.
Qed.

Lemma alphanum_is_alias_char (c : ascii) :
  UrlRoutes.alphanum_char c = true -> alias_char c = true.
Proof.
  unfold UrlRoutes.alphanum_char, alias_char. intros H.
  rewrite !orb_true_iff in *. tauto.
Qed.

(** X18.  The creation route is stricter about aliases than the service.
    An alias that [createUrlSchema] accepts passes the checks of
    [generateShortCode]: it is returned as the short code unless a link
    already has it (the store answering).  An alias with a hyphen or an
    underscore, which the service allows, never passes the route. *)
Theorem route_alias_passes_the_service (env : UrlService.Env) (w : World) (alias : string) :
  (UrlRoutes.createUrlSchema_customAlias (Some alias) = true ->
   well_formed_alias alias = true /\
   (Db.up (db w) = true -> ~ occupied (db w) alias ->
    snd (generateShortCode urlService env w (Some alias) 5) = Ok alias)) /\
  (includes alias "-" = true \/ includes alias "_" = true ->
   UrlRoutes.createUrlSchema_customAlias (Some alias) = false).
Proof.
  split.
  - unfold UrlRoutes.createUrlSchema_customAlias. rewrite !andb_true_iff.
    intros [[Hchars Hmin] Hmax].
    assert (Hwf : well_formed_alias alias = true).
    { unfold well_formed_alias. rewrite Hmin, Hmax. simpl.
      apply (all_chars_weaken _ _ _ alphanum_is_alias_char Hchars). }
    split; [exact Hwf |]. intros Hup Hfree.
    rewrite (generateShortCode_alias_checks env w alias 5
               (well_formed_alias_nonempty alias Hwf)).
    rewrite Hwf, Hup. simpl.
    destruct (Db.by_code_or_alias alias (db w)) eqn:Hrows; [reflexivity |].
    exfalso. apply Hfree. apply by_code_or_alias_occupied. rewrite Hrows. discriminate.
  - unfold UrlRoutes.createUrlSchema_customAlias.
    intros [H | H]; apply includes_iff in H as (a & b & ->);
      rewrite !all_chars_app; simpl; rewrite andb_false_r; reflexivity.
Qed.

Lemma assign_keeps_fixed (i : Db.Input) (r : Db.UrlRow) (f : string * Db.Val) :
  fixed_columns (Db.assign i r f) = fixed_columns r.
Proof.
  destruct f as [column v]. unfold Db.assign.
  destruct (String.eqb column "title"); [reflexivity |].
  destruct (String.eqb column "description"); [reflexivity |].
  destruct (String.eqb column "is_active"); [reflexivity |].
  destruct (String.eqb column "is_public"); [reflexivity |].
  destruct (String.eqb column "expires_at"); reflexivity.
Qed.

Lemma assignments_keep_fixed (i : Db.Input) (fields : list (string * Db.Val)) (r : Db.UrlRow) :
  fixed_columns (fold_left (Db.assign i) fields r) = fixed_columns r.
Proof.
  revert r. induction fields as [|f fields IH]; intros r; simpl; [reflexivity |].
  rewrite IH. apply assign_keeps_fixed.
Qed.

(** The rows after an [UPDATE] that went through. *)
Lemma updateUrl_rows (this : UrlService.t) (w : World) (now : Z) (urlId : Z)
    (userId : option Z) (updates : gmap string Db.Val) :
  Db.urls (db (fst (updateUrl this w now urlId userId updates))) = Db.urls (db w) \/
  Db.urls (db (fst (updateUrl this w now urlId userId updates))) =
    map (fun r => if Db.owned urlId userId r
                  then Db.set_updated_at (fold_left (Db.assign (Db.input (db w))) (updateFields updates) r) now
                  else r) (Db.urls (db w)).
Proof.
  unfold updateUrl, updateUrl_try.
  destruct (updateFields updates) as [|f fields]; [left; reflexivity |].
  unfold Db.update_owned.
  destruct (negb (Db.up (db w))); [left; reflexivity |].
  destruct (negb (forallb (Db.fits (Db.input (db w))) (f :: fields))); [left; reflexivity |].
  right. destruct (map _ (List.filter (Db.owned urlId userId) (Db.urls (db w))));
    reflexivity.
Qed.

(** X19.  Whatever the patch, and whether it returns or throws,
    [updateUrl] changes no link's id, owner, destination, short code,
    alias, click count, password hash, creation time or last access, adds
    and removes no row, and leaves every row as it is that is not the
    caller's row with the given id. *)
Theorem updateUrl_keeps_fixed_columns (this : UrlService.t) (w : World) (now : Z)
    (urlId : Z) (userId : option Z) (updates : gmap string Db.Val) :
  let rows := Db.urls (db (fst (updateUrl this w now urlId userId updates))) in
  map fixed_columns rows = map fixed_columns (Db.urls (db w)) /\
  List.filter (fun r => negb (Db.owned urlId userId r)) rows =
  List.filter (fun r => negb (Db.owned urlId userId r)) (Db.urls (db w)).
Proof.
  intros rows. subst rows.
  destruct (updateUrl_rows this w now urlId userId updates) as [-> | ->];
    [split; reflexivity |].
  split.
  - rewrite map_map. apply map_ext. intros r.
    destruct (Db.owned urlId userId r); [|reflexivity].
    change (fixed_columns (Db.set_updated_at ?x now)) with (fixed_columns x).
    apply assignments_keep_fixed.
  - induction (Db.urls (db w)) as [|r l IH]; [reflexivity |].
    cbn [map List.filter].
    destruct (Db.owned urlId userId r) eqn:Hown.
    + assert (Hsame : Db.owned urlId userId
                (Db.set_updated_at (fold_left (Db.assign (Db.input (db w))) (updateFields updates) r) now)
              = true).
      { pose proof (assignments_keep_fixed (Db.input (db w)) (updateFields updates) r) as Hfix.
        unfold fixed_columns in Hfix. injection Hfix as Hid Huser _ _ _ _ _ _ _.
        unfold Db.owned in *. simpl. rewrite Hid, Huser. exact Hown. }
      rewrite Hsame. simpl. exact IH.
    + rewrite Hown. simpl. rewrite IH. reflexivity.
Qed.

Lemma assign_title_or_description (i : Db.Input) (r : Db.UrlRow) (column : string) (v : Db.Val) :
  column = "title" \/ column = "description" ->
  Db.is_active (Db.assign i r (column, v)) = Db.is_active r /\
  Db.is_public (Db.assign i r (column, v)) = Db.is_public r /\
  Db.expires_at (Db.assign i r (column, v)) = Db.expires_at r.
Proof. intros [-> | ->]; repeat split; reflexivity. Qed.

Lemma assignments_title_or_description (i : Db.Input) (fields : list (string * Db.Val)) (r : Db.UrlRow) :
  (forall f, In f fields -> fst f = "title" \/ fst f = "description") ->
  Db.is_active (fold_left (Db.assign i) fields r) = Db.is_active r /\
  Db.is_public (fold_left (Db.assign i) fields r) = Db.is_public r /\
  Db.expires_at (fold_left (Db.assign i) fields r) = Db.expires_at r.
Proof.
  revert r. induction fields as [|[column v] fields IH]; intros r H; cbn [fold_left];
    [auto |].
  destruct (IH (Db.assign i r (column, v))) as (Ha & Hp & He).
  { intros f Hf. apply H. right. exact Hf. }
  destruct (assign_title_or_description i r column v) as (Ha' & Hp' & He').
  { apply (H (column, v)). left. reflexivity. }
  rewrite Ha, Hp, He. auto.
Qed.

(** The fields the service takes from a body the route has validated. *)
Lemma validated_fields (joi : UrlRoutes.Joi) (now : Z) (body value : gmap string Db.Val)
    (f : string * Db.Val) :
  UrlRoutes.updateUrlSchema joi now body = Some value ->
  In f (updateFields value) -> fst f = "title" \/ fst f = "description".
Proof.
  intros Hvalid. unfold updateFields. intros Hin.
  apply filter_In in Hin as [Hin Hallowed].
  destruct f as [key v]. apply list_elem_of_In, elem_of_map_to_list in Hin.
  destruct (updateUrlSchema_lookup joi now body value key v Hvalid Hin) as (sent & _ & Hall).
  simpl in *. unfold allowedUpdates in Hallowed.
  cbn [existsb] in Hallowed.
  destruct (String.eqb key "title") eqn:Ht; [left; apply String.eqb_eq, Ht |].
  destruct (String.eqb key "description") eqn:Hd; [right; apply String.eqb_eq, Hd |].
  exfalso. simpl in Hallowed.
  destruct (String.eqb key "isActive") eqn:H1;
    [apply String.eqb_eq in H1; subst key; discriminate Hallowed |].
  destruct (String.eqb key "isPublic") eqn:H2;
    [apply String.eqb_eq in H2; subst key; discriminate Hallowed |].
  simpl in Hall.
  destruct (String.eqb key "expiresAt") eqn:H3;
    [apply String.eqb_eq in H3; subst key; discriminate Hallowed | discriminate Hall].
Qed.

(** X20.  Through the update route only a link's title and description
    (and its [updated_at]) can change: whatever the body, no request to
    [PUT /:id] changes any link's [is_active], [is_public] or [expires_at],
    nor any of the columns that [updateUrl] never touches. *)
Theorem put_changes_title_and_description_only (joi : UrlRoutes.Joi) (this : UrlService.t)
    (w : World) (now : Z) (urlId userId : Z) (body : gmap string Db.Val) :
  let columns r := (fixed_columns r, Db.is_active r, Db.is_public r, Db.expires_at r) in
  map columns (Db.urls (db (fst (UrlRoutes.put joi this w now urlId userId body)))) =
  map columns (Db.urls (db w)).
Proof.
  intros columns. unfold UrlRoutes.put.
  destruct (UrlRoutes.updateUrlSchema joi now body) as [value|] eqn:Hvalid; [|reflexivity].
  assert (Hkeep : map columns (Db.urls (db (fst (updateUrl this w now urlId (Some userId)
                                                   value)))) =
                  map columns (Db.urls (db w))).
  { destruct (updateUrl_rows this w now urlId (Some userId) value) as [-> | ->];
      [reflexivity |].
    rewrite map_map. apply map_ext. intros r.
    destruct (Db.owned urlId (Some userId) r); [|reflexivity].
    unfold columns.
    change (fixed_columns (Db.set_updated_at ?x now)) with (fixed_columns x).
    change (Db.is_active (Db.set_updated_at ?x now)) with (Db.is_active x).
    change (Db.is_public (Db.set_updated_at ?x now)) with (Db.is_public x).
    change (Db.expires_at (Db.set_updated_at ?x now)) with (Db.expires_at x).
    destruct (assignments_title_or_description (Db.input (db w)) (updateFields value) r) as (Ha & Hp & He).
    { intros f Hf. apply (validated_fields joi now body value f Hvalid Hf). }
    rewrite assignments_keep_fixed, Ha, Hp, He. reflexivity. }
  destruct (updateUrl this w now urlId (Some userId) value) as [w1 [url|e]]; exact Hkeep.
Qed.

(** ** The creation quota *)

Lemma filter_split_length {A : Type} (p q : A -> bool) (l : list A) :
  length (List.filter p l) =
  (length (List.filter p (List.filter q l)) +
   length (List.filter p (List.filter (fun x => negb (q x)) l)))%nat.
Proof.
  induction l as [|x l IH]; [reflexivity |].
  cbn [List.filter]. destruct (q x); cbn [negb List.filter]; destruct (p x);
    cbn [length]; lia.
Qed.

Lemma urlQuotaCheck_finite (d : Db.t) (u : Quota.User) (q : Z) :
  Db.up d = true -> Quota.userQuota (Quota.role u) = Quota.Finite q ->
  snd (Quota.urlQuotaCheck d (Some u)) =
  let n := Quota.active_count (Quota.user_id u) d in
  if q <=? n
  then Quota.Exceeded 403
         "URL creation quota exceeded. Please upgrade your account or delete some URLs." q n
  else Quota.Next (Some (Quota.mkInfo n (Quota.Finite q) (Quota.Finite (q - n)))).
Proof.
  intros Hup Hq. unfold Quota.urlQuotaCheck, Db.query. rewrite Hup, Hq. cbv zeta.
  destruct (q <=? _); reflexivity.
Qed.

(** X21.  Every link a user creates counts against that user's quota and
    nobody else's: a successful [createUrl] raises the number that
    [urlQuotaCheck] counts by one for the link's owner only.  The creation
    that uses up a finite quota is let through with one remaining, and the
    check refuses the next one with status 403. *)
Theorem createUrl_counts_against_quota (this : UrlService.t) (env : UrlService.Env)
    (w w' : World) (now : Z) (data : CreateData) (view : UrlView) :
  createUrl this env w now data = (w', Ok view) ->
  (forall u, Quota.active_count u (db w') =
             Quota.active_count u (db w) +
             (if Db.sql_eq_id (c_userId data) (Some u) then 1 else 0)) /\
  (forall user q,
     c_userId data = Some (Quota.user_id user) ->
     Quota.userQuota (Quota.role user) = Quota.Finite q ->
     Quota.active_count (Quota.user_id user) (db w) = q - 1 ->
     snd (Quota.urlQuotaCheck (db w) (Some user)) =
       Quota.Next (Some (Quota.mkInfo (q - 1) (Quota.Finite q) (Quota.Finite 1))) /\
     snd (Quota.urlQuotaCheck (db w') (Some user)) =
       Quota.Exceeded 403
         "URL creation quota exceeded. Please upgrade your account or delete some URLs."
         q q).
Proof.
  intros Hcreate.
  destruct (createUrl_ok_shape _ _ _ _ _ _ _ Hcreate)
    as (row & Hrows & Hup & Hup' & _ & _ & _ & Hactive & _ & _ & Howner & _).
  assert (Hcount : forall u, Quota.active_count u (db w') =
                             Quota.active_count u (db w) +
                             (if Db.sql_eq_id (c_userId data) (Some u) then 1 else 0)).
  { intros u. unfold Quota.active_count. rewrite Hrows, List.filter_app, length_app.
    cbn [List.filter]. rewrite Howner, Hactive.
    destruct (Db.sql_eq_id (c_userId data) (Some u)); cbn [andb Db.sql_is_true length];
      rewrite Nat2Z.inj_add; reflexivity. }
  split; [exact Hcount |].
  intros user q Howns Hq Hn. split.
  - rewrite (urlQuotaCheck_finite _ _ q Hup Hq). cbv zeta. rewrite Hn.
    replace (q <=? q - 1) with false by (symmetry; apply Z.leb_gt; lia).
    replace (q - (q - 1)) with 1 by lia. reflexivity.
  - rewrite (urlQuotaCheck_finite _ _ q Hup' Hq). cbv zeta.
    rewrite Hcount, Hn, Howns. simpl. rewrite Z.eqb_refl.
    replace (q - 1 + 1) with q by lia. rewrite Z.leb_refl. reflexivity.
Qed.

Lemma createUrl_counts_against_quota_witness :
  let data := mkCreateData "https://example.com/new" (Some "promo") (Some 7)
                           None None None None in
  let w' := fst (createUrl urlService Fixtures.env (Fixtures.store []) 5000 data) in
  Quota.active_count 7 (db w') = 1 /\ Quota.active_count 8 (db w') = 0.
Proof.
  intros data w'.
  pose (view := match snd (createUrl urlService Fixtures.env (Fixtures.store []) 5000 data) with
                | Ok v => v
                | Throw _ => mkUrlView 0 "" "" "" None None None None None 0 0 None None
                end).
  destruct (createUrl_counts_against_quota urlService Fixtures.env (Fixtures.store []) w'
              5000 data view) as [Hcount _].
  - vm_compute. reflexivity.
  - split; rewrite Hcount; reflexivity.
Defined.

(** X22.  Deleting frees quota: after the owner's [deleteUrl] of an
    active link succeeded (ids unique), [urlQuotaCheck] counts one link
    fewer for the owner, so a user who was refused at the limit is let
    through again, with one remaining. *)
Theorem deleteUrl_frees_quota (w w' : World) (now : Z) (urlId : Z) (user : Quota.User)
    (r : Db.UrlRow) (q : Z) :
  unique_ids (db w) ->
  In r (Db.urls (db w)) -> Db.owned urlId (Some (Quota.user_id user)) r = true ->
  Db.is_active r = Some true ->
  deleteUrl w now urlId (Some (Quota.user_id user)) = (w', Ok true) ->
  Quota.active_count (Quota.user_id user) (db w') =
    Quota.active_count (Quota.user_id user) (db w) - 1 /\
  (Quota.userQuota (Quota.role user) = Quota.Finite q ->
   Quota.active_count (Quota.user_id user) (db w) = q ->
   snd (Quota.urlQuotaCheck (db w) (Some user)) =
     Quota.Exceeded 403
       "URL creation quota exceeded. Please upgrade your account or delete some URLs."
       q q /\
   snd (Quota.urlQuotaCheck (db w') (Some user)) =
     Quota.Next (Some (Quota.mkInfo (q - 1) (Quota.Finite q) (Quota.Finite 1)))).
Proof.
  intros Hids Hin Hown Hactive Hdel.
  destruct (deleteUrl_ok_inv _ _ _ _ _ Hdel) as (Hup & Hup' & Hrows).
  assert (Hcount : Quota.active_count (Quota.user_id user) (db w') =
                   Quota.active_count (Quota.user_id user) (db w) - 1).
  { unfold Quota.active_count. rewrite Hrows.
    rewrite (filter_split_length _ (Db.owned urlId (Some (Quota.user_id user)))
               (Db.urls (db w))).
    rewrite (filter_owned_single _ _ _ _ Hids Hin Hown). cbn [List.filter].
    assert (Huser : Db.sql_eq_id (Db.user_id r) (Some (Quota.user_id user)) = true).
    { unfold Db.owned in Hown. apply andb_true_iff in Hown as [_ H]. exact H. }
    rewrite Huser, Hactive. cbn [andb Db.sql_is_true length]. lia. }
  split; [exact Hcount |].
  intros Hq Hn. split.
  - rewrite (urlQuotaCheck_finite _ _ q Hup Hq). cbv zeta. rewrite Hn, Z.leb_refl.
    reflexivity.
  - rewrite (urlQuotaCheck_finite _ _ q Hup' Hq). cbv zeta. rewrite Hcount, Hn.
    replace (q <=? q - 1) with false by (symmetry; apply Z.leb_gt; lia).
    replace (q - (q - 1)) with 1 by lia. reflexivity.
Qed.

Lemma deleteUrl_frees_quota_witness :
  let w := Fixtures.store [Fixtures.link 1 (Some 7) "promo" true None None;
                           Fixtures.link 2 (Some 7) "sale" true None None] in
  Quota.active_count 7 (db (fst (deleteUrl w 5000 1 (Some 7)))) = 1.
Proof.
  intros w.
  destruct (deleteUrl_frees_quota w (fst (deleteUrl w 5000 1 (Some 7))) 5000 1
              (Quota.mkUser 7 "user") (Fixtures.link 1 (Some 7) "promo" true None None) 100)
    as [Hcount _].
  - repeat constructor; simpl; intuition discriminate.
  - left. reflexivity.
  - reflexivity.
  - reflexivity.
  - reflexivity.
  - exact Hcount.
Defined.

(** X23.  [urlQuotaCheck] refuses a creation only for an authenticated
    user, with the store answering, whose role has a finite quota (100, or
    10000 for [premium]) and who has at least that many active links; the
    status is then 403.  An anonymous request, a failing query and the role
    [admin] always go on, and the check adds or changes no link. *)
Theorem urlQuotaCheck_refuses_at_the_limit_only (d : Db.t) (user : option Quota.User) :
  (forall status message q n,
     snd (Quota.urlQuotaCheck d user) = Quota.Exceeded status message q n ->
     exists u, user = Some u /\ Db.up d = true /\ status = 403 /\
               n = Quota.active_count (Quota.user_id u) d /\ q <= n /\
               (q = 10000 /\ Quota.role u = "premium" \/
                q = 100 /\ Quota.role u <> "premium" /\ Quota.role u <> "admin")) /\
  (user = None \/ Db.up d = false \/ (exists u, user = Some u /\ Quota.role u = "admin") ->
   exists info, snd (Quota.urlQuotaCheck d user) = Quota.Next info) /\
  Db.urls (fst (Quota.urlQuotaCheck d user)) = Db.urls d.
Proof.
  split; [|split].
  - intros status message q n. unfold Quota.urlQuotaCheck, Db.query.
    destruct user as [u|]; [|discriminate].
    destruct (Db.up d); [|discriminate].
    unfold Quota.userQuota.
    destruct (String.eqb (Quota.role u) "user") eqn:Huser.
    { destruct (100 <=? _) eqn:Hle; [|discriminate]. intros [= <- _ <- <-].
      apply String.eqb_eq in Huser. exists u. rewrite Huser.
      repeat split; try reflexivity; [apply Z.leb_le, Hle |].
      right. repeat split; discriminate. }
    destruct (String.eqb (Quota.role u) "premium") eqn:Hpremium.
    { destruct (10000 <=? _) eqn:Hle; [|discriminate]. intros [= <- _ <- <-].
      apply String.eqb_eq in Hpremium. exists u.
      repeat split; try reflexivity; [apply Z.leb_le, Hle |]. left. auto. }
    destruct (String.eqb (Quota.role u) "admin") eqn:Hadmin; [discriminate |].
    destruct (existsb _ Quota.inherited); [discriminate |].
    destruct (100 <=? _) eqn:Hle; [|discriminate]. intros [= <- _ <- <-].
    apply String.eqb_neq in Hpremium, Hadmin. exists u.
    repeat split; try reflexivity; [apply Z.leb_le, Hle |]. right. auto.
  - unfold Quota.urlQuotaCheck, Db.query.
    intros [-> | [Hdown | (u & -> & Hadmin)]]; [eauto | |].
    + destruct user as [u|]; [|eauto]. rewrite Hdown. eauto.
    + destruct (Db.up d); [|eauto]. rewrite Hadmin. eauto.
  - unfold Quota.urlQuotaCheck, Db.query. destruct user as [u|]; [|reflexivity].
    destruct (Db.up d); [|reflexivity].
    destruct (Quota.userQuota (Quota.role u)); [destruct (_ <=? _) |..]; reflexivity.
Qed.

(** ** Login and the lockout *)

Lemma with_lockouts_same (w : AuthService.World) :
  AuthService.with_lockouts w (AuthService.lockouts w) = w.
Proof. destruct w; reflexivity. Qed.

Lemma ceil_div_pos (x y : Z) : 0 < y -> 0 < x -> 0 < AuthService.ceil_div x y.
Proof.
  intros Hy Hx. unfold AuthService.ceil_div.
  assert (- x / y < 0) by (apply Z.div_lt_upper_bound; lia). lia.
Qed.

(** One more failed login of an existing, active account that is not
    locked out. *)
Lemma failed_login_step (this : AuthService.t) (env : AuthService.Env)
    (w : AuthService.World) (t : Z) (address password : string) (ip ua : option string)
    (user : AuthService.UserRow) (rest : list AuthService.UserRow)
    (prior : option AuthService.LockoutData) :
  let key := AuthService.lockoutKey (toLowerCase address) ip in
  let k := match prior with Some d => AuthService.attempts d | None => 0 end in
  0 < AuthService.lockoutDuration this ->
  Redis.up (AuthService.lockouts w) = true -> AuthService.up w = true ->
  AuthService.by_email (toLowerCase address) w = user :: rest ->
  AuthService.is_active user = Some true ->
  AuthService.bcrypt_compare env password (AuthService.password_hash user) = false ->
  Redis.get (AuthService.lockouts w) t key = prior ->
  k < AuthService.maxLoginAttempts this ->
  (forall d, prior = Some d -> AuthService.lockedUntil d = None) ->
  exists w1,
    AuthService.login this env w t address password ip ua =
      (w1, Throw (AppError "Invalid email or password" 401)) /\
    AuthService.users w1 = AuthService.users w /\
    AuthService.up w1 = true /\
    Redis.up (AuthService.lockouts w1) = true /\
    Redis.docs (AuthService.lockouts w1) !! key =
      Some (AuthService.mkLockout (k + 1) (Some t)
              (if AuthService.maxLoginAttempts this <=? k + 1
               then Some (t + AuthService.lockoutDuration this * 1000) else None),
            Some (t + 1000 * AuthService.lockoutDuration this)).
Proof.
  intros key k Hdur Hcache Hdb Huser Hactive Hwrong Hget Hk Hnone.
  unfold AuthService.login, AuthService.login_try, AuthService.checkAccountLockout.
  fold key. rewrite Hget.
  assert (Hpass : match prior with
                  | Some lockoutData =>
                      if AuthService.maxLoginAttempts this <=? AuthService.attempts lockoutData
                      then match AuthService.lockedUntil lockoutData with
                           | Some until =>
                               if 0 <? AuthService.ceil_div (until - t) 1000
                               then (AuthService.lockouts w,
                                     Throw (AppError
                                       (AuthService.locked_message
                                          (AuthService.ceil_div (until - t) 1000)) 429))
                               else (fst (Redis.del (AuthService.lockouts w) t key), Ok tt)
                           | None => (fst (Redis.del (AuthService.lockouts w) t key), Ok tt)
                           end
                      else (AuthService.lockouts w, Ok tt)
                  | None => (AuthService.lockouts w, Ok tt)
                  end = (AuthService.lockouts w, Ok tt)).
  { destruct prior as [d|]; [|reflexivity]. subst k.
    replace (AuthService.maxLoginAttempts this <=? AuthService.attempts d) with false
      by (symmetry; apply Z.leb_gt; exact Hk).
    reflexivity. }
  rewrite Hpass, with_lockouts_same, Hdb, Huser, Hactive, Hwrong. simpl.
  eexists. split; [reflexivity |].
  unfold AuthService.failed, AuthService.recordFailedLogin. simpl. fold key. rewrite Hget.
  unfold Redis.set. rewrite Hcache.
  replace (AuthService.lockoutDuration this =? 0) with false
    by (symmetry; apply Z.eqb_neq; lia).
  replace (AuthService.lockoutDuration this <? 0) with false
    by (symmetry; apply Z.ltb_ge; lia).
  simpl. repeat split; [exact Hdb | exact Hcache |].
  rewrite lookup_insert_eq. f_equal. f_equal.
  destruct prior as [d|]; simpl; [|reflexivity].
  subst k. rewrite (Hnone d eq_refl). reflexivity.
Qed.

Lemma last_cons_default {A : Type} (l : list A) (x d : A) :
  List.last (x :: l) d = List.last l x.
Proof.
  revert x d. induction l as [|y l IH]; intros x d; [reflexivity |].
  change (List.last (x :: y :: l) d) with (List.last (y :: l) d).
  rewrite (IH y d), (IH y x). reflexivity.
Qed.

Lemma logins_cons (this : AuthService.t) (env : AuthService.Env) (w : AuthService.World)
    (address : string) (ip ua : option string) (now : Z) (password : string)
    (rest : list (Z * string)) :
  AuthService.logins this env w address ip ua ((now, password) :: rest) =
  let '(w1, result) := AuthService.login this env w now address password ip ua in
  let '(w2, results) := AuthService.logins this env w1 address ip ua rest in
  (w2, result :: results).
Proof. reflexivity. Qed.

Lemma failures_accumulate (this : AuthService.t) (env : AuthService.Env)
    (address : string) (ip ua : option string)
    (user : AuthService.UserRow) (rest : list AuthService.UserRow)
    (more : list (Z * string)) :
  forall (w : AuthService.World) (first : Z) (p0 : string)
         (prior : option AuthService.LockoutData),
  let key := AuthService.lockoutKey (toLowerCase address) ip in
  let k := match prior with Some d => AuthService.attempts d | None => 0 end in
  let n := k + Z.of_nat (S (length more)) in
  let final := List.last (map fst more) first in
  0 < AuthService.lockoutDuration this ->
  Redis.up (AuthService.lockouts w) = true -> AuthService.up w = true ->
  AuthService.by_email (toLowerCase address) w = user :: rest ->
  AuthService.is_active user = Some true ->
  List.Forall (fun try => AuthService.bcrypt_compare env (snd try)
                            (AuthService.password_hash user) = false)
              ((first, p0) :: more) ->
  paced (1000 * AuthService.lockoutDuration this) first (map fst more) ->
  Redis.get (AuthService.lockouts w) first key = prior ->
  (forall d, prior = Some d -> AuthService.lockedUntil d = None) ->
  n <= AuthService.maxLoginAttempts this ->
  let result := AuthService.logins this env w address ip ua ((first, p0) :: more) in
  List.Forall (fun r => r = Throw (AppError "Invalid email or password" 401)) (snd result) /\
  AuthService.users (fst result) = AuthService.users w /\
  AuthService.up (fst result) = true /\
  Redis.up (AuthService.lockouts (fst result)) = true /\
  Redis.docs (AuthService.lockouts (fst result)) !! key =
    Some (AuthService.mkLockout n (Some final)
            (if AuthService.maxLoginAttempts this <=? n
             then Some (final + AuthService.lockoutDuration this * 1000) else None),
          Some (final + 1000 * AuthService.lockoutDuration this)).
Proof.
  induction more as [|[t2 p2] more IH];
    intros w first p0 prior key k n final Hdur Hcache Hdb Huser Hactive Hwrong Hpaced
           Hget Hnone Hn.
  - pose proof (List.Forall_inv Hwrong) as Hw0. simpl in Hw0.
    destruct (failed_login_step this env w first address p0 ip ua user rest prior
                Hdur Hcache Hdb Huser Hactive Hw0 Hget) as (w1 & Hlogin & Hu & Hd & Hc & Hdoc).
    { subst n k. cbn [length] in Hn. lia. }
    { exact Hnone. }
    simpl. rewrite Hlogin. simpl.
    split; [constructor; [reflexivity | constructor] |].
    repeat split; try assumption; exact Hdoc.
  - pose proof (List.Forall_inv Hwrong) as Hw0. simpl in Hw0.
    pose proof (List.Forall_inv_tail Hwrong) as Hrest.
    simpl in Hpaced. destruct Hpaced as [Ht2 Hpaced].
    destruct (failed_login_step this env w first address p0 ip ua user rest prior
                Hdur Hcache Hdb Huser Hactive Hw0 Hget) as (w1 & Hlogin & Hu & Hd & Hc & Hdoc).
    { subst n k. cbn [length] in Hn. lia. }
    { exact Hnone. }
    change (match prior with Some d => AuthService.attempts d | None => 0 end)
      with k in Hdoc.
    replace (AuthService.maxLoginAttempts this <=? k + 1) with false in Hdoc
      by (symmetry; apply Z.leb_gt; subst n; cbn [length] in Hn; lia).
    assert (Hseen : Redis.get (AuthService.lockouts w1) t2 key =
                    Some (AuthService.mkLockout (k + 1) (Some first) None)).
    { unfold Redis.get, Redis.client_get. rewrite Hc. fold key in Hdoc. rewrite Hdoc.
      simpl. replace (t2 <? first + 1000 * AuthService.lockoutDuration this) with true
        by (symmetry; apply Z.ltb_lt; lia).
      reflexivity. }
    assert (Huser1 : AuthService.by_email (toLowerCase address) w1 = user :: rest).
    { unfold AuthService.by_email in *. rewrite Hu. exact Huser. }
    destruct (IH w1 t2 p2 (Some (AuthService.mkLockout (k + 1) (Some first) None))
                Hdur Hc Hd Huser1 Hactive Hrest Hpaced Hseen)
      as (Hall & Hu2 & Hd2 & Hc2 & Hdoc2).
    { intros d [= <-]. reflexivity. }
    { simpl. subst n. cbn [length] in Hn. lia. }
    cbv zeta. rewrite logins_cons, Hlogin.
    destruct (AuthService.logins this env w1 address ip ua ((t2, p2) :: more))
      as [w2 results] eqn:Hlogins.
    cbn [fst snd] in *. split; [constructor; [reflexivity | exact Hall] |].
    split; [congruence |]. split; [exact Hd2 |]. split; [exact Hc2 |].
    fold key in Hdoc2. rewrite Hdoc2. subst n final.
    cbn [map fst AuthService.attempts length]. rewrite last_cons_default.
    replace (k + 1 + Z.of_nat (S (length more)))
      with (k + Z.of_nat (S (S (length more)))) by lia.
    reflexivity.
Qed.

(** X24.  The lockout.  When the address and IP have no failures on
    record and [maxLoginAttempts] logins of an existing, active account
    fail on the password, each less than [lockoutDuration] seconds after the
    one before, each of them is answered 401, and from then on every login
    for that address and IP made less than [lockoutDuration] seconds after
    the last failure is refused with 429, also with the right password,
    without a query and without changing anything. *)
Theorem login_locks_after_max_failures (this : AuthService.t) (env : AuthService.Env)
    (w : AuthService.World) (address : string) (ip ua : option string)
    (user : AuthService.UserRow) (rest : list AuthService.UserRow)
    (first : Z) (p0 : string) (more : list (Z * string)) :
  let key := AuthService.lockoutKey (toLowerCase address) ip in
  let duration := AuthService.lockoutDuration this in
  let final := List.last (map fst more) first in
  let result := AuthService.logins this env w address ip ua ((first, p0) :: more) in
  0 < duration ->
  AuthService.maxLoginAttempts this = Z.of_nat (S (length more)) ->
  Redis.up (AuthService.lockouts w) = true -> AuthService.up w = true ->
  Redis.docs (AuthService.lockouts w) !! key = None ->
  AuthService.by_email (toLowerCase address) w = user :: rest ->
  AuthService.is_active user = Some true ->
  List.Forall (fun try => AuthService.bcrypt_compare env (snd try)
                            (AuthService.password_hash user) = false)
              ((first, p0) :: more) ->
  paced (1000 * duration) first (map fst more) ->
  List.Forall (fun r => r = Throw (AppError "Invalid email or password" 401)) (snd result) /\
  forall t password, t < final + 1000 * duration ->
    AuthService.login this env (fst result) t address password ip ua =
    (fst result,
     Throw (AppError (AuthService.locked_message
                        (AuthService.ceil_div (final + duration * 1000 - t) 1000)) 429)).
Proof.
  intros key duration final result Hdur Hmax Hcache Hdb Hfresh Huser Hactive Hwrong Hpaced.
  assert (Hget : Redis.get (AuthService.lockouts w) first key = None).
  { unfold Redis.get, Redis.client_get. rewrite Hcache, Hfresh. reflexivity. }
  destruct (failures_accumulate this env address ip ua user rest more w first p0 None
              Hdur Hcache Hdb Huser Hactive Hwrong Hpaced Hget)
    as (Hall & _ & _ & Hc & Hdoc).
  { discriminate. }
  { rewrite Hmax. lia. }
  fold result in Hall, Hc, Hdoc. fold key in Hdoc. fold final in Hdoc.
  split; [exact Hall |].
  intros t password Ht.
  unfold AuthService.login, AuthService.login_try, AuthService.checkAccountLockout.
  fold key. unfold Redis.get, Redis.client_get. rewrite Hc, Hdoc. cbn [Redis.live].
  replace (t <? final + 1000 * AuthService.lockoutDuration this) with true
    by (symmetry; apply Z.ltb_lt; exact Ht).
  cbn [AuthService.attempts AuthService.lockedUntil].
  replace (AuthService.maxLoginAttempts this <=? 0 + Z.of_nat (S (length more))) with true
    by (symmetry; apply Z.leb_le; lia).
  replace (0 <? AuthService.ceil_div
                  (final + AuthService.lockoutDuration this * 1000 - t) 1000) with true
    by (symmetry; apply Z.ltb_lt; apply ceil_div_pos; fold duration; lia).
  rewrite with_lockouts_same. reflexivity.
Qed.

Lemma login_locks_after_max_failures_witness :
  let env := AuthService.mkEnv (fun password hash => String.eqb ("bcrypt:" +:+ password) hash)
                               (fun userId now => ("access", "refresh"))
                               (fun token => "sha256:" +:+ token) in
  let ann := AuthService.mkUserRow 7 "ann@example.com" "bcrypt:right" None None "user" true
                                   (Some true) None in
  let w := AuthService.mkWorld [ann] [] true 0 Fixtures.input (Redis.mk ∅ ∅ true) in
  let tries := [(1000, "a"); (2000, "b"); (3000, "c"); (4000, "d"); (5000, "e")] in
  let w' := fst (AuthService.logins AuthService.authService env w "Ann@Example.com"
                   (Some "203.0.113.7") None tries) in
  AuthService.login AuthService.authService env w' 6000 "Ann@Example.com" "right"
    (Some "203.0.113.7") None =
  (w', Throw (AppError "Account temporarily locked due to too many failed login attempts. Try again in 15 minutes." 429)).
Proof.
  intros env ann w tries w'.
  destruct (login_locks_after_max_failures AuthService.authService env w "Ann@Example.com"
              (Some "203.0.113.7") None ann [] 1000 "a"
              [(2000, "b"); (3000, "c"); (4000, "d"); (5000, "e")]) as [_ Hlocked].
  - reflexivity.
  - reflexivity.
  - reflexivity.
  - reflexivity.
  - reflexivity.
  - reflexivity.
  - reflexivity.
  - repeat constructor.
  - simpl. lia.
  - apply (Hlocked 6000 "right"). simpl. lia.
Defined.


(** X25.  What a refused login tells.  For an address and IP that are not
    locked out (the store answering), a login for an address without an
    account and a login with a wrong password for an active account end in
    the same way: the same 401 error and the same failure put on record.
    For a deactivated account the answer is a 401 of its own, whatever the
    password, and nothing is put on record. *)
Theorem login_failures_look_alike (this : AuthService.t) (env : AuthService.Env)
    (w : AuthService.World) (now : Z) (address password : string) (ip ua : option string) :
  AuthService.up w = true ->
  AuthService.checkAccountLockout this (AuthService.lockouts w) now (toLowerCase address) ip
    = (AuthService.lockouts w, Ok tt) ->
  let refused :=
    (AuthService.failed this (AuthService.issued w) now (toLowerCase address) ip,
     Throw (AppError "Invalid email or password" 401)) in
  (AuthService.by_email (toLowerCase address) w = [] ->
   AuthService.login this env w now address password ip ua = refused) /\
  (forall user rest,
     AuthService.by_email (toLowerCase address) w = user :: rest ->
     AuthService.is_active user = Some true ->
     AuthService.bcrypt_compare env password (AuthService.password_hash user) = false ->
     AuthService.login this env w now address password ip ua = refused) /\
  (forall user rest,
     AuthService.by_email (toLowerCase address) w = user :: rest ->
     AuthService.is_active user <> Some true ->
     AuthService.login this env w now address password ip ua =
     (AuthService.issued w, Throw (AppError "Account is deactivated" 401))).
Proof.
  intros Hdb Hfree refused. subst refused.
  unfold AuthService.login, AuthService.login_try. rewrite Hfree, with_lockouts_same, Hdb.
  cbn [negb]. split; [|split].
  - intros ->. reflexivity.
  - intros user rest -> Hactive Hwrong. rewrite Hactive, Hwrong. reflexivity.
  - intros user rest -> Hinactive.
    destruct (AuthService.is_active user) as [[|]|]; [congruence | reflexivity..].
Qed.

Lemma login_failures_look_alike_witness :
  let env := AuthService.mkEnv (fun password hash => String.eqb ("bcrypt:" +:+ password) hash)
                               (fun userId now => ("access", "refresh"))
                               (fun token => "sha256:" +:+ token) in
  let ann := AuthService.mkUserRow 7 "ann@example.com" "bcrypt:right" None None "user" true
                                   (Some true) None in
  let w := AuthService.mkWorld [ann] [] true 0 Fixtures.input (Redis.mk ∅ ∅ true) in
  snd (AuthService.login AuthService.authService env w 1000 "bob@example.com" "guess"
         (Some "203.0.113.7") None) =
  Throw (AppError "Invalid email or password" 401).
Proof.
  intros env ann w.
  destruct (login_failures_look_alike AuthService.authService env w 1000 "bob@example.com"
              "guess" (Some "203.0.113.7") None eq_refl eq_refl) as [Hunknown _].
  rewrite (Hunknown eq_refl). reflexivity.
Defined.



Lemma get_down {V : Type} (r : Redis.t V) (now : Z) (key : string) :
  Redis.up r = false -> Redis.get r now key = None.
Proof. intros H. unfold Redis.get, Redis.client_get. rewrite H. reflexivity. Qed.

Lemma login_without_cache (this : AuthService.t) (env : AuthService.Env)
    (w : AuthService.World) (now : Z) (address password : string) (ip ua : option string) :
  Redis.up (AuthService.lockouts w) = false ->
  AuthService.lockouts (fst (AuthService.login this env w now address password ip ua)) =
    AuthService.lockouts w /\
  error_status (snd (AuthService.login this env w now address password ip ua)) <> Some 429.
Proof.
  intros Hdown.
  unfold AuthService.login, AuthService.login_try, AuthService.checkAccountLockout.
  rewrite (get_down (AuthService.lockouts w) now _ Hdown).
  destruct (AuthService.up w); cbn [negb]; [|split; [reflexivity | discriminate]].
  assert (Hfailed : AuthService.lockouts
                      (AuthService.failed this
                         (AuthService.issued
                            (AuthService.with_lockouts w (AuthService.lockouts w)))
                         now (toLowerCase address) ip) = AuthService.lockouts w).
  { unfold AuthService.failed, AuthService.recordFailedLogin, Redis.set. simpl.
    rewrite Hdown. reflexivity. }
  destruct (AuthService.by_email (toLowerCase address) w) as [|user rest].
  { split; [exact Hfailed | discriminate]. }
  destruct (negb (default false (AuthService.is_active user)));
    [split; [reflexivity | discriminate] |].
  destruct (negb (AuthService.bcrypt_compare env password (AuthService.password_hash user))).
  { split; [exact Hfailed | discriminate]. }
  destruct (negb (AuthService.address_accepted w ip)); (split; [|discriminate]);
    simpl; unfold AuthService.clearFailedLogins, Redis.del; rewrite Hdown; reflexivity.
Qed.

(** X27.  The lockout fails open.  While the cache does not answer, no
    login is ever refused with 429, however many wrong passwords were
    tried before, and nothing is put on record. *)
Theorem lockout_needs_the_cache (this : AuthService.t) (env : AuthService.Env)
    (address : string) (ip ua : option string) (tries : list (Z * string))
    (w : AuthService.World) :
  Redis.up (AuthService.lockouts w) = false ->
  AuthService.lockouts (fst (AuthService.logins this env w address ip ua tries)) =
    AuthService.lockouts w /\
  List.Forall (fun r => error_status r <> Some 429)
              (snd (AuthService.logins this env w address ip ua tries)).
Proof.
  revert w. induction tries as [|[now password] tries IH]; intros w Hdown.
  - split; [reflexivity | constructor].
  - rewrite logins_cons.
    destruct (login_without_cache this env w now address password ip ua Hdown)
      as [Hsame Hresult].
    destruct (AuthService.login this env w now address password ip ua) as [w1 result].
    cbn [fst snd] in Hsame, Hresult.
    destruct (IH w1) as [Hsame' Hresults]; [rewrite Hsame; exact Hdown |].
    destruct (AuthService.logins this env w1 address ip ua tries) as [w2 results].
    cbn [fst snd] in *. split; [congruence |]. constructor; assumption.
Qed.

Lemma lockout_needs_the_cache_witness :
  let env := AuthService.mkEnv (fun password hash => String.eqb ("bcrypt:" +:+ password) hash)
                               (fun userId now => ("access", "refresh"))
                               (fun token => "sha256:" +:+ token) in
  let ann := AuthService.mkUserRow 7 "ann@example.com" "bcrypt:right" None None "user" true
                                   (Some true) None in
  let w := AuthService.mkWorld [ann] [] true 0 Fixtures.input (Redis.mk ∅ ∅ false) in
  List.Forall (fun r => error_status r <> Some 429)
    (snd (AuthService.logins AuthService.authService env w "ann@example.com"
            (Some "203.0.113.7") None
            [(1000, "a"); (2000, "b"); (3000, "c"); (4000, "d"); (5000, "e"); (6000, "f")])).
Proof.
  intros env ann w.
  apply (lockout_needs_the_cache AuthService.authService env "ann@example.com"
           (Some "203.0.113.7") None _ w eq_refl).
Defined.

(** ** The recorded click *)

Lemma truthy_empty (s : string) : truthy (Some s) = false -> s = "".
Proof. destruct s; [reflexivity | discriminate]. Qed.

(** X28.  What [recordClick] stores.  When it returns an id, it has
    appended exactly one row to [url_clicks], for a link that exists,
    stamped with the instant of the insertion and carrying the request's
    IP and user agent.  The row is flagged as a bot exactly when user-agent
    parsing is enabled and [detectBot] (which the handler answers on) takes
    the user agent for one; with parsing disabled every click is stored as a
    non-bot of unknown device, and with geolocation disabled without a
    country.  An address that is stored is one the [INET] column reads. *)
Theorem recordClick_stores_one_row (this : Analytics.t) (aenv : Analytics.Env)
    (w w' : World) (now : Z) (urlId : Z) (req : Request) (clickId : Z) :
  Analytics.recordClick this aenv w now urlId req = (w', Ok (Some clickId)) ->
  exists row,
    Db.url_clicks (db w') = (Db.url_clicks (db w) ++ [row])%list /\
    Db.url_exists (db w) urlId = true /\
    Db.click_id row = clickId /\ Db.url_id row = urlId /\ Db.clicked_at row = now /\
    Db.ip_address row = ip req /\ Db.user_agent row = userAgent_of req /\
    Db.is_bot row =
      Analytics.enableUserAgentParsing this && Analytics.detectBot (userAgent_of req) /\
    Db.device_type row =
      (if Analytics.enableUserAgentParsing this && truthy (Some (userAgent_of req))
       then Analytics.detectDeviceType (userAgent_of req) else "unknown") /\
    (Analytics.enableGeolocation this = false -> Db.country row = None) /\
    (forall address, ip req = Some address ->
                     Db.inet_in (Db.input (db w)) address = true).
Proof.
  unfold Analytics.recordClick, Analytics.recordClick_try. fold (userAgent_of req).
  set (geo := if Analytics.enableGeolocation this && truthy (ip req) && _ && _
              then _ else _).
  assert (Hgeo : Analytics.enableGeolocation this = false -> geo = Ok Analytics.no_geo).
  { intros Hoff. subst geo. rewrite Hoff. reflexivity. }
  destruct geo as [geoData|e]; [|discriminate].
  set (device := if Analytics.enableUserAgentParsing this && truthy (Some (userAgent_of req))
                 then _ else _).
  assert (Hdevice : forall deviceType brw opsys isBot,
            device = Ok (deviceType, brw, opsys, isBot) ->
            isBot = Analytics.enableUserAgentParsing this &&
                    Analytics.detectBot (userAgent_of req) /\
            deviceType =
              (if Analytics.enableUserAgentParsing this && truthy (Some (userAgent_of req))
               then Analytics.detectDeviceType (userAgent_of req) else "unknown")).
  { intros deviceType brw opsys isBot. subst device.
    destruct (Analytics.enableUserAgentParsing this); cbn [andb].
    - destruct (truthy (Some (userAgent_of req))) eqn:Hua.
      + destruct (Analytics.useragent_parse aenv _) as [[family osFamily]|e]; [|discriminate].
        intros [= <- _ _ <-]. auto.
      + intros [= <- _ _ <-]. rewrite (truthy_empty _ Hua). auto.
    - intros [= <- _ _ <-]. auto. }
  destruct device as [[[[deviceType brw] opsys] isBot]|e]; [|discriminate].
  destruct (Hdevice deviceType brw opsys isBot eq_refl) as [HisBot Htype].
  unfold Db.insert_click.
  destruct (negb (Db.up (db w))); [discriminate |].
  destruct (match ip req with
            | Some address => Db.inet_in (Db.input (db w)) address
            | None => true
            end) eqn:Hinet; [|discriminate].
  destruct (Db.url_exists (db w) urlId); [|discriminate].
  cbn [negb]. intros [= <- <-]. eexists. split; [reflexivity |]. cbn.
  repeat (split; [first [reflexivity | assumption] |]).
  split.
  - intros Hoff. specialize (Hgeo Hoff). injection Hgeo as ->. reflexivity.
  - intros address Hip. rewrite Hip in Hinet. exact Hinet.
Qed.

Lemma recordClick_stores_one_row_witness :
  let bot := mkRequest "promo" (Some "203.0.113.7") None (Some "Googlebot/2.1") None None
                       None None in
  let w := Fixtures.store [Fixtures.link 1 (Some 7) "promo" true None None] in
  map Db.is_bot
      (Db.url_clicks (db (fst (Analytics.recordClick Fixtures.analytics Fixtures.analyticsEnv
                                 w 5000 1 bot)))) = [true].
Proof.
  intros bot w.
  destruct (recordClick_stores_one_row Fixtures.analytics Fixtures.analyticsEnv w
              (fst (Analytics.recordClick Fixtures.analytics Fixtures.analyticsEnv
                      w 5000 1 bot)) 5000 1 bot 100 eq_refl)
    as (row & Hrows & _ & _ & _ & _ & _ & _ & Hbot & _).
  rewrite Hrows. simpl. rewrite Hbot. reflexivity.
Defined.

(** ** A failing store *)

(** X29.  A resolution answers 500 exactly when the limiter lets it
    through, nothing is cached under the code and the store does not
    answer; it then dispatches no click.  So a link that is cached keeps
    being resolved while the store is down. *)
Theorem internal_error_means_store_failure (env : UrlService.Env) (w : World) (now : Z)
    (req : Request) :
  let h := handleRedirect env w now req in
  (outcome h = InternalError <->
   snd (RateLimiter.redirectLimiter w now req) = None /\
   cache_miss w now (param_shortCode req) /\ Db.up (db w) = false) /\
  (outcome h = InternalError -> response h = generic_error /\ detached h = []).
Proof.
  intros h. subst h. unfold outcome, handleRedirect.
  pose proof (redirectLimiter_keeps w now req) as (Hdb & _ & Hd & Hu).
  pose proof (redirectLimiter_answers w now req) as Hlimited.
  destruct (RateLimiter.redirectLimiter w now req) as [w1 [limited|]]; cbn [fst snd] in *.
  { cbn [response detached]. rewrite (Hlimited limited eq_refl).
    split; [split; [discriminate | intros [H _]; discriminate] | discriminate]. }
  assert (Hsame : Redis.get (redis w1) now ("url:" +:+ param_shortCode req) =
                  Redis.get (redis w) now ("url:" +:+ param_shortCode req))
    by (apply get_same_docs; assumption).
  unfold cache_miss, getUrlByShortCode. rewrite Hsame.
  destruct (Redis.get (redis w) now ("url:" +:+ param_shortCode req)) as [cached|].
  { destruct (negb (default false (p_isActive (props cached)))); cbn [response detached].
    - change (outcome_of deactivated) with ExpiredOrInactive.
      split; [split; [discriminate | intros (_ & H & _); discriminate] | discriminate].
    - pose proof (respond_outcomes env cached req) as Hin.
      assert (Hne : outcome_of (respond env (props cached) req) <> InternalError).
      { intros Heq. rewrite Heq in Hin. simpl in Hin.
        destruct Hin as [H | [H | [H | []]]]; discriminate. }
      split; [split; [contradiction | intros (_ & H & _); discriminate] | contradiction]. }
  unfold Db.query. rewrite Hdb. destruct (Db.up (db w)).
  - destruct (Db.active_by_code (param_shortCode req) (db w)) as [|url rest].
    + cbn [response detached]. change (outcome_of not_found) with NotFound.
      split; [split; [discriminate | intros (_ & _ & H); discriminate] | discriminate].
    + destruct (has_expired now url).
      * cbn [response detached]. change (outcome_of not_found) with NotFound.
        split; [split; [discriminate | intros (_ & _ & H); discriminate] | discriminate].
      * cbn [response detached world].
        set (p := props (CachedData (urlData_of_row (db w) url))).
        destruct (negb (default false (p_isActive p))); cbn [response detached].
        -- change (outcome_of deactivated) with ExpiredOrInactive.
           split; [split; [discriminate | intros (_ & _ & H); discriminate] | discriminate].
        -- pose proof (respond_outcomes env (CachedData (urlData_of_row (db w) url)) req)
             as Hin.
           fold p in Hin.
           assert (Hne : outcome_of (respond env p req) <> InternalError).
           { intros Heq. rewrite Heq in Hin. simpl in Hin.
             destruct Hin as [H | [H | [H | []]]]; discriminate. }
           split; [split; [contradiction | intros (_ & _ & H); discriminate]
                  | contradiction].
  - cbn [response detached on_error]. split; [split; auto | auto].
Qed.
